(** * DevConnect-Lite backend: the bid routes over a document store

    A shallow embedding of [routes/bids.js] together with the two Mongoose
    schemas it works on ([models/Bid.js], [models/Project.js]).

    - A collection is a finite map from the document's [_id] to its fields.
    - A route handler is a computation in a state-and-exception monad over
      the two collections; a [throw] keeps the writes made before it, as the
      handlers run without a transaction.
    - The [timestamps] option of the schemas ([createdAt], [updatedAt]) is
      left out: no handler reads them.
    - Numbers are integers, dates are integers. *)

From stdpp Require Import gmap strings list fin_maps option sorting.
From Stdlib Require Import ZArith Ascii String.

Local Open Scope string_scope.

(** ** Documents *)

(** A Mongo [ObjectId]. Request fields that the driver would have to cast to
    an [ObjectId] are typed as such. *)
Abbreviation ObjectId := N.

Module Project.

(** [projectSchema]. The [status] enum is ['open', 'in progress',
    'completed'], default ['open']; [assignedTo] defaults to [null]. *)
Record t := mk {
  title : string;
  description : string;
  techStack : list string;
  estimatedBudget : Z;
  status : string;
  createdBy : ObjectId;
  assignedTo : option ObjectId;
  deadline : option Z
}.

#[export] Instance project_eq_dec : EqDecision t.
Proof. solve_decision. Defined.

Definition status_enum : list string := ["open"; "in progress"; "completed"].

(** The update document [{ status: st, assignedTo: dev }]. *)
Definition update (st : string) (dev : ObjectId) (p : t) : t :=
  mk (title p) (description p) (techStack p) (estimatedBudget p)
     st (createdBy p) (Some dev) (deadline p).

End Project.

Module Bid.

(** [bidSchema]. The [status] enum is ['pending', 'accepted', 'rejected'],
    default ['pending']. *)
Record t := mk {
  projectId : ObjectId;
  developerId : ObjectId;
  bidAmount : Z;
  message : string;
  status : string;
  estimatedDelivery : option Z
}.

#[export] Instance bid_eq_dec : EqDecision t.
Proof. solve_decision. Defined.

Definition status_enum : list string := ["pending"; "accepted"; "rejected"].

(** The assignment [bid.status = st], also the update document
    [{ status: st }]. *)
Definition set_status (st : string) (b : t) : t :=
  mk (projectId b) (developerId b) (bidAmount b) (message b) st
     (estimatedDelivery b).

End Bid.

(** ** The store and the handler monad *)

Record Store := mkStore {
  projects : gmap ObjectId Project.t;
  bids : gmap ObjectId Bid.t
}.

Definition set_projects (f : gmap ObjectId Project.t → gmap ObjectId Project.t)
    (s : Store) : Store :=
  mkStore (f (projects s)) (bids s).

Definition set_bids (f : gmap ObjectId Bid.t → gmap ObjectId Bid.t)
    (s : Store) : Store :=
  mkStore (projects s) (f (bids s)).

(** What a handler's [try] block can catch. *)
Inductive Exn :=
| TypeError          (* a property read on [null] *)
| ValidationError    (* schema validation in [save] *)
| DuplicateKey       (* E11000: a unique index is violated *)
| DocumentNotFound.  (* [save] of a document that is gone *)

Definition M (A : Type) : Type := Store → Store * (Exn + A).

#[export] Instance M_ret : MRet M := λ A x s, (s, inr x).

#[export] Instance M_bind : MBind M := λ A B f m s,
  match m s with
  | (s', inr x) => f x s'
  | (s', inl e) => (s', inl e)
  end.

Definition throw {A} (e : Exn) : M A := λ s, (s, inl e).

(** ** Responses *)

(** [res.status(code).json({ success, message, data })]. [data] is the bid
    document sent back, with its [_id]. *)
Record Response := mkResponse {
  statusCode : Z;
  success : bool;
  res_message : string;
  data : option (ObjectId * Bid.t)
}.

Definition json_fail (code : Z) (msg : string) : Response :=
  mkResponse code false msg None.

Definition json_ok (code : Z) (msg : string) (id : ObjectId) (b : Bid.t)
    : Response :=
  mkResponse code true msg (Some (id, b)).

(** A route handler: [try { m } catch (error) { res.status(500).json(..) }].
    No exception escapes it, so it maps a store to a store and a
    response. *)
Definition Handler : Type := Store → Store * Response.

Definition try_catch (m : M Response) (h : Exn → Response) : Handler := λ s,
  match m s with
  | (s', inr r) => (s', r)
  | (s', inl e) => (s', h e)
  end.

(** ** Model operations (Mongoose) *)

(** [Project.findById(id)] *)
Definition Project_findById (id : ObjectId) : M (option Project.t) :=
  λ s, (s, inr (projects s !! id)).

(** [Bid.findById(id)] *)
Definition Bid_findById (id : ObjectId) : M (option Bid.t) :=
  λ s, (s, inr (bids s !! id)).

(** [.populate('projectId')]: the referenced project, [null] when there is
    none. *)
Definition populate_projectId (b : Bid.t) : M (option Project.t) :=
  Project_findById (Bid.projectId b).

(** The property read [bid.projectId.createdBy] on a populated path. *)
Definition get_createdBy (p : option Project.t) : M ObjectId :=
  match p with
  | Some p => mret (Project.createdBy p)
  | None => throw TypeError
  end.

(** [Bid.findOne({ projectId, developerId })] *)
Definition Bid_findOne (pid dev : ObjectId) : M (option (ObjectId * Bid.t)) :=
  λ s, (s, inr (head (map_to_list
    (filter (λ kv, Bid.projectId kv.2 = pid ∧ Bid.developerId kv.2 = dev)
            (bids s))))).

(** JS [String.prototype.trim], on the ASCII white space. *)
Definition is_ws (c : ascii) : bool :=
  bool_decide (c ∈ [" "%char; "009"%char; "010"%char; "011"%char;
                    "012"%char; "013"%char]).

Fixpoint trimStart (s : string) : string :=
  match s with
  | String c s' => if is_ws c then trimStart s' else s
  | EmptyString => EmptyString
  end.

Fixpoint trimEnd (s : string) : string :=
  match s with
  | String c s' =>
      match trimEnd s' with
      | EmptyString => if is_ws c then EmptyString else String c EmptyString
      | t => String c t
      end
  | EmptyString => EmptyString
  end.

Definition trim (s : string) : string := trimEnd (trimStart s).

(** [new Bid({ projectId, developerId, bidAmount, message,
    estimatedDelivery })]: the [trim] setter of [message] runs and [status]
    takes its default. *)
Definition Bid_new (pid dev : ObjectId) (amount : Z) (msg : string)
    (delivery : option Z) : Bid.t :=
  Bid.mk pid dev amount (trim msg) "pending" delivery.

(** The schema validators that [save] runs: [min] on [bidAmount],
    [required] and [maxlength] on [message], [enum] on [status]. *)
Definition Bid_validate (b : Bid.t) : bool :=
  (0 <=? Bid.bidAmount b)%Z
  && negb (bool_decide (Bid.message b = EmptyString))
  && (String.length (Bid.message b) <=? 500)%nat
  && bool_decide (Bid.status b ∈ Bid.status_enum).

(** [bid.save()] of a new document with the generated [_id]: validation,
    then an insert under the unique indexes on [_id] and on
    [{ projectId, developerId }]. *)
Definition Bid_insert (id : ObjectId) (b : Bid.t) : M unit := λ s,
  if negb (Bid_validate b) then (s, inl ValidationError)
  else if bool_decide (is_Some (bids s !! id)) then (s, inl DuplicateKey)
  else if bool_decide
       (filter (λ kv, Bid.projectId kv.2 = Bid.projectId b
                      ∧ Bid.developerId kv.2 = Bid.developerId b)
               (bids s) = ∅)
  then (set_bids (insert id b) s, inr tt)
  else (s, inl DuplicateKey).

(** [bid.save()] of a loaded document whose [status] was assigned: the
    [enum] validator, then [$set: { status }] on the stored document. *)
Definition Bid_save (id : ObjectId) (b : Bid.t) : M unit := λ s,
  if negb (bool_decide (Bid.status b ∈ Bid.status_enum))
  then (s, inl ValidationError)
  else match bids s !! id with
       | Some _ =>
           (set_bids (alter (Bid.set_status (Bid.status b)) id) s, inr tt)
       | None => (s, inl DocumentNotFound)
       end.

(** [Project.findByIdAndUpdate(id, { status, assignedTo })] *)
Definition Project_findByIdAndUpdate (id : ObjectId) (st : string)
    (dev : ObjectId) : M unit := λ s,
  (set_projects (alter (Project.update st dev) id) s, inr tt).

(** [Bid.updateMany({ projectId: pid, _id: { $ne: id }, status: 'pending' },
    { status: 'rejected' })] *)
Definition reject_pending_sibling (pid id : ObjectId) (k : ObjectId)
    (b : Bid.t) : Bid.t :=
  if bool_decide (Bid.projectId b = pid ∧ k ≠ id ∧ Bid.status b = "pending")
  then Bid.set_status "rejected" b
  else b.

Definition Bid_updateMany (pid id : ObjectId) : M unit := λ s,
  (set_bids (map_imap (λ k b, Some (reject_pending_sibling pid id k b))) s,
   inr tt).

(** ** Requests

    The handlers are modelled from the point where [authenticateToken] and
    [requireRole] have let the request through: [req.user._id] is the
    verified principal. *)

(** [POST /bids/place] *)
Record PlaceReq := mkPlaceReq {
  place_user : ObjectId;               (* req.user._id *)
  body_projectId : ObjectId;
  body_bidAmount : Z;
  body_message : string;
  body_estimatedDelivery : option Z
}.

(** [PUT /bids/:id/status] *)
Record StatusReq := mkStatusReq {
  status_user : ObjectId;              (* req.user._id *)
  params_id : ObjectId;
  body_status : string
}.

(** The [validateBid] chain, as the list of messages [validationResult]
    collects. [isMongoId] and [isISO8601] hold by the types of the fields. *)
Definition validateBid (req : PlaceReq) : list string :=
  (if (0 <=? body_bidAmount req)%Z then []
   else ["Bid amount must be a positive number"])
  ++ (let n := String.length (trim (body_message req)) in
      if (10 <=? n)%nat && (n <=? 500)%nat then []
      else ["Message must be between 10 and 500 characters"]).

(** ** [POST /bids/place]: a developer places a bid

    [oid] is the [_id] that [new Bid] generates. *)
Definition placeBid (oid : ObjectId) (req : PlaceReq) : Handler :=
  try_catch
    (if negb (bool_decide (validateBid req = []))
     then mret (json_fail 400 "Validation failed")
     else
       let projectId := body_projectId req in
       let message := trim (body_message req) in
       project ← Project_findById projectId;
       match project with
       | None => mret (json_fail 404 "Project not found")
       | Some project =>
           if negb (bool_decide (Project.status project = "open"))
           then mret (json_fail 400 "Project is not open for bidding")
           else
             existingBid ← Bid_findOne projectId (place_user req);
             match existingBid with
             | Some _ =>
                 mret (json_fail 409
                         "You have already placed a bid on this project")
             | None =>
                 let bid := Bid_new projectId (place_user req)
                              (body_bidAmount req) message
                              (body_estimatedDelivery req) in
                 Bid_insert oid bid;;
                 mret (json_ok 201 "Bid placed successfully" oid bid)
             end
       end)
    (λ _, json_fail 500 "Failed to place bid").

(** The double quote character. *)
Definition dq : string := String "034"%char EmptyString.

(** ** [PUT /bids/:id/status]: the project owner decides a bid *)
Definition decideBid (req : StatusReq) : Handler :=
  try_catch
    (let id := params_id req in
     let status := body_status req in
     if negb (bool_decide (status ∈ ["accepted"; "rejected"]))
     then mret (json_fail 400
                  ("Status must be either " ++ dq ++ "accepted" ++ dq
                   ++ " or " ++ dq ++ "rejected" ++ dq))
     else
       bid ← Bid_findById id;
       match bid with
       | None => mret (json_fail 404 "Bid not found")
       | Some bid =>
           project ← populate_projectId bid;
           createdBy ← get_createdBy project;
           if negb (bool_decide (createdBy = status_user req))
           then mret (json_fail 403
                        "You can only update bids for your own projects")
           else
             let bid := Bid.set_status status bid in
             Bid_save id bid;;
             (if bool_decide (status = "accepted")
              then
                Project_findByIdAndUpdate (Bid.projectId bid) "in progress"
                  (Bid.developerId bid);;
                Bid_updateMany (Bid.projectId bid) id
              else mret ());;
             mret (json_ok 200 ("Bid " ++ status ++ " successfully") id bid)
       end)
    (λ _, json_fail 500 "Failed to update bid status").

(** ** The stores and cases the handlers lead to *)

(** The store after a successful accept of bid [id] (loaded as [b]). *)
Definition accepted_store (id : ObjectId) (b : Bid.t) (s : Store) : Store :=
  mkStore
    (alter (Project.update "in progress" (Bid.developerId b))
           (Bid.projectId b) (projects s))
    (map_imap (λ k b', Some (reject_pending_sibling (Bid.projectId b) id k b'))
              (alter (Bid.set_status "accepted") id (bids s))).

(** The store after a successful reject of bid [id]. *)
Definition rejected_store (id : ObjectId) (s : Store) : Store :=
  mkStore (projects s) (alter (Bid.set_status "rejected") id (bids s)).

(** The six ways a run of [decideBid] can go. *)
Inductive decide_case (req : StatusReq) (s : Store) : Store → Response → Prop :=
| decide_invalid :
    body_status req ∉ ["accepted"; "rejected"] →
    decide_case req s s
      (json_fail 400 ("Status must be either " ++ dq ++ "accepted" ++ dq
                      ++ " or " ++ dq ++ "rejected" ++ dq))
| decide_not_found :
    bids s !! params_id req = None →
    decide_case req s s (json_fail 404 "Bid not found")
| decide_orphan b :
    bids s !! params_id req = Some b →
    projects s !! Bid.projectId b = None →
    decide_case req s s (json_fail 500 "Failed to update bid status")
| decide_forbidden b p :
    bids s !! params_id req = Some b →
    projects s !! Bid.projectId b = Some p →
    Project.createdBy p ≠ status_user req →
    decide_case req s s
      (json_fail 403 "You can only update bids for your own projects")
| decide_accepted b p :
    body_status req = "accepted" →
    bids s !! params_id req = Some b →
    projects s !! Bid.projectId b = Some p →
    Project.createdBy p = status_user req →
    decide_case req s (accepted_store (params_id req) b s)
      (json_ok 200 "Bid accepted successfully" (params_id req)
         (Bid.set_status "accepted" b))
| decide_rejected b p :
    body_status req = "rejected" →
    bids s !! params_id req = Some b →
    projects s !! Bid.projectId b = Some p →
    Project.createdBy p = status_user req →
    decide_case req s (rejected_store (params_id req) s)
      (json_ok 200 "Bid rejected successfully" (params_id req)
         (Bid.set_status "rejected" b)).

(** The bid document a request creates. *)
Definition placed_bid (req : PlaceReq) : Bid.t :=
  Bid_new (body_projectId req) (place_user req) (body_bidAmount req)
    (trim (body_message req)) (body_estimatedDelivery req).


(** ** Sequences of operations *)

Inductive Op :=
| OpPlaceBid (oid : ObjectId) (req : PlaceReq)
| OpDecideBid (req : StatusReq).

Definition exec (o : Op) : Handler :=
  match o with
  | OpPlaceBid oid req => placeBid oid req
  | OpDecideBid req => decideBid req
  end.

(** The states that sequences of the two operations lead to, from a store
    that holds no bid yet. *)
Inductive reachable : Store → Prop :=
| reachable_init s : bids s = ∅ → reachable s
| reachable_step s o : reachable s → reachable (exec o s).1.

(** No bid of project [pid] other than bid [id] is accepted. *)
Definition no_other_accepted (s : Store) (id pid : ObjectId) : Prop :=
  map_Forall (λ k c, k ≠ id → Bid.projectId c = pid →
                     Bid.status c ≠ "accepted") (bids s).

#[global] Instance no_other_accepted_dec s id pid :
  Decision (no_other_accepted s id pid).
Proof. unfold no_other_accepted. apply _. Defined.

(** The guard that the handler does not have: an accept is carried out only
    on a bid whose project has no other accepted bid. Rejections, refused
    requests and [placeBid] are not restricted. *)
Definition awards_once (o : Op) (s : Store) : Prop :=
  match o with
  | OpPlaceBid _ _ => True
  | OpDecideBid req =>
      body_status req = "accepted" →
      statusCode (decideBid req s).2 = 200%Z →
      ∀ b, bids s !! params_id req = Some b →
           no_other_accepted s (params_id req) (Bid.projectId b)
  end.

(** The states that sequences of the two operations lead to when every
    accept that is carried out meets the guard. *)
Inductive reachable_awarding_once : Store → Prop :=
| reachable_awarding_once_init s : bids s = ∅ → reachable_awarding_once s
| reachable_awarding_once_step s o :
    reachable_awarding_once s → awards_once o s →
    reachable_awarding_once (exec o s).1.

(** ** The cross-entity invariant *)

(** No project has two accepted bids. *)
Definition at_most_one_accepted (s : Store) : Prop :=
  ∀ k1 k2 b1 b2,
    bids s !! k1 = Some b1 → bids s !! k2 = Some b2 →
    Bid.projectId b1 = Bid.projectId b2 →
    Bid.status b1 = "accepted" → Bid.status b2 = "accepted" →
    k1 = k2.

(** An accepted bid's project is in progress and assigned to the bidder. *)
Definition accepted_is_assigned (s : Store) : Prop :=
  ∀ k b,
    bids s !! k = Some b → Bid.status b = "accepted" →
    ∃ p, projects s !! Bid.projectId b = Some p
         ∧ Project.status p = "in progress"
         ∧ Project.assignedTo p = Some (Bid.developerId b).

(** A project with an accepted bid has no pending bid. *)
Definition no_pending_beside_accepted (s : Store) : Prop :=
  ∀ k1 k2 b1 b2,
    bids s !! k1 = Some b1 → bids s !! k2 = Some b2 →
    Bid.projectId b1 = Bid.projectId b2 →
    Bid.status b1 = "accepted" → Bid.status b2 ≠ "pending".

(** Every bid's project is in the store. *)
Definition bids_have_projects (s : Store) : Prop :=
  ∀ k b, bids s !! k = Some b → is_Some (projects s !! Bid.projectId b).

Definition award_inv (s : Store) : Prop :=
  at_most_one_accepted s ∧ accepted_is_assigned s
  ∧ no_pending_beside_accepted s.

(** ** A worked scenario

    Client 10 owns project 1; developers 20, 21 and 22 bid on it. *)

Definition shop : Project.t :=
  Project.mk "Shop" "An online shop with a cart" ["React"; "Node.js"] 5000
    "open" 10 None None.

Definition store0 : Store := mkStore {[ 1%N := shop ]} ∅.

Definition bid_of (dev : ObjectId) (amount : Z) : PlaceReq :=
  mkPlaceReq dev 1 amount "I can deliver this project" None.

Definition accept (user id : ObjectId) : StatusReq :=
  mkStatusReq user id "accepted".

Definition reject (user id : ObjectId) : StatusReq :=
  mkStatusReq user id "rejected".

(** Three pending bids 100, 101, 102. *)
Definition store_bids : Store :=
  (placeBid 102 (bid_of 22 4200)
     (placeBid 101 (bid_of 21 4000)
        (placeBid 100 (bid_of 20 4500) store0).1).1).1.

(** The owner accepts bid 100. *)
Definition store_awarded : Store := (decideBid (accept 10 100) store_bids).1.

(** The owner changes their mind: bid 100 is rejected again, then bid 101 is
    accepted. *)
Definition store_changed_mind : Store :=
  (decideBid (accept 10 101)
     (decideBid (reject 10 100) store_awarded).1).1.

(** From [store_awarded], the owner instead accepts bid 101 as well. *)
Definition store_two_awards : Store :=
  (decideBid (accept 10 101) store_awarded).1.

(** A bid whose project is not in the store. *)
Definition orphan_bid : Bid.t :=
  Bid.mk 7 20 4500 "I can deliver this project" "pending" None.

Definition store_orphan : Store :=
  mkStore {[ 1%N := shop ]} {[ 100%N := orphan_bid ]}.

(** ** Two requests in flight

    The [decideBid] handler gives up control at each store operation it
    awaits. Between two of them the store operations of another request can
    run. [step] runs the handler from one such point to the next: the
    program counter holds the handler's local [bid]. (The last [populate] of
    [developerId] reads the users only and is left out.) *)
Inductive Pc :=
| PcStart                    (* before [Bid.findById] *)
| PcPopulate (bid : Bid.t)   (* before [.populate('projectId')] *)
| PcSave (bid : Bid.t)       (* [bid.status] assigned, before [bid.save()] *)
| PcProject (bid : Bid.t)    (* before [Project.findByIdAndUpdate] *)
| PcCascade (bid : Bid.t)    (* before [Bid.updateMany] *)
| PcDone (r : Response).     (* response sent *)

(** The store operation at the program counter, and the synchronous code
    after it up to the next one. *)
Definition step_code (req : StatusReq) (pc : Pc) : M Pc :=
  let id := params_id req in
  let status := body_status req in
  match pc with
  | PcStart =>
      if negb (bool_decide (status ∈ ["accepted"; "rejected"]))
      then mret (PcDone (json_fail 400
                  ("Status must be either " ++ dq ++ "accepted" ++ dq
                   ++ " or " ++ dq ++ "rejected" ++ dq)))
      else
        bid ← Bid_findById id;
        match bid with
        | None => mret (PcDone (json_fail 404 "Bid not found"))
        | Some bid => mret (PcPopulate bid)
        end
  | PcPopulate bid =>
      project ← populate_projectId bid;
      createdBy ← get_createdBy project;
      if negb (bool_decide (createdBy = status_user req))
      then mret (PcDone (json_fail 403
                   "You can only update bids for your own projects"))
      else mret (PcSave (Bid.set_status status bid))
  | PcSave bid =>
      Bid_save id bid;;
      if bool_decide (status = "accepted")
      then mret (PcProject bid)
      else mret (PcDone (json_ok 200 ("Bid " ++ status ++ " successfully")
                           id bid))
  | PcProject bid =>
      Project_findByIdAndUpdate (Bid.projectId bid) "in progress"
        (Bid.developerId bid);;
      mret (PcCascade bid)
  | PcCascade bid =>
      Bid_updateMany (Bid.projectId bid) id;;
      mret (PcDone (json_ok 200 ("Bid " ++ status ++ " successfully")
                      id bid))
  | PcDone r => mret (PcDone r)
  end.

(** One step of a request, inside the handler's [try]. *)
Definition step (req : StatusReq) (pc : Pc) (s : Store) : Store * Pc :=
  match step_code req pc s with
  | (s', inr pc') => (s', pc')
  | (s', inl _) => (s', PcDone (json_fail 500 "Failed to update bid status"))
  end.

(** The request run on its own, for [n] steps. *)
Fixpoint steps (n : nat) (req : StatusReq) (pc : Pc) (s : Store)
    : Store * Pc :=
  match n with
  | O => (s, pc)
  | S n => let '(s', pc') := step req pc s in steps n req pc' s'
  end.

(** Two requests under a schedule: [true] lets the first one take its next
    step, [false] the second one. *)
Fixpoint interleave (reqA reqB : StatusReq) (sched : list bool)
    (cfg : Store * Pc * Pc) : Store * Pc * Pc :=
  match sched with
  | [] => cfg
  | true :: sched =>
      let '(s, pcA, pcB) := cfg in
      let '(s', pcA') := step reqA pcA s in
      interleave reqA reqB sched (s', pcA', pcB)
  | false :: sched =>
      let '(s, pcA, pcB) := cfg in
      let '(s', pcB') := step reqB pcB s in
      interleave reqA reqB sched (s', pcA, pcB')
  end.

(** The store operations a request has still to run. *)
Definition steps_left (pc : Pc) : nat :=
  match pc with
  | PcStart => 5
  | PcPopulate _ => 4
  | PcSave _ => 3
  | PcProject _ => 2
  | PcCascade _ => 1
  | PcDone _ => 0
  end.

(** [bid] is a copy of [b] as far as its references go. *)
Definition same_refs (b bid : Bid.t) : Prop :=
  Bid.projectId bid = Bid.projectId b
  ∧ Bid.developerId bid = Bid.developerId b.

Definition is_accepted (s : Store) (id : ObjectId) : Prop :=
  Bid.status <$> bids s !! id = Some "accepted".

(** What an accepting request on bid [b] has established at [pc]. *)
Definition accept_progress (req : StatusReq) (b : Bid.t) (s : Store)
    (pc : Pc) : Prop :=
  match pc with
  | PcStart => True
  | PcPopulate bid => same_refs b bid
  | PcSave bid => same_refs b bid ∧ Bid.status bid = "accepted"
  | PcProject bid | PcCascade bid =>
      same_refs b bid ∧ is_accepted s (params_id req)
  | PcDone r => statusCode r = 200%Z ∧ is_accepted s (params_id req)
  end.

(** What no step of the two requests changes: the two bids are stored with
    their references, and their project is stored with its owner. *)
Definition race_store (idA idB : ObjectId) (bA bB : Bid.t)
    (owner : ObjectId) (s : Store) : Prop :=
  (∃ b, bids s !! idA = Some b ∧ same_refs bA b)
  ∧ (∃ b, bids s !! idB = Some b ∧ same_refs bB b)
  ∧ (∃ p, projects s !! Bid.projectId bA = Some p
          ∧ Project.createdBy p = owner).

(** The schedule that runs the first request to its end, then the second;
    and one that alternates. *)
Definition serial : list bool := replicate 5 true ++ replicate 5 false.

Definition alternating : list bool :=
  [true; false; true; false; true; false; true; false; true; false].

(** How often the schedule lets a request take a step. *)
Fixpoint turns (who : bool) (sched : list bool) : nat :=
  match sched with
  | [] => 0
  | w :: sched => (if bool_decide (w = who) then 1 else 0) + turns who sched
  end.

(** The writes a step of the request on bid [id] can make. *)
Inductive store_effect (id : ObjectId) (s : Store) : Store → Prop :=
| effect_none : store_effect id s s
| effect_save st :
    store_effect id s (set_bids (alter (Bid.set_status st) id) s)
| effect_project pid st dev :
    store_effect id s (set_projects (alter (Project.update st dev) pid) s)
| effect_cascade pid :
    store_effect id s
      (set_bids (map_imap
                   (λ k b, Some (reject_pending_sibling pid id k b))) s).

(** * The project routes and the whole application

    [routes/projects.js], with the same store. *)

(** [res.status(code).json({ success, message, data })] of a handler whose
    [data] is not a bid. *)
Record Reply (A : Type) := mkReply {
  reply_code : Z;
  reply_success : bool;
  reply_message : string;
  reply_data : option A
}.

Arguments mkReply {A} _ _ _ _.
Arguments reply_code {A} _.
Arguments reply_success {A} _.
Arguments reply_message {A} _.
Arguments reply_data {A} _.

Definition reply_fail {A} (code : Z) (msg : string) : Reply A :=
  mkReply code false msg None.

Definition reply_ok {A} (code : Z) (msg : string) (x : A) : Reply A :=
  mkReply code true msg (Some x).

(** [try { m } catch (error) { res.status(500).json(..) }], for any reply. *)
Definition try_reply {A} (m : M (Reply A)) (h : Exn → Reply A)
    : Store → Store * Reply A := λ s,
  match m s with
  | (s', inr r) => (s', r)
  | (s', inl e) => (s', h e)
  end.

(** ** [POST /projects/create] *)

(** [req.body.techStack]: an array of strings, or anything else. *)
Inductive TechStackField :=
| TechArray (l : list string)
| TechValue (v : string).

(** [new Date(deadline)] for a [deadline] that is not falsy: a date, or the
    Invalid Date of a string that does not parse. *)
Inductive JsDate :=
| DateAt (t : Z)
| InvalidDate.

#[global] Instance JsDate_eq_dec : EqDecision JsDate.
Proof. solve_decision. Defined.

Record CreateReq := mkCreateReq {
  create_user : ObjectId;              (* req.user._id *)
  body_title : string;
  body_description : string;
  body_techStack : TechStackField;
  body_estimatedBudget : Z;
  body_deadline : option JsDate        (* [None]: absent or falsy *)
}.

(** [body('techStack').isArray({ min: 1 })] *)
Definition isArray_min1 (t : TechStackField) : bool :=
  match t with
  | TechArray l => (1 <=? List.length l)%nat
  | TechValue _ => false
  end.

(** The [validateProject] chain, as the list of messages
    [validationResult] collects. *)
Definition validateProject (req : CreateReq) : list string :=
  (let n := String.length (trim (body_title req)) in
   if (3 <=? n)%nat && (n <=? 100)%nat then []
   else ["Title must be between 3 and 100 characters"])
  ++ (let n := String.length (trim (body_description req)) in
      if (10 <=? n)%nat && (n <=? 1000)%nat then []
      else ["Description must be between 10 and 1000 characters"])
  ++ (if isArray_min1 (body_techStack req) then []
      else ["At least one technology is required"])
  ++ (if (0 <=? body_estimatedBudget req)%Z then []
      else ["Budget must be a positive number"]).

(** [Array.isArray(techStack) ? techStack : [techStack]] *)
Definition techStack_array (t : TechStackField) : list string :=
  match t with
  | TechArray l => l
  | TechValue v => [v]
  end.

(** [new Project({ title, description, techStack, estimatedBudget,
    createdBy, deadline })]: the [trim] setters of [title], [description]
    and of each [techStack] entry run; [status] and [assignedTo] take their
    defaults. *)
Definition Project_new (title description : string) (techStack : list string)
    (budget : Z) (createdBy : ObjectId) (deadline : option Z) : Project.t :=
  Project.mk (trim title) (trim description) (trim <$> techStack) budget
    "open" createdBy None deadline.

(** The schema validators that [save] runs: [required] and [maxlength] on
    [title] and [description], [required] on each [techStack] entry, [min]
    on [estimatedBudget], [enum] on [status]. *)
Definition Project_validate (p : Project.t) : bool :=
  negb (bool_decide (Project.title p = EmptyString))
  && (String.length (Project.title p) <=? 100)%nat
  && negb (bool_decide (Project.description p = EmptyString))
  && (String.length (Project.description p) <=? 1000)%nat
  && forallb (λ t, negb (bool_decide (t = EmptyString))) (Project.techStack p)
  && (0 <=? Project.estimatedBudget p)%Z
  && bool_decide (Project.status p ∈ Project.status_enum).

(** [project.save()] of a new document with the generated [_id]. *)
Definition Project_insert (id : ObjectId) (p : Project.t) : M unit := λ s,
  if negb (Project_validate p) then (s, inl ValidationError)
  else if bool_decide (is_Some (projects s !! id))
  then (s, inl DuplicateKey)
  else (set_projects (insert id p) s, inr tt).

(** [deadline ? new Date(deadline) : undefined], as the schema's [Date]
    holds it. *)
Definition deadline_of (d : option JsDate) : option Z :=
  match d with
  | Some (DateAt t) => Some t
  | Some InvalidDate | None => None
  end.

(** The handler; [oid] is the [_id] that [new Project] generates. The route
    does not validate [deadline]: an Invalid Date does not cast to the
    schema's [Date], and [save] then fails on it as on any other path. *)
Definition createProject (oid : ObjectId) (req : CreateReq)
    : Store → Store * Reply (ObjectId * Project.t) :=
  try_reply
    (if negb (bool_decide (validateProject req = []))
     then mret (reply_fail 400 "Validation failed")
     else
       let title := trim (body_title req) in
       let description := trim (body_description req) in
       let deadline := body_deadline req in
       let project :=
         Project_new title description
           (techStack_array (body_techStack req))
           (body_estimatedBudget req) (create_user req)
           (deadline_of deadline) in
       (if bool_decide (deadline = Some InvalidDate)
        then throw ValidationError
        else Project_insert oid project);;
       mret (reply_ok 201 "Project created successfully" (oid, project)))
    (λ _, reply_fail 500 "Failed to create project").

(** The project document a request creates. *)
Definition created_project (req : CreateReq) : Project.t :=
  Project_new (trim (body_title req)) (trim (body_description req))
    (techStack_array (body_techStack req)) (body_estimatedBudget req)
    (create_user req) (deadline_of (body_deadline req)).

(** No entry of the array is blank. *)
Definition no_blank_tech (req : CreateReq) : Prop :=
  Forall (λ t, trim t ≠ EmptyString) (techStack_array (body_techStack req)).

(** ** Plain requests

    The model holds a string as its bytes and a number as an integer. For
    text outside ASCII the lengths that the code compares differ from the
    byte count ([isLength] counts characters, the schema's [maxlength]
    counts UTF-16 units) and JavaScript's [trim] strips more white space;
    a number beyond [2^53] is not read exactly, and from [1e21] on it prints
    with an exponent, which [isNumeric] refuses. On plain requests the
    validators of the model are those of the code. (The typed fields of a
    request hold what the casts give: the [estimatedDelivery] of a
    [PlaceReq] is absent or a date that parsed.) *)

Definition ascii_only (s : string) : bool :=
  forallb (λ c, (nat_of_ascii c <? 128)%nat) (list_ascii_of_string s).

Definition plain_place (req : PlaceReq) : Prop :=
  ascii_only (body_message req) = true
  ∧ (body_bidAmount req ≤ 2 ^ 53)%Z.

Definition plain_create (req : CreateReq) : Prop :=
  ascii_only (body_title req) = true
  ∧ ascii_only (body_description req) = true
  ∧ forallb ascii_only (techStack_array (body_techStack req)) = true
  ∧ (body_estimatedBudget req ≤ 2 ^ 53)%Z.

(** ** Route parameters as sent

    [req.params.id] is a string. [Bid.findById] and [Project.findById] cast
    it to an ObjectId and throw a CastError when it does not cast; the cast
    is Mongoose's, and the handlers are modelled over it. *)

Record StatusHttp := mkStatusHttp {
  http_user : ObjectId;                (* req.user._id *)
  http_id : string;                    (* req.params.id *)
  http_status : string                 (* req.body.status *)
}.

(** [PUT /bids/:id/status] on the parameter as sent: the status check comes
    first, then [Bid.findById(id)], whose CastError the handler's [catch]
    answers with 500. *)
Definition decideBid_http (cast : string → option ObjectId)
    (req : StatusHttp) : Handler := λ s,
  if negb (bool_decide (http_status req ∈ ["accepted"; "rejected"]))
  then (s, json_fail 400
             ("Status must be either " ++ dq ++ "accepted" ++ dq
              ++ " or " ++ dq ++ "rejected" ++ dq))
  else
    match cast (http_id req) with
    | None => (s, json_fail 500 "Failed to update bid status")
    | Some id => decideBid (mkStatusReq (http_user req) id (http_status req)) s
    end.

(** The cast of a string of 24 hexadecimal digits, the form in which the
    server prints an [_id]. *)
Definition hex_digit (c : ascii) : option N :=
  let n := N_of_ascii c in
  if (48 <=? n)%N && (n <=? 57)%N then Some (n - 48)%N
  else if (97 <=? n)%N && (n <=? 102)%N then Some (n - 87)%N
  else if (65 <=? n)%N && (n <=? 70)%N then Some (n - 55)%N
  else None.

Fixpoint hex_value (acc : N) (s : string) : option N :=
  match s with
  | EmptyString => Some acc
  | String c t =>
      match hex_digit c with
      | Some d => hex_value (16 * acc + d) t
      | None => None
      end
  end.

Definition cast_hex24 (raw : string) : option ObjectId :=
  if (String.length raw =? 24)%nat then hex_value 0 raw else None.

(** ** The requests that write to the store *)

Inductive Request :=
| ReqCreateProject (oid : ObjectId) (req : CreateReq)
| ReqPlaceBid (oid : ObjectId) (req : PlaceReq)
| ReqDecideBid (req : StatusReq).

(** The store after a request, and the status code it answers. *)
Definition serve (r : Request) (s : Store) : Store * Z :=
  match r with
  | ReqCreateProject oid req =>
      let '(s', re) := createProject oid req s in (s', reply_code re)
  | ReqPlaceBid oid req =>
      let '(s', re) := placeBid oid req s in (s', statusCode re)
  | ReqDecideBid req =>
      let '(s', re) := decideBid req s in (s', statusCode re)
  end.

(** The store after a sequence of requests, oldest first. *)
Definition serve_all (rs : list Request) (s : Store) : Store :=
  foldl (λ s r, (serve r s).1) s rs.

Definition empty_store : Store := mkStore ∅ ∅.

(** The stores the application can be in: what sequences of requests,
    served one after the other, build from the empty database. *)
Inductive app_reachable : Store → Prop :=
| app_reachable_empty : app_reachable empty_store
| app_reachable_serve s r :
    app_reachable s → app_reachable (serve r s).1.

(** ** What holds of every store of the application *)

(** One bid per developer per project. *)
Definition unique_pair (s : Store) : Prop :=
  ∀ k1 k2 b1 b2,
    bids s !! k1 = Some b1 → bids s !! k2 = Some b2 →
    Bid.projectId b1 = Bid.projectId b2 →
    Bid.developerId b1 = Bid.developerId b2 →
    k1 = k2.

(** A project is open and unassigned, or in progress and assigned to a
    developer who has a decided bid on it. *)
Definition project_assignment (s : Store) : Prop :=
  ∀ pid p,
    projects s !! pid = Some p →
    (Project.status p = "open" ∧ Project.assignedTo p = None)
    ∨ (Project.status p = "in progress"
       ∧ ∃ k b, bids s !! k = Some b
                ∧ Bid.projectId b = pid
                ∧ Project.assignedTo p = Some (Bid.developerId b)
                ∧ Bid.status b ∈ ["accepted"; "rejected"]).

(** Pending bids are on open projects, decided bids have one of the two
    final values, and accepted bids are on projects in progress. *)
Definition bid_status_fits (s : Store) : Prop :=
  ∀ k b p,
    bids s !! k = Some b →
    projects s !! Bid.projectId b = Some p →
    (Bid.status b = "pending" ∧ Project.status p = "open")
    ∨ (Bid.status b = "rejected")
    ∨ (Bid.status b = "accepted" ∧ Project.status p = "in progress").

(** What the route validators let through, as found in the store. *)
Definition stored_documents_valid (s : Store) : Prop :=
  (∀ k b, bids s !! k = Some b →
          (0 ≤ Bid.bidAmount b)%Z
          ∧ (10 ≤ String.length (Bid.message b) ≤ 500)%nat
          ∧ trim (Bid.message b) = Bid.message b)
  ∧ (∀ k p, projects s !! k = Some p →
            (0 ≤ Project.estimatedBudget p)%Z
            ∧ (3 ≤ String.length (Project.title p) ≤ 100)%nat
            ∧ (10 ≤ String.length (Project.description p) ≤ 1000)%nat
            ∧ Project.techStack p ≠ []
            ∧ Forall (λ t, t ≠ EmptyString) (Project.techStack p)).

Definition app_inv (s : Store) : Prop :=
  bids_have_projects s ∧ unique_pair s ∧ project_assignment s
  ∧ bid_status_fits s ∧ stored_documents_valid s.

(** What no request changes in a stored document. *)
Definition same_project_but_award (p p' : Project.t) : Prop :=
  Project.title p' = Project.title p
  ∧ Project.description p' = Project.description p
  ∧ Project.techStack p' = Project.techStack p
  ∧ Project.estimatedBudget p' = Project.estimatedBudget p
  ∧ Project.createdBy p' = Project.createdBy p
  ∧ Project.deadline p' = Project.deadline p.

Definition same_bid_but_status (b b' : Bid.t) : Prop :=
  Bid.projectId b' = Bid.projectId b
  ∧ Bid.developerId b' = Bid.developerId b
  ∧ Bid.bidAmount b' = Bid.bidAmount b
  ∧ Bid.message b' = Bid.message b
  ∧ Bid.estimatedDelivery b' = Bid.estimatedDelivery b.

(** [s'] keeps every document of [s], up to the award fields. *)
Definition keeps_documents (s s' : Store) : Prop :=
  (∀ k p, projects s !! k = Some p →
          ∃ p', projects s' !! k = Some p' ∧ same_project_but_award p p'
                ∧ (Project.status p ≠ "open" → Project.status p' ≠ "open"))
  ∧ (∀ k b, bids s !! k = Some b →
            ∃ b', bids s' !! k = Some b' ∧ same_bid_but_status b b'
                  ∧ (Bid.status b ≠ "pending" → Bid.status b' ≠ "pending")).

(** ** A worked history of the application

    Client 10 creates project 1, developers 20, 21 and 22 bid on it, and the
    client accepts the bid of developer 20. *)

Definition create_shop : CreateReq :=
  mkCreateReq 10 "  Shop " "An online shop with a cart"
    (TechArray ["React"; " Node.js"]) 5000 None.

Definition history : list Request :=
  [ReqCreateProject 1 create_shop;
   ReqPlaceBid 100 (bid_of 20 4500);
   ReqPlaceBid 101 (bid_of 21 4000);
   ReqPlaceBid 102 (bid_of 22 4200);
   ReqDecideBid (accept 10 100)].

Definition app_store : Store := serve_all history empty_store.

(** The same request with a deadline that does not parse. *)
Definition create_no_date : CreateReq :=
  mkCreateReq 10 "  Shop " "An online shop with a cart"
    (TechArray ["React"; " Node.js"]) 5000 (Some InvalidDate).

(** A request whose second technology is blank. *)
Definition create_blank : CreateReq :=
  mkCreateReq 10 "Shop" "An online shop with a cart"
    (TechArray ["React"; "  "]) 5000 None.

(** ** Two [placeBid] requests in flight

    As for [decideBid]: the handler from one awaited store operation to the
    next. (The last [populate] reads only.) *)
Inductive PlacePc :=
| PlStart                   (* before [Project.findById] *)
| PlFindOne                 (* the project is open; before [Bid.findOne] *)
| PlSave (bid : Bid.t)      (* [new Bid] built; before [bid.save()] *)
| PlDone (r : Response).    (* response sent *)

Definition place_step_code (oid : ObjectId) (req : PlaceReq) (pc : PlacePc)
    : M PlacePc :=
  let projectId := body_projectId req in
  let message := trim (body_message req) in
  match pc with
  | PlStart =>
      if negb (bool_decide (validateBid req = []))
      then mret (PlDone (json_fail 400 "Validation failed"))
      else
        project ← Project_findById projectId;
        match project with
        | None => mret (PlDone (json_fail 404 "Project not found"))
        | Some project =>
            if negb (bool_decide (Project.status project = "open"))
            then mret (PlDone (json_fail 400
                                 "Project is not open for bidding"))
            else mret PlFindOne
        end
  | PlFindOne =>
      existingBid ← Bid_findOne projectId (place_user req);
      match existingBid with
      | Some _ =>
          mret (PlDone (json_fail 409
                          "You have already placed a bid on this project"))
      | None =>
          mret (PlSave (Bid_new projectId (place_user req)
                          (body_bidAmount req) message
                          (body_estimatedDelivery req)))
      end
  | PlSave bid =>
      Bid_insert oid bid;;
      mret (PlDone (json_ok 201 "Bid placed successfully" oid bid))
  | PlDone r => mret (PlDone r)
  end.

(** One step of a request, inside the handler's [try]. *)
Definition place_step (oid : ObjectId) (req : PlaceReq) (pc : PlacePc)
    (s : Store) : Store * PlacePc :=
  match place_step_code oid req pc s with
  | (s', inr pc') => (s', pc')
  | (s', inl _) => (s', PlDone (json_fail 500 "Failed to place bid"))
  end.

Fixpoint place_steps (n : nat) (oid : ObjectId) (req : PlaceReq)
    (pc : PlacePc) (s : Store) : Store * PlacePc :=
  match n with
  | O => (s, pc)
  | S n => let '(s', pc') := place_step oid req pc s in
           place_steps n oid req pc' s'
  end.

(** Two requests under a schedule: [true] lets the first one take its next
    step, [false] the second one. *)
Fixpoint place_interleave (oidA : ObjectId) (reqA : PlaceReq)
    (oidB : ObjectId) (reqB : PlaceReq) (sched : list bool)
    (cfg : Store * PlacePc * PlacePc) : Store * PlacePc * PlacePc :=
  match sched with
  | [] => cfg
  | true :: sched =>
      let '(s, pcA, pcB) := cfg in
      let '(s', pcA') := place_step oidA reqA pcA s in
      place_interleave oidA reqA oidB reqB sched (s', pcA', pcB)
  | false :: sched =>
      let '(s, pcA, pcB) := cfg in
      let '(s', pcB') := place_step oidB reqB pcB s in
      place_interleave oidA reqA oidB reqB sched (s', pcA, pcB')
  end.

Definition place_left (pc : PlacePc) : nat :=
  match pc with
  | PlStart => 3
  | PlFindOne => 2
  | PlSave _ => 1
  | PlDone _ => 0
  end.

(** A request that has not answered yet. *)
Definition in_flight (req : PlaceReq) (pc : PlacePc) : Prop :=
  pc = PlStart ∨ pc = PlFindOne ∨ pc = PlSave (placed_bid req).

(** A request that has not stored its bid: still in flight, or answered 409
    or 500. *)
Definition not_placed (req : PlaceReq) (pc : PlacePc) : Prop :=
  in_flight req pc
  ∨ ∃ r, pc = PlDone r ∧ statusCode r ∈ [409%Z; 500%Z].

(** A request that has stored its bid and answered 201. *)
Definition placed (oid : ObjectId) (req : PlaceReq) (pc : PlacePc) : Prop :=
  pc = PlDone (json_ok 201 "Bid placed successfully" oid (placed_bid req)).

(** The configurations of two racing requests of one developer on one open
    project, from the store [s0]: at most one of the two bids is stored. *)
Definition place_race (s0 : Store) (oidA : ObjectId) (reqA : PlaceReq)
    (oidB : ObjectId) (reqB : PlaceReq) (cfg : Store * PlacePc * PlacePc)
    : Prop :=
  let '(s, pcA, pcB) := cfg in
  projects s = projects s0
  ∧ ((bids s = bids s0 ∧ in_flight reqA pcA ∧ in_flight reqB pcB)
     ∨ (bids s = <[oidA := placed_bid reqA]> (bids s0)
        ∧ placed oidA reqA pcA ∧ not_placed reqB pcB)
     ∨ (bids s = <[oidB := placed_bid reqB]> (bids s0)
        ∧ placed oidB reqB pcB ∧ not_placed reqA pcA)).

(** A [placeBid] of developer 23 that has passed its checks on the open
    project when the owner's accept of bid 100 is served, and saves after
    it. *)
Definition late_bid : Store * PlacePc :=
  let '(s1, pc1) := place_steps 2 103 (bid_of 23 4500) PlStart store_bids in
  let s2 := (decideBid (accept 10 100) s1).1 in
  place_steps 1 103 (bid_of 23 4500) pc1 s2.

(** Both find no bid, then both save. *)
Definition both_check_first : list bool :=
  [true; false; true; false; true; false].

(** The second request of developer 21 on project 1, in flight together with
    the first. *)
Definition double_click : PlaceReq := bid_of 21 3900.

(** * The listing routes

    They read the store and answer; none of them writes. The schemas'
    [createdAt] stamps, which the store above leaves out, are needed for the
    sort: the routes are modelled over the function that gives a document's
    stamp. The [populate] calls, which read the users, are left out: a
    listed document is given with its [_id] and its own fields. *)

(** [Math.ceil(total / limit)], for a positive [limit]. *)
Definition ceil_div (total limit : nat) : nat := (total + (limit - 1)) / limit.

(** [.skip(skip).limit(limit)] on a sorted result. *)
Definition skip_limit {A} (skip limit : nat) (l : list A) : list A :=
  take limit (drop skip l).

(** The [pagination] object of a response. [total] is [totalBids] or
    [totalProjects]. *)
Record Pagination := mkPagination {
  currentPage : positive;
  totalPages : nat;
  total : nat;
  hasNext : bool;
  hasPrev : bool
}.

(** A page of documents with its [pagination]. *)
Record Page (A : Type) := mkPage {
  page_items : list (ObjectId * A);
  pagination : Pagination
}.

Arguments mkPage {A} _ _.
Arguments page_items {A} _.
Arguments pagination {A} _.

(** The truthiness of a query string that may be absent. *)
Definition given (q : option string) : option string :=
  match q with
  | Some v => if bool_decide (v = EmptyString) then None else Some v
  | None => None
  end.

Section Listings.

(** The [createdAt] stamp of the document with this [_id]. *)
Variable createdAt : ObjectId → Z.

(** [.sort({ createdAt: -1 })]; documents with equal stamps come in an order
    MongoDB leaves open, here the one of the merge sort. *)
Definition newer_first {A} (x y : ObjectId * A) : Prop :=
  (createdAt y.1 ≤ createdAt x.1)%Z.

#[local] Instance newer_first_dec {A} (x y : ObjectId * A) :
  Decision (newer_first x y).
Proof. unfold newer_first. apply _. Defined.

Definition sort_newest {A} (l : list (ObjectId * A)) : list (ObjectId * A) :=
  merge_sort newer_first l.

(** ** [GET /bids/my]

    [page] and [limit] are the query parameters after [parseInt], for query
    strings that are positive integers; absent, they default to 1 and 10. *)
Record MyBidsReq := mkMyBidsReq {
  my_user : ObjectId;                  (* req.user._id *)
  my_status : option string;
  my_page : option positive;
  my_limit : option positive
}.

(** The [filter] object: [developerId], and [status] when given. *)
Definition my_filter (req : MyBidsReq) (kv : ObjectId * Bid.t) : Prop :=
  Bid.developerId kv.2 = my_user req
  ∧ match given (my_status req) with
    | Some st => Bid.status kv.2 = st
    | None => True
    end.

#[local] Instance my_filter_dec req kv : Decision (my_filter req kv).
Proof. unfold my_filter. destruct (given (my_status req)); apply _. Defined.

(** [Bid.find(filter).sort({ createdAt: -1 })] *)
Definition my_bids_sorted (req : MyBidsReq) (s : Store)
    : list (ObjectId * Bid.t) :=
  sort_newest (map_to_list (filter (my_filter req) (bids s))).

Definition myBids (req : MyBidsReq) (s : Store) : Reply (Page Bid.t) :=
  let page := default 1%positive (my_page req) in
  let limit := default 10%positive (my_limit req) in
  let skip := ((Pos.to_nat page - 1) * Pos.to_nat limit)%nat in
  let found := skip_limit skip (Pos.to_nat limit) (my_bids_sorted req s) in
  let total := size (filter (my_filter req) (bids s)) in
  mkReply 200 true "Your bids retrieved successfully"
    (Some (mkPage found
             (mkPagination page (ceil_div total (Pos.to_nat limit)) total
                (bool_decide (skip + List.length found < total)%nat)
                (bool_decide (1 < Pos.to_nat page)%nat)))).

(** ** [GET /projects/open]

    [minBudget] and [maxBudget] are the query parameters after [parseFloat],
    absent when the query string is absent or empty. *)
Record OpenReq := mkOpenReq {
  open_page : option positive;
  open_limit : option positive;
  open_techStack : option TechStackField;
  open_minBudget : option Z;
  open_maxBudget : option Z
}.

(** [if (techStack)] and
    [{ $in: Array.isArray(techStack) ? techStack : [techStack] }] *)
Definition tech_wanted (q : option TechStackField) : option (list string) :=
  match q with
  | Some (TechArray l) => Some l
  | Some (TechValue v) =>
      if bool_decide (v = EmptyString) then None else Some [v]
  | None => None
  end.

Definition open_filter (req : OpenReq) (kv : ObjectId * Project.t) : Prop :=
  Project.status kv.2 = "open"
  ∧ match tech_wanted (open_techStack req) with
    | Some l => Exists (λ t, t ∈ l) (Project.techStack kv.2)
    | None => True
    end
  ∧ match open_minBudget req with
    | Some lo => (lo ≤ Project.estimatedBudget kv.2)%Z
    | None => True
    end
  ∧ match open_maxBudget req with
    | Some hi => (Project.estimatedBudget kv.2 ≤ hi)%Z
    | None => True
    end.

#[local] Instance open_filter_dec req kv : Decision (open_filter req kv).
Proof.
  unfold open_filter.
  destruct (tech_wanted (open_techStack req)), (open_minBudget req),
    (open_maxBudget req); apply _.
Defined.

(** [Project.find(filter).sort({ createdAt: -1 })] *)
Definition open_projects_sorted (req : OpenReq) (s : Store)
    : list (ObjectId * Project.t) :=
  sort_newest (map_to_list (filter (open_filter req) (projects s))).

Definition openProjects (req : OpenReq) (s : Store)
    : Reply (Page Project.t) :=
  let page := default 1%positive (open_page req) in
  let limit := default 10%positive (open_limit req) in
  let skip := ((Pos.to_nat page - 1) * Pos.to_nat limit)%nat in
  let found :=
    skip_limit skip (Pos.to_nat limit) (open_projects_sorted req s) in
  let total := size (filter (open_filter req) (projects s)) in
  mkReply 200 true "Open projects retrieved successfully"
    (Some (mkPage found
             (mkPagination page (ceil_div total (Pos.to_nat limit)) total
                (bool_decide (skip + List.length found < total)%nat)
                (bool_decide (1 < Pos.to_nat page)%nat)))).

(** ** [GET /projects/:id/bids] *)
Record ProjectBidsReq := mkProjectBidsReq {
  pb_user : ObjectId;                  (* req.user._id *)
  pb_role : string;                    (* req.user.role *)
  pb_id : ObjectId                     (* req.params.id *)
}.

(** The [data] of the response: [project.id], [project.title],
    [project.status], the bids and [totalBids]. *)
Record ProjectBids := mkProjectBids {
  pb_project_id : ObjectId;
  pb_project_title : string;
  pb_project_status : string;
  pb_bids : list (ObjectId * Bid.t);
  totalBids : nat
}.

Definition projectBids (req : ProjectBidsReq) (s : Store)
    : Reply ProjectBids :=
  let id := pb_id req in
  match projects s !! id with
  | None => reply_fail 404 "Project not found"
  | Some project =>
      if bool_decide (pb_role req = "user")
         && negb (bool_decide (Project.createdBy project = pb_user req))
      then reply_fail 403
             "Access denied. You can only view bids for your own projects"
      else
        let bids :=
          sort_newest
            (map_to_list (filter (λ kv, Bid.projectId kv.2 = id) (bids s))) in
        mkReply 200 true "Project bids retrieved successfully"
          (Some (mkProjectBids id (Project.title project)
                   (Project.status project) bids (List.length bids)))
  end.

End Listings.

Record ProjectBidsHttp := mkProjectBidsHttp {
  pbh_user : ObjectId;                 (* req.user._id *)
  pbh_role : string;                   (* req.user.role *)
  pbh_id : string                      (* req.params.id *)
}.

(** [GET /projects/:id/bids] on the parameter as sent, with the route's
    [try]/[catch]: [Project.findById(id)] throws a CastError when [id] does
    not cast. *)
Definition projectBids_http (cast : string → option ObjectId)
    (createdAt : ObjectId → Z) (req : ProjectBidsHttp) (s : Store)
    : Reply ProjectBids :=
  match cast (pbh_id req) with
  | None => reply_fail 500 "Failed to fetch bids"
  | Some id =>
      projectBids createdAt (mkProjectBidsReq (pbh_user req) (pbh_role req) id)
        s
  end.

(** ** [GET /projects/export]

    The projects of the requester, unsorted; [exportDate] and the download
    headers are left out. *)
Record ExportData := mkExportData {
  totalProjects : nat;
  export_projects : list (ObjectId * Project.t)
}.

Definition exportProjects (user : ObjectId) (s : Store) : ExportData :=
  let found :=
    map_to_list (filter (λ kv, Project.createdBy kv.2 = user) (projects s)) in
  mkExportData (List.length found) found.

(** The pages [1 .. n]. *)
Definition pages_upto (n : nat) : list positive :=
  Pos.of_succ_nat <$> seq 0 n.

(** A stamp for the worked scenario: the [_id]s grow with time. *)
Definition stamp (id : ObjectId) : Z := Z.of_N id.

(** The documents of a page response. *)
Definition items_of {A} (r : Reply (Page A)) : list (ObjectId * A) :=
  match reply_data r with
  | Some pg => page_items pg
  | None => []
  end.

(** The [pagination] of a page response. *)
Definition pagination_of {A} (r : Reply (Page A)) : option Pagination :=
  pagination <$> reply_data r.

(** The same [GET /bids/my] query, for page [n]. *)
Definition my_page_n (req : MyBidsReq) (n : positive) : MyBidsReq :=
  mkMyBidsReq (my_user req) (my_status req) (Some n) (my_limit req).

(** The same [GET /projects/open] query, for page [n]. *)
Definition open_page_n (req : OpenReq) (n : positive) : OpenReq :=
  mkOpenReq (Some n) (open_limit req) (open_techStack req)
    (open_minBudget req) (open_maxBudget req).
(** ** What the handlers compute, case by case *)

Ltac unfold_handler :=
  unfold placeBid, decideBid, try_catch, mbind, M_bind, mret, M_ret, throw,
    Bid_findById, populate_projectId, Project_findById, get_createdBy,
    Bid_findOne, Bid_insert, Bid_save, Project_findByIdAndUpdate,
    Bid_updateMany, set_bids, set_projects; simpl.

Lemma decideBid_invalid req s :
  body_status req ∉ ["accepted"; "rejected"] →
  decideBid req s =
    (s, json_fail 400 ("Status must be either " ++ dq ++ "accepted" ++ dq
                       ++ " or " ++ dq ++ "rejected" ++ dq)).
Proof. intros H. unfold_handler. by rewrite bool_decide_eq_false_2. Qed.

Lemma decideBid_not_found req s :
  body_status req ∈ ["accepted"; "rejected"] →
  bids s !! params_id req = None →
  decideBid req s = (s, json_fail 404 "Bid not found").
Proof.
  intros H Hb. unfold_handler. rewrite bool_decide_eq_true_2 by done.
  simpl. by rewrite Hb.
Qed.

Lemma decideBid_orphan req s b :
  body_status req ∈ ["accepted"; "rejected"] →
  bids s !! params_id req = Some b →
  projects s !! Bid.projectId b = None →
  decideBid req s = (s, json_fail 500 "Failed to update bid status").
Proof.
  intros H Hb Hp. unfold_handler. rewrite bool_decide_eq_true_2 by done.
  simpl. by rewrite Hb, Hp.
Qed.

Lemma decideBid_forbidden req s b p :
  body_status req ∈ ["accepted"; "rejected"] →
  bids s !! params_id req = Some b →
  projects s !! Bid.projectId b = Some p →
  Project.createdBy p ≠ status_user req →
  decideBid req s =
    (s, json_fail 403 "You can only update bids for your own projects").
Proof.
  intros H Hb Hp Ho. unfold_handler. rewrite bool_decide_eq_true_2 by done.
  simpl. rewrite Hb, Hp. simpl. by rewrite bool_decide_eq_false_2.
Qed.

Lemma decideBid_accepted req s b p :
  body_status req = "accepted" →
  bids s !! params_id req = Some b →
  projects s !! Bid.projectId b = Some p →
  Project.createdBy p = status_user req →
  decideBid req s =
    (accepted_store (params_id req) b s,
     json_ok 200 "Bid accepted successfully" (params_id req)
       (Bid.set_status "accepted" b)).
Proof.
  intros H Hb Hp Ho. unfold_handler. rewrite H. simpl.
  rewrite Hb, Hp. simpl. rewrite bool_decide_eq_true_2 by done. simpl.
  by rewrite Hb.
Qed.

Lemma decideBid_rejected req s b p :
  body_status req = "rejected" →
  bids s !! params_id req = Some b →
  projects s !! Bid.projectId b = Some p →
  Project.createdBy p = status_user req →
  decideBid req s =
    (rejected_store (params_id req) s,
     json_ok 200 "Bid rejected successfully" (params_id req)
       (Bid.set_status "rejected" b)).
Proof.
  intros H Hb Hp Ho. unfold_handler. rewrite H. simpl.
  rewrite Hb, Hp. simpl. rewrite bool_decide_eq_true_2 by done. simpl.
  by rewrite Hb.
Qed.

Lemma decideBid_cases req s :
  decide_case req s (decideBid req s).1 (decideBid req s).2.
Proof.
  destruct (decide (body_status req ∈ ["accepted"; "rejected"])) as [Hin|Hin];
    [|rewrite decideBid_invalid by done; by constructor].
  destruct (bids s !! params_id req) as [b|] eqn:Hb;
    [|rewrite decideBid_not_found by done; by constructor].
  destruct (projects s !! Bid.projectId b) as [p|] eqn:Hp;
    [|erewrite decideBid_orphan by done; by econstructor].
  destruct (decide (Project.createdBy p = status_user req)) as [Ho|Ho];
    [|erewrite decideBid_forbidden by done; by econstructor].
  apply elem_of_cons in Hin as [Hs|Hin].
  - erewrite decideBid_accepted by done. by econstructor.
  - apply list_elem_of_singleton in Hin.
    erewrite decideBid_rejected by done. by econstructor.
Qed.

(** *** [trim] *)

Lemma trimEnd_idemp s : trimEnd (trimEnd s) = trimEnd s.
Proof.
  induction s as [|c s IH]; [done|]. simpl.
  destruct (trimEnd s) as [|c' t] eqn:Ht.
  - destruct (is_ws c) eqn:Hc; simpl; [done|]. by rewrite Hc.
  - simpl in *. by rewrite IH.
Qed.

Lemma trimStart_head s :
  trimStart s = EmptyString ∨ ∃ c t, trimStart s = String c t ∧ is_ws c = false.
Proof.
  induction s as [|c s IH]; [by left|]. simpl.
  destruct (is_ws c) eqn:Hc; [done|]. right. by exists c, s.
Qed.

Lemma trimStart_trimEnd_fixed s :
  trimStart (trimEnd (trimStart s)) = trimEnd (trimStart s).
Proof.
  destruct (trimStart_head s) as [->|(c & t & -> & Hc)]; [done|].
  assert (∃ t', trimEnd (String c t) = String c t') as [t' ->].
  { cbn [trimEnd]. destruct (trimEnd t); rewrite ?Hc; eauto. }
  cbn [trimStart]. by rewrite Hc.
Qed.

Lemma trim_idemp s : trim (trim s) = trim s.
Proof. unfold trim. by rewrite trimStart_trimEnd_fixed, trimEnd_idemp. Qed.

(** A request that passed [validateBid] builds a bid that passes the schema
    validators. *)
Lemma validateBid_Bid_validate req pid dev :
  validateBid req = [] →
  Bid_validate (Bid_new pid dev (body_bidAmount req) (trim (body_message req))
                  (body_estimatedDelivery req)) = true.
Proof.
  intros Hv. unfold validateBid in Hv. apply app_eq_nil in Hv as [Ha Hm].
  cbv zeta in Hm. unfold Bid_validate, Bid_new.
  cbn [Bid.bidAmount Bid.message Bid.status]. rewrite trim_idemp.
  destruct (0 <=? body_bidAmount req)%Z; [|done].
  destruct (trim (body_message req)) as [|c t] eqn:Ht; [done|].
  rewrite bool_decide_eq_false_2 by done.
  destruct (String.length (String c t) <=? 500)%nat;
    [|by rewrite andb_false_r in Hm].
  by rewrite bool_decide_eq_true_2 by (unfold Bid.status_enum; set_solver).
Qed.

(** *** [Bid.findOne] and the unique index *)

Lemma filter_pair_empty (m : gmap ObjectId Bid.t) pid dev :
  filter (λ kv, Bid.projectId kv.2 = pid ∧ Bid.developerId kv.2 = dev) m = ∅
  ↔ ∀ k b, m !! k = Some b →
           ¬ (Bid.projectId b = pid ∧ Bid.developerId b = dev).
Proof. rewrite map_empty_filter. apply map_Forall_lookup. Qed.

Lemma findOne_None (m : gmap ObjectId Bid.t) pid dev :
  head (map_to_list
    (filter (λ kv, Bid.projectId kv.2 = pid ∧ Bid.developerId kv.2 = dev) m))
  = None
  ↔ ∀ k b, m !! k = Some b →
           ¬ (Bid.projectId b = pid ∧ Bid.developerId b = dev).
Proof. by rewrite head_None, map_to_list_empty_iff, filter_pair_empty. Qed.

(** *** [placeBid], case by case *)

Lemma placeBid_invalid oid req s :
  validateBid req ≠ [] →
  placeBid oid req s = (s, json_fail 400 "Validation failed").
Proof. intros H. unfold_handler. by rewrite bool_decide_eq_false_2. Qed.

Lemma placeBid_not_found oid req s :
  validateBid req = [] →
  projects s !! body_projectId req = None →
  placeBid oid req s = (s, json_fail 404 "Project not found").
Proof.
  intros H Hp. unfold_handler. rewrite bool_decide_eq_true_2 by done.
  simpl. by rewrite Hp.
Qed.

Lemma placeBid_not_open oid req s p :
  validateBid req = [] →
  projects s !! body_projectId req = Some p →
  Project.status p ≠ "open" →
  placeBid oid req s = (s, json_fail 400 "Project is not open for bidding").
Proof.
  intros H Hp Hs. unfold_handler. rewrite bool_decide_eq_true_2 by done.
  simpl. rewrite Hp. by rewrite bool_decide_eq_false_2.
Qed.

Lemma placeBid_conflict oid req s p k b :
  validateBid req = [] →
  projects s !! body_projectId req = Some p →
  Project.status p = "open" →
  bids s !! k = Some b →
  Bid.projectId b = body_projectId req →
  Bid.developerId b = place_user req →
  placeBid oid req s =
    (s, json_fail 409 "You have already placed a bid on this project").
Proof.
  intros H Hp Hs Hb Hpid Hdev. unfold_handler.
  rewrite bool_decide_eq_true_2 by done. simpl. rewrite Hp.
  rewrite bool_decide_eq_true_2 by done. simpl.
  destruct (head _) as [kv|] eqn:Hh; [done|].
  pose proof (proj1 (findOne_None _ _ _) Hh) as Hnone.
  by destruct (Hnone k b Hb).
Qed.

Lemma placeBid_created oid req s p :
  validateBid req = [] →
  projects s !! body_projectId req = Some p →
  Project.status p = "open" →
  (∀ k b, bids s !! k = Some b →
          ¬ (Bid.projectId b = body_projectId req
             ∧ Bid.developerId b = place_user req)) →
  bids s !! oid = None →
  placeBid oid req s =
    (mkStore (projects s) (<[oid := placed_bid req]> (bids s)),
     json_ok 201 "Bid placed successfully" oid (placed_bid req)).
Proof.
  intros H Hp Hs Hnone Hfresh. unfold_handler.
  rewrite bool_decide_eq_true_2 by done. simpl. rewrite Hp.
  rewrite bool_decide_eq_true_2 by done. simpl.
  rewrite (proj2 (findOne_None _ _ _) Hnone).
  rewrite validateBid_Bid_validate by done. simpl.
  rewrite Hfresh. rewrite bool_decide_eq_false_2 by (by intros []).
  rewrite bool_decide_eq_true_2; [done|]. by apply filter_pair_empty.
Qed.

(** The generated [_id] collides with a stored bid: the insert fails and the
    handler answers 500. *)
Lemma placeBid_id_taken oid req s p :
  validateBid req = [] →
  projects s !! body_projectId req = Some p →
  Project.status p = "open" →
  (∀ k b, bids s !! k = Some b →
          ¬ (Bid.projectId b = body_projectId req
             ∧ Bid.developerId b = place_user req)) →
  is_Some (bids s !! oid) →
  placeBid oid req s = (s, json_fail 500 "Failed to place bid").
Proof.
  intros H Hp Hs Hnone Htaken. unfold_handler.
  rewrite bool_decide_eq_true_2 by done. simpl. rewrite Hp.
  rewrite bool_decide_eq_true_2 by done. simpl.
  rewrite (proj2 (findOne_None _ _ _) Hnone).
  rewrite validateBid_Bid_validate by done. simpl.
  by rewrite bool_decide_eq_true_2.
Qed.

(** *** The stores after a decision *)

Lemma reject_pending_sibling_status pid id k b :
  Bid.status (reject_pending_sibling pid id k b) =
    if bool_decide (Bid.projectId b = pid ∧ k ≠ id ∧ Bid.status b = "pending")
    then "rejected" else Bid.status b.
Proof. unfold reject_pending_sibling. by case_bool_decide. Qed.

Lemma reject_pending_sibling_projectId pid id k b :
  Bid.projectId (reject_pending_sibling pid id k b) = Bid.projectId b.
Proof. unfold reject_pending_sibling. by case_bool_decide. Qed.

Lemma reject_pending_sibling_keeps pid id k b :
  Bid.status b ≠ "pending" → reject_pending_sibling pid id k b = b.
Proof.
  intros H. unfold reject_pending_sibling.
  rewrite bool_decide_eq_false_2; [done|]. by intros (_ & _ & ?).
Qed.

Lemma reject_pending_sibling_idemp pid id k b :
  reject_pending_sibling pid id k (reject_pending_sibling pid id k b)
  = reject_pending_sibling pid id k b.
Proof.
  unfold reject_pending_sibling at 2 3. case_bool_decide as Hc.
  - by rewrite reject_pending_sibling_keeps.
  - unfold reject_pending_sibling. by rewrite bool_decide_eq_false_2.
Qed.

Lemma accepted_store_self id b s :
  bids s !! id = Some b →
  bids (accepted_store id b s) !! id = Some (Bid.set_status "accepted" b).
Proof.
  intros Hb. unfold accepted_store. simpl.
  rewrite map_lookup_imap, lookup_alter_eq, Hb. simpl.
  unfold reject_pending_sibling. rewrite bool_decide_eq_false_2; [done|].
  by intros (_ & ? & _).
Qed.

Lemma accepted_store_other id b s k :
  k ≠ id →
  bids (accepted_store id b s) !! k =
    reject_pending_sibling (Bid.projectId b) id k <$> bids s !! k.
Proof.
  intros Hk. unfold accepted_store. simpl.
  rewrite map_lookup_imap, lookup_alter_ne by done.
  by destruct (bids s !! k).
Qed.

Lemma accepted_store_project id b s p :
  projects s !! Bid.projectId b = Some p →
  projects (accepted_store id b s) !! Bid.projectId b =
    Some (Project.update "in progress" (Bid.developerId b) p).
Proof. intros Hp. unfold accepted_store. simpl. by rewrite lookup_alter_eq, Hp. Qed.

Lemma accepted_store_project_other id b s q :
  q ≠ Bid.projectId b →
  projects (accepted_store id b s) !! q = projects s !! q.
Proof. intros Hq. unfold accepted_store. simpl. by rewrite lookup_alter_ne. Qed.

Lemma rejected_store_self id b s :
  bids s !! id = Some b →
  bids (rejected_store id s) !! id = Some (Bid.set_status "rejected" b).
Proof. intros Hb. unfold rejected_store. simpl. by rewrite lookup_alter_eq, Hb. Qed.

Lemma rejected_store_other id s k :
  k ≠ id → bids (rejected_store id s) !! k = bids s !! k.
Proof. intros Hk. unfold rejected_store. simpl. by rewrite lookup_alter_ne. Qed.

(** Accepting the bid that was just accepted rewrites the same store. *)
Lemma accepted_store_idemp id b s :
  bids s !! id = Some b →
  accepted_store id (Bid.set_status "accepted" b) (accepted_store id b s)
  = accepted_store id b s.
Proof.
  intros Hb. set (s' := accepted_store id b s).
  assert (alter (Project.update "in progress" (Bid.developerId b))
            (Bid.projectId b) (projects s') = projects s') as Hprojects.
  { apply map_eq. intros q. subst s'. unfold accepted_store. cbn [projects].
    destruct (decide (q = Bid.projectId b)) as [->|Hq].
    - rewrite !lookup_alter_eq. by destruct (projects s !! Bid.projectId b).
    - by rewrite !lookup_alter_ne. }
  assert (map_imap
            (λ k b', Some (reject_pending_sibling (Bid.projectId b) id k b'))
            (alter (Bid.set_status "accepted") id (bids s')) = bids s')
    as Hbids.
  { apply map_eq. intros k. rewrite map_lookup_imap. subst s'.
    destruct (decide (k = id)) as [->|Hk].
    - rewrite lookup_alter_eq, accepted_store_self by done. simpl.
      unfold reject_pending_sibling. rewrite bool_decide_eq_false_2; [done|].
      by intros (_ & ? & _).
    - rewrite lookup_alter_ne, accepted_store_other by done.
      destruct (bids s !! k) as [b'|]; [simpl|done].
      by rewrite reject_pending_sibling_idemp. }
  unfold accepted_store at 1.
  cbn [Bid.set_status Bid.projectId Bid.developerId].
  rewrite Hprojects, Hbids. by destruct s'.
Qed.

(** ** The award workflow, one call *)

Lemma pending_not_decided : "pending" ∉ ["accepted"; "rejected"].
Proof.
  intros H. repeat (apply elem_of_cons in H as [H|H]; [discriminate|]).
  by apply elem_of_nil in H.
Qed.

(** C3. When the requester owns project P and P holds the pending bids B1,
    B2 and B3, [decideBid(B1, owner, accept)] answers 200 and leaves B1
    accepted, B2 and B3 rejected, P in progress and assigned to B1's
    developer; every other bid that was already accepted or rejected is
    left as it was. *)
Theorem accept_cascades_to_pending_siblings s req i2 i3 b1 b2 b3 p :
  body_status req = "accepted" →
  params_id req ≠ i2 → params_id req ≠ i3 → i2 ≠ i3 →
  bids s !! params_id req = Some b1 →
  bids s !! i2 = Some b2 →
  bids s !! i3 = Some b3 →
  Bid.status b1 = "pending" →
  Bid.status b2 = "pending" →
  Bid.status b3 = "pending" →
  Bid.projectId b2 = Bid.projectId b1 →
  Bid.projectId b3 = Bid.projectId b1 →
  projects s !! Bid.projectId b1 = Some p →
  Project.createdBy p = status_user req →
  let s' := (decideBid req s).1 in
  statusCode (decideBid req s).2 = 200%Z
  ∧ bids s' !! params_id req = Some (Bid.set_status "accepted" b1)
  ∧ bids s' !! i2 = Some (Bid.set_status "rejected" b2)
  ∧ bids s' !! i3 = Some (Bid.set_status "rejected" b3)
  ∧ projects s' !! Bid.projectId b1
      = Some (Project.update "in progress" (Bid.developerId b1) p)
  ∧ ∀ k b, k ≠ params_id req → bids s !! k = Some b →
           Bid.status b ∈ ["accepted"; "rejected"] →
           bids s' !! k = Some b.
Proof.
  intros Hst H12 H13 H23 Hb1 Hb2 Hb3 Hp1 Hp2 Hp3 Hpid2 Hpid3 Hp Ho s'.
  subst s'. erewrite decideBid_accepted by done. cbn [fst snd].
  assert (∀ k b, k ≠ params_id req → bids s !! k = Some b →
                 Bid.projectId b = Bid.projectId b1 →
                 Bid.status b = "pending" →
                 bids (accepted_store (params_id req) b1 s) !! k
                 = Some (Bid.set_status "rejected" b)) as Hsib.
  { intros k b Hk Hb Hpid Hpend. rewrite accepted_store_other, Hb by done.
    simpl. unfold reject_pending_sibling. by rewrite bool_decide_eq_true_2. }
  split_and!.
  - done.
  - by apply accepted_store_self.
  - by apply Hsib.
  - by apply Hsib.
  - by apply accepted_store_project.
  - intros k b Hk Hb Hterm. rewrite accepted_store_other, Hb by done.
    simpl. f_equal. apply reject_pending_sibling_keeps.
    intros Hpend. rewrite Hpend in Hterm. by apply pending_not_decided in Hterm.
Qed.

Lemma accept_cascades_to_pending_siblings_witness :
  statusCode (decideBid (accept 10 100) store_bids).2 = 200%Z
  ∧ Bid.status <$> bids store_awarded !! 100%N = Some "accepted"
  ∧ Bid.status <$> bids store_awarded !! 101%N = Some "rejected"
  ∧ Bid.status <$> bids store_awarded !! 102%N = Some "rejected"
  ∧ Project.status <$> projects store_awarded !! 1%N = Some "in progress"
  ∧ Project.assignedTo <$> projects store_awarded !! 1%N = Some (Some 20%N).
Proof.
  destruct (accept_cascades_to_pending_siblings store_bids (accept 10 100)
              101 102 (placed_bid (bid_of 20 4500))
              (placed_bid (bid_of 21 4000)) (placed_bid (bid_of 22 4200))
              shop)
    as (H200 & H1 & H2 & H3 & Hp & _);
    try (vm_compute; congruence).
  split_and!.
  - exact H200.
  - exact (f_equal (fmap Bid.status) H1).
  - exact (f_equal (fmap Bid.status) H2).
  - exact (f_equal (fmap Bid.status) H3).
  - exact (f_equal (fmap Project.status) Hp).
  - exact (f_equal (fmap Project.assignedTo) Hp).
Defined.

(** C7. When the owner rejects a pending bid, [decideBid] answers 200 and
    sets that bid's status to rejected; the projects collection and every
    other bid are the same after the call. *)
Theorem reject_changes_only_the_bid s req b p :
  body_status req = "rejected" →
  bids s !! params_id req = Some b →
  Bid.status b = "pending" →
  projects s !! Bid.projectId b = Some p →
  Project.createdBy p = status_user req →
  let s' := (decideBid req s).1 in
  statusCode (decideBid req s).2 = 200%Z
  ∧ bids s' !! params_id req = Some (Bid.set_status "rejected" b)
  ∧ projects s' = projects s
  ∧ ∀ k, k ≠ params_id req → bids s' !! k = bids s !! k.
Proof.
  intros Hst Hb Hpend Hp Ho s'. subst s'.
  erewrite decideBid_rejected by done. cbn [fst snd]. split_and!.
  - done.
  - by apply rejected_store_self.
  - done.
  - intros k Hk. by apply rejected_store_other.
Qed.

Lemma reject_changes_only_the_bid_witness :
  Bid.status <$> bids (decideBid (reject 10 101) store_bids).1 !! 101%N
    = Some "rejected"
  ∧ projects (decideBid (reject 10 101) store_bids).1 = projects store_bids
  ∧ bids (decideBid (reject 10 101) store_bids).1 !! 100%N
    = bids store_bids !! 100%N.
Proof.
  destruct (reject_changes_only_the_bid store_bids (reject 10 101)
              (placed_bid (bid_of 21 4000)) shop)
    as (_ & H1 & Hp & Hk); try (vm_compute; congruence).
  split_and!.
  - exact (f_equal (fmap Bid.status) H1).
  - exact Hp.
  - apply Hk. discriminate.
Defined.

(** C9. Accepting again the bid that a successful [decideBid(accept)] has
    just accepted gives the same store and the same response: the bid, its
    project and all other bids are as after the first call. *)
Theorem accept_again_same_state s req :
  body_status req = "accepted" →
  statusCode (decideBid req s).2 = 200%Z →
  decideBid req (decideBid req s).1 = decideBid req s.
Proof.
  intros Hst H200.
  destruct (decideBid_cases req s) as [ | | | |b p _ Hb Hp Ho|b p Hrej];
    try done; [|congruence].
  erewrite (decideBid_accepted req s) by done. cbn [fst].
  rewrite (decideBid_accepted req _ (Bid.set_status "accepted" b)
             (Project.update "in progress" (Bid.developerId b) p)).
  - rewrite accepted_store_idemp by done. by destruct b.
  - done.
  - by apply accepted_store_self.
  - exact (accepted_store_project _ _ _ _ Hp).
  - done.
Qed.

Lemma accept_again_same_state_witness :
  decideBid (accept 10 100) store_awarded
  = decideBid (accept 10 100) store_bids.
Proof.
  unfold store_awarded. apply accept_again_same_state; by vm_compute.
Defined.

(** C5, as stated, fails: in the store reached by accepting bid 100 (which
    rejected bid 101), the owner's [reject] turns the accepted bid 100 into a
    rejected one, and the owner's [accept] turns the rejected bid 101 into an
    accepted one. *)
Lemma decided_bid_is_overwritten :
  reachable store_awarded
  ∧ Bid.status <$> bids store_awarded !! 100%N = Some "accepted"
  ∧ Bid.status <$> bids (decideBid (reject 10 100) store_awarded).1 !! 100%N
    = Some "rejected"
  ∧ Bid.status <$> bids store_awarded !! 101%N = Some "rejected"
  ∧ Bid.status <$> bids (decideBid (accept 10 101) store_awarded).1 !! 101%N
    = Some "accepted".
Proof.
  split; [|by vm_compute].
  apply (reachable_step _ (OpDecideBid (accept 10 100))).
  apply (reachable_step _ (OpPlaceBid 102 (bid_of 22 4200))).
  apply (reachable_step _ (OpPlaceBid 101 (bid_of 21 4000))).
  apply (reachable_step _ (OpPlaceBid 100 (bid_of 20 4500))).
  by apply reachable_init.
Qed.

(** C5, amended. A bid that is accepted or rejected is left as it is by every
    [decideBid] call on another bid; a successful [decideBid] call on the bid
    itself sets its status to the requested one, whatever it was. *)
Theorem decided_bid_kept_by_other_decisions s req k b :
  bids s !! k = Some b →
  Bid.status b ∈ ["accepted"; "rejected"] →
  (params_id req ≠ k → bids (decideBid req s).1 !! k = Some b)
  ∧ (params_id req = k → statusCode (decideBid req s).2 = 200%Z →
     bids (decideBid req s).1 !! k
     = Some (Bid.set_status (body_status req) b)).
Proof.
  intros Hb Hterm.
  assert (Bid.status b ≠ "pending") as Hpend.
  { intros Heq. rewrite Heq in Hterm. by apply pending_not_decided in Hterm. }
  destruct (decideBid_cases req s)
    as [ | | | |b1 p Hst Hb1 Hp Ho|b1 p Hst Hb1 Hp Ho]; try done.
  - split.
    + intros Hk. rewrite accepted_store_other, Hb by done. simpl.
      by rewrite reject_pending_sibling_keeps.
    + intros <- _. rewrite Hst. rewrite Hb in Hb1. injection Hb1 as <-.
      by apply accepted_store_self.
  - split.
    + intros Hk. by rewrite rejected_store_other.
    + intros <- _. rewrite Hst. by apply rejected_store_self.
Qed.

Lemma decided_bid_kept_by_other_decisions_witness :
  bids (decideBid (accept 10 101) store_awarded).1 !! 100%N
  = bids store_awarded !! 100%N.
Proof.
  destruct (decided_bid_kept_by_other_decisions store_awarded (accept 10 101)
              100 (Bid.set_status "accepted" (placed_bid (bid_of 20 4500))))
    as [Hother _].
  - by vm_compute.
  - vm_compute. apply list_elem_of_here.
  - rewrite Hother by discriminate. by vm_compute.
Defined.

(** C6, as stated, fails: for a bid whose project is not in the store the
    handler does not answer 403; the read of [createdBy] on the missing
    project throws, and the catch-all answers 500. *)
Lemma orphan_bid_is_not_forbidden :
  body_status (accept 10 100) ∈ ["accepted"; "rejected"]
  ∧ bids store_orphan !! params_id (accept 10 100) = Some orphan_bid
  ∧ projects store_orphan !! Bid.projectId orphan_bid = None
  ∧ statusCode (decideBid (accept 10 100) store_orphan).2 = 500%Z
  ∧ statusCode (decideBid (accept 10 100) store_orphan).2 ≠ 403%Z.
Proof. split; [apply list_elem_of_here|]. by vm_compute. Qed.

(** C6, amended. For a valid decision on an existing bid: when the bid's
    project exists and is owned by someone else, the call answers 403; when
    the project does not exist, the call fails with 500; in both cases the
    store is unchanged. *)
Theorem not_owner_changes_nothing s req b :
  body_status req ∈ ["accepted"; "rejected"] →
  bids s !! params_id req = Some b →
  (∀ p, projects s !! Bid.projectId b = Some p →
        Project.createdBy p ≠ status_user req) →
  (decideBid req s).1 = s
  ∧ (is_Some (projects s !! Bid.projectId b) →
     (decideBid req s).2
     = json_fail 403 "You can only update bids for your own projects")
  ∧ (projects s !! Bid.projectId b = None →
     (decideBid req s).2 = json_fail 500 "Failed to update bid status").
Proof.
  intros Hst Hb Hnot.
  destruct (projects s !! Bid.projectId b) as [p|] eqn:Hp.
  - erewrite decideBid_forbidden by eauto. split_and!; done.
  - erewrite decideBid_orphan by eauto. split_and!; [done| |done].
    by intros [? ?].
Qed.

Lemma not_owner_changes_nothing_witness :
  (decideBid (accept 11 100) store_bids).1 = store_bids
  ∧ statusCode (decideBid (accept 11 100) store_bids).2 = 403%Z
  ∧ (decideBid (reject 10 100) store_orphan).1 = store_orphan
  ∧ statusCode (decideBid (reject 10 100) store_orphan).2 = 500%Z.
Proof.
  destruct (not_owner_changes_nothing store_bids (accept 11 100)
              (placed_bid (bid_of 20 4500)))
    as (Hs & H403 & _).
  { apply list_elem_of_here. }
  { by vm_compute. }
  { intros p Hp. vm_compute in Hp. injection Hp as <-. discriminate. }
  destruct (not_owner_changes_nothing store_orphan (reject 10 100) orphan_bid)
    as (Hs' & _ & H500).
  { apply list_elem_of_further, list_elem_of_here. }
  { by vm_compute. }
  { intros p Hp. vm_compute in Hp. discriminate. }
  split_and!.
  - exact Hs.
  - rewrite H403; [done|]. eexists. by vm_compute.
  - exact Hs'.
  - rewrite H500; [done|]. by vm_compute.
Defined.

(** ** Bid placement *)

(** C8. For a request that passed validation, [placeBid] answers 404 when
    the project is missing, 400 when the project is not open, and 409 when
    the open project already has a bid of this developer; in these three
    cases the store is unchanged. Otherwise it answers 201 and the store
    gains exactly one bid, under the new [_id], with status pending. *)
Theorem placeBid_outcomes s oid req :
  validateBid req = [] →
  (projects s !! body_projectId req = None →
   placeBid oid req s = (s, json_fail 404 "Project not found"))
  ∧ (∀ p, projects s !! body_projectId req = Some p →
          Project.status p ≠ "open" →
          placeBid oid req s
          = (s, json_fail 400 "Project is not open for bidding"))
  ∧ (∀ p k b, projects s !! body_projectId req = Some p →
              Project.status p = "open" →
              bids s !! k = Some b →
              Bid.projectId b = body_projectId req →
              Bid.developerId b = place_user req →
              placeBid oid req s
              = (s, json_fail 409
                      "You have already placed a bid on this project"))
  ∧ (∀ p, projects s !! body_projectId req = Some p →
          Project.status p = "open" →
          (∀ k b, bids s !! k = Some b →
                  ¬ (Bid.projectId b = body_projectId req
                     ∧ Bid.developerId b = place_user req)) →
          bids s !! oid = None →
          let s' := (placeBid oid req s).1 in
          statusCode (placeBid oid req s).2 = 201%Z
          ∧ projects s' = projects s
          ∧ bids s' = <[oid := placed_bid req]> (bids s)
          ∧ size (bids s') = S (size (bids s))
          ∧ Bid.status (placed_bid req) = "pending"
          ∧ Bid.projectId (placed_bid req) = body_projectId req
          ∧ Bid.developerId (placed_bid req) = place_user req).
Proof.
  intros Hv. split_and!.
  - intros Hp. by apply placeBid_not_found.
  - intros p Hp Hs. by eapply placeBid_not_open.
  - intros p k b Hp Hs Hb Hpid Hdev. by eapply placeBid_conflict.
  - intros p Hp Hs Hnone Hfresh s'. subst s'.
    erewrite placeBid_created by done. cbn [fst snd projects bids].
    split_and!; try done. by apply map_size_insert_None.
Qed.

Lemma placeBid_outcomes_witness :
  placeBid 103 (mkPlaceReq 23 2 4500 "I can deliver this project" None)
    store_bids
  = (store_bids, json_fail 404 "Project not found")
  ∧ placeBid 103 (bid_of 23 4500) store_awarded
    = (store_awarded, json_fail 400 "Project is not open for bidding")
  ∧ placeBid 103 (bid_of 21 3900) store_bids
    = (store_bids,
       json_fail 409 "You have already placed a bid on this project")
  ∧ statusCode (placeBid 103 (bid_of 23 4500) store_bids).2 = 201%Z
  ∧ size (bids (placeBid 103 (bid_of 23 4500) store_bids).1)
    = S (size (bids store_bids)).
Proof.
  split_and!.
  - by apply (placeBid_outcomes store_bids 103
                (mkPlaceReq 23 2 4500 "I can deliver this project" None)).
  - apply (placeBid_outcomes store_awarded 103 (bid_of 23 4500) eq_refl)
      with (p := Project.update "in progress" 20 shop); by vm_compute.
  - apply (placeBid_outcomes store_bids 103 (bid_of 21 3900) eq_refl)
      with (p := shop) (k := 101%N) (b := placed_bid (bid_of 21 4000));
      by vm_compute.
  - apply (placeBid_outcomes store_bids 103 (bid_of 23 4500) eq_refl)
      with (p := shop); try by vm_compute.
    apply filter_pair_empty. by vm_compute.
  - apply (placeBid_outcomes store_bids 103 (bid_of 23 4500) eq_refl)
      with (p := shop); try by vm_compute.
    apply filter_pair_empty. by vm_compute.
Defined.

(** C10. In [placeBid] the project's status is checked before the duplicate
    bid: when the developer already has a bid on a project that is not open,
    the call answers 400 (project not open), not 409; and a 409 is only ever
    answered for a project that exists and is open. *)
Theorem placeBid_status_before_duplicate :
  (∀ s oid req p k b,
     validateBid req = [] →
     projects s !! body_projectId req = Some p →
     Project.status p ≠ "open" →
     bids s !! k = Some b →
     Bid.projectId b = body_projectId req →
     Bid.developerId b = place_user req →
     placeBid oid req s
     = (s, json_fail 400 "Project is not open for bidding"))
  ∧ (∀ s oid req,
       statusCode (placeBid oid req s).2 = 409%Z →
       ∃ p, projects s !! body_projectId req = Some p
            ∧ Project.status p = "open").
Proof.
  split.
  - intros s oid req p k b Hv Hp Hs _ _ _. by eapply placeBid_not_open.
  - intros s oid req.
    destruct (decide (validateBid req = [])) as [Hv|Hv];
      [|by rewrite placeBid_invalid].
    destruct (projects s !! body_projectId req) as [p|] eqn:Hp;
      [|by rewrite placeBid_not_found].
    destruct (decide (Project.status p = "open")) as [Hs|Hs];
      [|by erewrite placeBid_not_open].
    intros _. by exists p.
Qed.

Lemma placeBid_status_before_duplicate_witness :
  placeBid 103 (bid_of 21 3900) store_awarded
  = (store_awarded, json_fail 400 "Project is not open for bidding")
  ∧ ∃ p, projects store_bids !! 1%N = Some p ∧ Project.status p = "open".
Proof.
  destruct placeBid_status_before_duplicate as [Hfirst Honly]. split.
  - apply Hfirst with (p := Project.update "in progress" 20 shop)
                      (k := 101%N)
                      (b := Bid.set_status "rejected"
                              (placed_bid (bid_of 21 4000)));
      by vm_compute.
  - apply (Honly store_bids 103%N (bid_of 21 3900)). by vm_compute.
Defined.

(** ** The cross-entity invariant over sequences of operations *)

Lemma store_awarded_reachable : reachable store_awarded.
Proof.
  apply (reachable_step _ (OpDecideBid (accept 10 100))).
  apply (reachable_step _ (OpPlaceBid 102 (bid_of 22 4200))).
  apply (reachable_step _ (OpPlaceBid 101 (bid_of 21 4000))).
  apply (reachable_step _ (OpPlaceBid 100 (bid_of 20 4500))).
  by apply reachable_init.
Qed.

Lemma store_two_awards_reachable : reachable store_two_awards.
Proof.
  apply (reachable_step _ (OpDecideBid (accept 10 101))).
  apply store_awarded_reachable.
Qed.

(** C1, as stated, fails: after the owner accepts bid 100 and then bid 101
    of the same project, both calls answer 200 and both bids are
    accepted. *)
Lemma two_accepted_bids_reachable :
  reachable store_two_awards
  ∧ statusCode (decideBid (accept 10 100) store_bids).2 = 200%Z
  ∧ statusCode (decideBid (accept 10 101) store_awarded).2 = 200%Z
  ∧ ¬ at_most_one_accepted store_two_awards.
Proof.
  split; [apply store_two_awards_reachable|].
  split; [by vm_compute|]. split; [by vm_compute|].
  intros Hone.
  assert (100%N = 101%N) as Heq; [|discriminate Heq].
  eapply Hone; by vm_compute.
Qed.

(** C2, as stated, fails: after the owner accepts bid 100 and then bid 101,
    bid 100 (of developer 20) is still accepted while the project is
    assigned to developer 21. *)
Lemma accepted_bid_not_assigned_reachable :
  reachable store_two_awards
  ∧ Bid.status <$> bids store_two_awards !! 100%N = Some "accepted"
  ∧ Bid.developerId <$> bids store_two_awards !! 100%N = Some 20%N
  ∧ Project.assignedTo <$> projects store_two_awards !! 1%N
    = Some (Some 21%N)
  ∧ ¬ accepted_is_assigned store_two_awards.
Proof.
  split; [apply store_two_awards_reachable|].
  do 3 (split; [by vm_compute|]).
  intros Has.
  destruct (Has 100%N (Bid.set_status "accepted" (placed_bid (bid_of 20 4500))))
    as (p & Hp & _ & Hdev); [by vm_compute..|].
  vm_compute in Hp. injection Hp as <-. discriminate Hdev.
Qed.

Lemma placeBid_cases oid req s :
  (placeBid oid req s).1 = s
  ∨ ∃ p, projects s !! body_projectId req = Some p
         ∧ Project.status p = "open"
         ∧ bids s !! oid = None
         ∧ (placeBid oid req s).1
           = mkStore (projects s) (<[oid := placed_bid req]> (bids s)).
Proof.
  destruct (decide (validateBid req = [])) as [Hv|Hv];
    [|left; by rewrite placeBid_invalid].
  destruct (projects s !! body_projectId req) as [p|] eqn:Hp;
    [|left; by rewrite placeBid_not_found].
  destruct (decide (Project.status p = "open")) as [Hs|Hs];
    [|left; by erewrite placeBid_not_open].
  destruct (decide (filter (λ kv, Bid.projectId kv.2 = body_projectId req
                                  ∧ Bid.developerId kv.2 = place_user req)
                           (bids s) = ∅)) as [Hnone|Hsome].
  - pose proof (proj1 (filter_pair_empty _ _ _) Hnone) as Hno.
    destruct (bids s !! oid) as [b|] eqn:Hoid.
    + left. by erewrite placeBid_id_taken.
    + right. exists p. by erewrite placeBid_created.
  - left. apply map_choose in Hsome as (k & b & Hkb).
    apply map_lookup_filter_Some in Hkb as (Hb & Hpid & Hdev).
    by rewrite (placeBid_conflict oid req s p k b).
Qed.

Lemma accepted_store_lookup id b s k b' :
  bids s !! id = Some b →
  bids (accepted_store id b s) !! k = Some b' →
  (k = id ∧ b' = Bid.set_status "accepted" b)
  ∨ (k ≠ id ∧ ∃ b0, bids s !! k = Some b0
                    ∧ b' = reject_pending_sibling (Bid.projectId b) id k b0).
Proof.
  intros Hb. destruct (decide (k = id)) as [->|Hk].
  - rewrite accepted_store_self by done. intros [= <-]. by left.
  - rewrite accepted_store_other by done.
    destruct (bids s !! k) as [b0|]; [|done]. intros [= <-].
    right. eauto.
Qed.

Lemma rejected_store_lookup id b s k b' :
  bids s !! id = Some b →
  bids (rejected_store id s) !! k = Some b' →
  (k = id ∧ b' = Bid.set_status "rejected" b)
  ∨ (k ≠ id ∧ bids s !! k = Some b').
Proof.
  intros Hb. destruct (decide (k = id)) as [->|Hk].
  - rewrite (rejected_store_self _ b) by done. intros [= <-]. by left.
  - rewrite rejected_store_other by done. by right.
Qed.

(** A bid that is accepted after the cascade was accepted before it. *)
Lemma reject_pending_sibling_accepted pid id k b :
  Bid.status (reject_pending_sibling pid id k b) = "accepted" →
  reject_pending_sibling pid id k b = b.
Proof.
  unfold reject_pending_sibling. by case_bool_decide.
Qed.

(** The cascade makes no bid pending. *)
Lemma reject_pending_sibling_pending pid id k b :
  Bid.status (reject_pending_sibling pid id k b) = "pending" →
  reject_pending_sibling pid id k b = b ∧ (Bid.projectId b = pid → k = id).
Proof.
  unfold reject_pending_sibling. case_bool_decide as Hc; [done|].
  intros Hpend. split; [done|]. intros Hpid.
  destruct (decide (k = id)) as [|Hk]; [done|]. by destruct Hc.
Qed.

Lemma award_inv_init s : bids s = ∅ → award_inv s.
Proof.
  intros Hempty. split_and!.
  - intros k1 k2 b1 b2 Hb1. by rewrite Hempty in Hb1.
  - intros k b Hb. by rewrite Hempty in Hb.
  - intros k1 k2 b1 b2 Hb1. by rewrite Hempty in Hb1.
Qed.

Lemma award_inv_placed s oid nb p :
  award_inv s →
  bids s !! oid = None →
  Bid.status nb = "pending" →
  projects s !! Bid.projectId nb = Some p →
  Project.status p = "open" →
  award_inv (mkStore (projects s) (<[oid := nb]> (bids s))).
Proof.
  intros (Hone & Has & Hnp) Hfresh Hpend Hp Hopen. split_and!.
  - intros k1 k2 b1 b2 Hb1 Hb2 Hpid Ha1 Ha2. cbn [bids] in *.
    apply lookup_insert_Some in Hb1 as [[<- <-]|[Hk1 Hb1]]; [congruence|].
    apply lookup_insert_Some in Hb2 as [[<- <-]|[Hk2 Hb2]]; [congruence|].
    by eapply Hone.
  - intros k b Hb Ha. cbn [bids projects] in *.
    apply lookup_insert_Some in Hb as [[<- <-]|[Hk Hb]]; [congruence|].
    by eapply Has.
  - intros k1 k2 b1 b2 Hb1 Hb2 Hpid Ha1. cbn [bids] in *.
    apply lookup_insert_Some in Hb1 as [[<- <-]|[Hk1 Hb1]]; [congruence|].
    apply lookup_insert_Some in Hb2 as [[<- <-]|[Hk2 Hb2]];
      [|exact (Hnp k1 k2 b1 b2 Hb1 Hb2 Hpid Ha1)].
    destruct (Has k1 b1 Hb1 Ha1) as (p' & Hp' & Hprog & _).
    rewrite Hpid, Hp in Hp'. injection Hp' as <-.
    rewrite Hopen in Hprog. discriminate Hprog.
Qed.

Lemma award_inv_rejected s id b :
  award_inv s →
  bids s !! id = Some b →
  award_inv (rejected_store id s).
Proof.
  intros (Hone & Has & Hnp) Hb. split_and!.
  - intros k1 k2 b1 b2 Hb1 Hb2 Hpid Ha1 Ha2.
    destruct (rejected_store_lookup _ _ _ _ _ Hb Hb1)
      as [[-> ->]|[Hk1 Hc1]]; [done|].
    destruct (rejected_store_lookup _ _ _ _ _ Hb Hb2)
      as [[-> ->]|[Hk2 Hc2]]; [done|].
    exact (Hone k1 k2 b1 b2 Hc1 Hc2 Hpid Ha1 Ha2).
  - intros k b' Hb' Ha.
    destruct (rejected_store_lookup _ _ _ _ _ Hb Hb')
      as [[-> ->]|[Hk Hc]]; [done|].
    exact (Has k b' Hc Ha).
  - intros k1 k2 b1 b2 Hb1 Hb2 Hpid Ha1.
    destruct (rejected_store_lookup _ _ _ _ _ Hb Hb1)
      as [[-> ->]|[Hk1 Hc1]]; [done|].
    destruct (rejected_store_lookup _ _ _ _ _ Hb Hb2)
      as [[-> ->]|[Hk2 Hc2]]; [done|].
    exact (Hnp k1 k2 b1 b2 Hc1 Hc2 Hpid Ha1).
Qed.

Lemma award_inv_accepted s id b p :
  award_inv s →
  bids s !! id = Some b →
  no_other_accepted s id (Bid.projectId b) →
  projects s !! Bid.projectId b = Some p →
  award_inv (accepted_store id b s).
Proof.
  intros (Hone & Has & Hnp) Hb Hguard Hp.
  assert (∀ k b0, bids s !! k = Some b0 → k ≠ id →
                  Bid.status b0 = "accepted" →
                  Bid.projectId b0 ≠ Bid.projectId b) as Hnoacc.
  { intros k b0 Hb0 Hk Ha0 Hpid. by destruct (Hguard k b0 Hb0 Hk Hpid). }
  split_and!.
  - intros k1 k2 b1 b2 Hb1 Hb2 Hpid Ha1 Ha2.
    destruct (accepted_store_lookup _ _ _ _ _ Hb Hb1)
      as [[-> ->]|(Hk1 & c1 & Hc1 & ->)];
    destruct (accepted_store_lookup _ _ _ _ _ Hb Hb2)
      as [[-> ->]|(Hk2 & c2 & Hc2 & ->)]; try done.
    + pose proof (reject_pending_sibling_accepted _ _ _ _ Ha2) as EHa2.
      rewrite EHa2 in *. clear EHa2.
      by destruct (Hnoacc k2 c2 Hc2 Hk2 Ha2).
    + pose proof (reject_pending_sibling_accepted _ _ _ _ Ha1) as EHa1.
      rewrite EHa1 in *. clear EHa1.
      by destruct (Hnoacc k1 c1 Hc1 Hk1 Ha1).
    + pose proof (reject_pending_sibling_accepted _ _ _ _ Ha1) as EHa1.
      rewrite EHa1 in *. clear EHa1.
      pose proof (reject_pending_sibling_accepted _ _ _ _ Ha2) as EHa2.
      rewrite EHa2 in *. clear EHa2.
      exact (Hone k1 k2 c1 c2 Hc1 Hc2 Hpid Ha1 Ha2).
  - intros k b' Hb' Ha.
    destruct (accepted_store_lookup _ _ _ _ _ Hb Hb')
      as [[-> ->]|(Hk & c & Hc & ->)].
    + eexists. split; [exact (accepted_store_project _ _ _ _ Hp)|done].
    + pose proof (reject_pending_sibling_accepted _ _ _ _ Ha) as EHa.
      rewrite EHa in *. clear EHa.
      rewrite accepted_store_project_other by exact (Hnoacc k c Hc Hk Ha).
      exact (Has k c Hc Ha).
  - intros k1 k2 b1 b2 Hb1 Hb2 Hpid Ha1 Hpend2.
    destruct (accepted_store_lookup _ _ _ _ _ Hb Hb2)
      as [[-> ->]|(Hk2 & c2 & Hc2 & ->)]; [done|].
    destruct (reject_pending_sibling_pending _ _ _ _ Hpend2) as [Hc Hsame].
    rewrite Hc in Hpend2, Hpid.
    destruct (accepted_store_lookup _ _ _ _ _ Hb Hb1)
      as [[-> ->]|(Hk1 & c1 & Hc1 & ->)].
    + apply Hk2, Hsame. by rewrite <- Hpid.
    + pose proof (reject_pending_sibling_accepted _ _ _ _ Ha1) as EHa1.
      rewrite EHa1 in *. clear EHa1.
      by destruct (Hnp k1 k2 c1 c2 Hc1 Hc2 Hpid Ha1).
Qed.

(** The three properties hold along every sequence whose accepts meet the
    guard. *)
Lemma award_inv_reachable_awarding_once s :
  reachable_awarding_once s → award_inv s.
Proof.
  induction 1 as [s Hs|s o _ IH Hguard]; [by apply award_inv_init|].
  destruct o as [oid req|req]; cbn [exec].
  - destruct (placeBid_cases oid req s) as [->|(p & Hp & Hopen & Hfresh & ->)];
      [done|].
    by eapply award_inv_placed.
  - cbn [awards_once] in Hguard.
    pose proof (decideBid_cases req s) as Hcase.
    destruct (decideBid req s) as [s' r]. cbn [fst snd] in *.
    destruct Hcase as [ | | | |b p Hst Hb Hp Ho|b p Hst Hb Hp Ho]; try done.
    + eapply award_inv_accepted; [done|done| |done].
      by apply Hguard.
    + by eapply award_inv_rejected.
Qed.

(** While the guard is met, a project with an accepted bid has no pending
    bid: every accept of a bid that is still pending meets the guard. *)
Lemma pending_bid_awards_once s req b :
  reachable_awarding_once s →
  bids s !! params_id req = Some b →
  Bid.status b = "pending" →
  awards_once (OpDecideBid req) s.
Proof.
  intros Hr Hb Hpend _ _ b' Hb' k c Hc Hk Hpid Ha.
  rewrite Hb in Hb'. injection Hb' as <-.
  destruct (award_inv_reachable_awarding_once s Hr) as (_ & _ & Hnp).
  by destruct (Hnp k (params_id req) c b Hc Hb Hpid Ha).
Qed.

(** C1, amended. In every state reached by a sequence of [placeBid] and
    [decideBid] operations in which an accept is carried out only on a bid
    whose project has no other accepted bid, no project has two accepted
    bids. Rejections, refused requests and accepts of a bid decided before
    are all allowed. *)
Theorem one_accepted_bid_per_project s :
  reachable_awarding_once s → at_most_one_accepted s.
Proof.
  intros Hr. by destruct (award_inv_reachable_awarding_once s Hr) as (? & _).
Qed.

Lemma one_accepted_bid_per_project_witness :
  at_most_one_accepted store_changed_mind.
Proof.
  apply one_accepted_bid_per_project.
  apply (reachable_awarding_once_step _ (OpDecideBid (accept 10 101)));
    [|intros _ _ b Hb; vm_compute in Hb; injection Hb as <-;
      apply (bool_decide_eq_true_1 (no_other_accepted _ _ _));
      vm_compute; reflexivity].
  apply (reachable_awarding_once_step _ (OpDecideBid (reject 10 100)));
    [|intros Hst; discriminate Hst].
  apply (reachable_awarding_once_step _ (OpDecideBid (accept 10 100)));
    [|intros _ _ b Hb; vm_compute in Hb; injection Hb as <-;
      apply (bool_decide_eq_true_1 (no_other_accepted _ _ _));
      vm_compute; reflexivity].
  apply (reachable_awarding_once_step _ (OpPlaceBid 102 (bid_of 22 4200)));
    [|exact I].
  apply (reachable_awarding_once_step _ (OpPlaceBid 101 (bid_of 21 4000)));
    [|exact I].
  apply (reachable_awarding_once_step _ (OpPlaceBid 100 (bid_of 20 4500)));
    [|exact I].
  apply reachable_awarding_once_init. reflexivity.
Defined.

(** C2, amended. In every state reached by a sequence of [placeBid] and
    [decideBid] operations in which an accept is carried out only on a bid
    whose project has no other accepted bid, every accepted bid's project
    exists, has status ['in progress'] and is assigned to the bid's
    developer. *)
Theorem accepted_bid_project_assigned s :
  reachable_awarding_once s → accepted_is_assigned s.
Proof.
  intros Hr.
  by destruct (award_inv_reachable_awarding_once s Hr) as (_ & ? & _).
Qed.

Lemma accepted_bid_project_assigned_witness :
  accepted_is_assigned store_changed_mind.
Proof.
  apply accepted_bid_project_assigned.
  apply (reachable_awarding_once_step _ (OpDecideBid (accept 10 101)));
    [|intros _ _ b Hb; vm_compute in Hb; injection Hb as <-;
      apply (bool_decide_eq_true_1 (no_other_accepted _ _ _));
      vm_compute; reflexivity].
  apply (reachable_awarding_once_step _ (OpDecideBid (reject 10 100)));
    [|intros Hst; discriminate Hst].
  apply (reachable_awarding_once_step _ (OpDecideBid (accept 10 100)));
    [|intros _ _ b Hb; vm_compute in Hb; injection Hb as <-;
      apply (bool_decide_eq_true_1 (no_other_accepted _ _ _));
      vm_compute; reflexivity].
  apply (reachable_awarding_once_step _ (OpPlaceBid 102 (bid_of 22 4200)));
    [|exact I].
  apply (reachable_awarding_once_step _ (OpPlaceBid 101 (bid_of 21 4000)));
    [|exact I].
  apply (reachable_awarding_once_step _ (OpPlaceBid 100 (bid_of 20 4500)));
    [|exact I].
  apply reachable_awarding_once_init. reflexivity.
Defined.

(** No sequence of the two operations leaves a bid without its project:
    [placeBid] looks the project up, and nothing removes a project. The 500
    of [decideBid_orphan] is therefore not met in a reachable store. *)
Lemma reachable_bids_have_projects s : reachable s → bids_have_projects s.
Proof.
  induction 1 as [s Hs|s o _ IH].
  { intros k b Hb. by rewrite Hs in Hb. }
  destruct o as [oid req|req]; cbn [exec].
  - destruct (placeBid_cases oid req s) as [->|(p & Hp & _ & _ & ->)];
      [done|].
    intros k b Hb. cbn [bids projects] in *.
    apply lookup_insert_Some in Hb as [[<- <-]|[_ Hb]]; [by eexists|].
    by eapply IH.
  - destruct (decideBid_cases req s)
      as [ | | | |b p Hst Hb Hp Ho|b p Hst Hb Hp Ho]; try done.
    + intros k b' Hb'.
      assert (∃ c, bids s !! k = Some c
                   ∧ Bid.projectId b' = Bid.projectId c) as (c & Hc & ->).
      { destruct (accepted_store_lookup _ _ _ _ _ Hb Hb')
          as [[-> ->]|(_ & c & Hc & ->)]; [by exists b|].
        exists c. by rewrite reject_pending_sibling_projectId. }
      destruct (IH k c Hc) as [q Hq]. unfold accepted_store. cbn [projects].
      destruct (decide (Bid.projectId c = Bid.projectId b)) as [->|Hne].
      * rewrite lookup_alter_eq, Hp. by eexists.
      * rewrite lookup_alter_ne by done. by eexists.
    + intros k b' Hb'.
      destruct (rejected_store_lookup _ _ _ _ _ Hb Hb')
        as [[-> ->]|[_ Hc]]; [by eapply (IH _ b)|by eapply IH].
Qed.

(** ** Two accept requests in flight *)

(** Run on its own for its five steps, a request is the handler. *)
Lemma steps_decideBid req s :
  steps 5 req PcStart s =
    ((decideBid req s).1, PcDone (decideBid req s).2).
Proof.
  unfold steps, step, step_code. unfold_handler.
  case_bool_decide as Hst; simpl; [|done].
  destruct (bids s !! params_id req) as [b|] eqn:Hb; simpl; [|done].
  destruct (projects s !! Bid.projectId b) as [p|] eqn:Hp; simpl; [|done].
  case_bool_decide as Ho; simpl; [|done].
  rewrite bool_decide_eq_true_2
    by (apply elem_of_cons in Hst as [->|Hst];
        [|apply list_elem_of_singleton in Hst as ->];
        unfold Bid.status_enum; set_solver).
  simpl. rewrite Hb.
  case_bool_decide as Hacc; simpl; done.
Qed.

Lemma step_store_effect req pc s :
  store_effect (params_id req) s (step req pc s).1.
Proof.
  unfold step, step_code. unfold_handler. destruct pc as [|bid|bid|bid|bid|r].
  - case_bool_decide; simpl; [|constructor].
    destruct (bids s !! params_id req); constructor.
  - simpl. destruct (projects s !! Bid.projectId bid); simpl; [|constructor].
    case_bool_decide; constructor.
  - simpl. case_bool_decide; simpl; [|constructor].
    destruct (bids s !! params_id req); simpl; [|constructor].
    case_bool_decide; apply (effect_save _ _ (Bid.status bid)).
  - apply effect_project.
  - apply effect_cascade.
  - constructor.
Qed.

Lemma same_refs_set_status b bid st :
  same_refs b bid → same_refs b (Bid.set_status st bid).
Proof. done. Qed.

Lemma same_refs_reject_pending_sibling b bid pid id k :
  same_refs b bid → same_refs b (reject_pending_sibling pid id k bid).
Proof. unfold reject_pending_sibling. by case_bool_decide. Qed.

(** A step of either request keeps the two bids and their project's owner. *)
Lemma store_effect_race_store id idA idB bA bB owner s s' :
  store_effect id s s' →
  race_store idA idB bA bB owner s → race_store idA idB bA bB owner s'.
Proof.
  intros Heff ((a & Ha & Hra) & (b & Hb & Hrb) & (p & Hp & Ho)).
  destruct Heff as [|st|pid st dev|pid]; unfold race_store; cbn.
  - eauto 10.
  - split_and!; [| |eauto].
    + destruct (decide (idA = id)) as [->|Hne].
      * eexists. rewrite lookup_alter_eq, Ha. eauto using same_refs_set_status.
      * exists a. by rewrite lookup_alter_ne.
    + destruct (decide (idB = id)) as [->|Hne].
      * eexists. rewrite lookup_alter_eq, Hb. eauto using same_refs_set_status.
      * exists b. by rewrite lookup_alter_ne.
  - split_and!; [eauto|eauto|].
    destruct (decide (Bid.projectId bA = pid)) as [<-|Hne].
    + eexists. rewrite lookup_alter_eq, Hp. eauto.
    + exists p. by rewrite lookup_alter_ne.
  - split_and!; [| |eauto].
    + eexists. rewrite map_lookup_imap, Ha.
      eauto using same_refs_reject_pending_sibling.
    + eexists. rewrite map_lookup_imap, Hb.
      eauto using same_refs_reject_pending_sibling.
Qed.

(** A step of the request on bid [id] leaves an accepted bid accepted,
    unless it saves that very bid. *)
Lemma store_effect_is_accepted id k s s' :
  store_effect id s s' → k ≠ id → is_accepted s k → is_accepted s' k.
Proof.
  unfold is_accepted. intros Heff Hk Hacc.
  destruct Heff as [|st|pid st dev|pid]; cbn; try done.
  - by rewrite lookup_alter_ne.
  - rewrite map_lookup_imap. destruct (bids s !! k) as [b|]; [|done].
    simpl in *. rewrite reject_pending_sibling_keeps; [done|].
    injection Hacc as ->. done.
Qed.

(** The other request's progress survives a step. *)
Lemma store_effect_accept_progress id req b s s' pc :
  store_effect id s s' → params_id req ≠ id →
  accept_progress req b s pc → accept_progress req b s' pc.
Proof.
  intros Heff Hne. destruct pc; cbn; try done;
    intros [? ?]; eauto using store_effect_is_accepted.
Qed.

(** The steps of an accepting request that finds its bid and owns the
    project. *)
Lemma step_start req s b :
  body_status req = "accepted" →
  bids s !! params_id req = Some b →
  step req PcStart s = (s, PcPopulate b).
Proof.
  intros Hst Hb. unfold step, step_code. unfold_handler.
  rewrite Hst. simpl. by rewrite Hb.
Qed.

Lemma step_populate req s bid p :
  projects s !! Bid.projectId bid = Some p →
  Project.createdBy p = status_user req →
  step req (PcPopulate bid) s
  = (s, PcSave (Bid.set_status (body_status req) bid)).
Proof.
  intros Hp Ho. unfold step, step_code. unfold_handler. rewrite Hp. cbn.
  by rewrite bool_decide_eq_true_2.
Qed.

Lemma step_save req s bid c :
  body_status req = "accepted" →
  Bid.status bid = "accepted" →
  bids s !! params_id req = Some c →
  step req (PcSave bid) s
  = (set_bids (alter (Bid.set_status "accepted") (params_id req)) s,
     PcProject bid).
Proof.
  intros Hst Hacc Hc. unfold step, step_code. unfold_handler.
  rewrite Hst, Hacc. simpl. by rewrite Hc.
Qed.

Lemma step_project req s bid :
  step req (PcProject bid) s
  = (set_projects (alter (Project.update "in progress" (Bid.developerId bid))
                         (Bid.projectId bid)) s,
     PcCascade bid).
Proof. done. Qed.

Lemma step_cascade req s bid :
  step req (PcCascade bid) s
  = (set_bids (map_imap (λ k b, Some (reject_pending_sibling
                                        (Bid.projectId bid) (params_id req)
                                        k b))) s,
     PcDone (json_ok 200 ("Bid " ++ body_status req ++ " successfully")
               (params_id req) bid)).
Proof. done. Qed.

(** An accepting request of the owner takes each of its five steps: none
    ends it early. *)
Lemma accept_step req b owner idA idB bA bB s pc :
  body_status req = "accepted" →
  status_user req = owner →
  race_store idA idB bA bB owner s →
  (params_id req = idA ∧ b = bA)
  ∨ (params_id req = idB ∧ b = bB ∧ Bid.projectId bB = Bid.projectId bA) →
  accept_progress req b s pc →
  accept_progress req b (step req pc s).1 (step req pc s).2
  ∧ steps_left (step req pc s).2 = pred (steps_left pc).
Proof.
  intros Hst Hu ((a' & Ha & Hra) & (b' & Hb & Hrb) & (p & Hp & Ho)) Hwho.
  assert (∃ c, bids s !! params_id req = Some c ∧ same_refs b c)
    as (c & Hc & Hrc).
  { destruct Hwho as [[-> ->]|(-> & -> & _)]; eauto. }
  assert (projects s !! Bid.projectId b = Some p) as Hpb.
  { destruct Hwho as [[_ ->]|(_ & -> & ->)]; done. }
  clear Hwho Ha Hb Hra Hrb Hp.
  destruct pc as [|bid|bid|bid|bid|r]; cbn [accept_progress steps_left pred].
  - intros _. by rewrite (step_start req s c).
  - intros [Hpid Hdev].
    rewrite (step_populate req s bid p) by congruence.
    by rewrite Hst.
  - intros [Href Hacc]. rewrite (step_save req s bid c) by done.
    cbn. split; [|done]. split; [done|]. unfold is_accepted. cbn.
    by rewrite lookup_alter_eq, Hc.
  - intros [Href Hacc]. by rewrite step_project.
  - intros [Href Hacc]. rewrite step_cascade. cbn. split; [|done].
    split; [done|].
    unfold is_accepted in *. cbn. rewrite map_lookup_imap.
    destruct (bids s !! params_id req) as [d|]; [|done]. cbn in *.
    rewrite reject_pending_sibling_keeps; [done|].
    injection Hacc as ->. done.
  - done.
Qed.

Section TwoAccepts.

(** Two accept requests of the owner, on two bids of one project. *)
Variables (reqA reqB : StatusReq) (bA bB : Bid.t) (owner : ObjectId).
Hypothesis acceptA : body_status reqA = "accepted".
Hypothesis acceptB : body_status reqB = "accepted".
Hypothesis ownerA : status_user reqA = owner.
Hypothesis ownerB : status_user reqB = owner.
Hypothesis two_bids : params_id reqA ≠ params_id reqB.
Hypothesis same_project : Bid.projectId bB = Bid.projectId bA.

Lemma interleave_progress sched : ∀ s pcA pcB,
  race_store (params_id reqA) (params_id reqB) bA bB owner s →
  accept_progress reqA bA s pcA →
  accept_progress reqB bB s pcB →
  ∃ s' pcA' pcB',
    interleave reqA reqB sched (s, pcA, pcB) = (s', pcA', pcB')
    ∧ accept_progress reqA bA s' pcA'
    ∧ accept_progress reqB bB s' pcB'
    ∧ steps_left pcA' = steps_left pcA - turns true sched
    ∧ steps_left pcB' = steps_left pcB - turns false sched.
Proof.
  induction sched as [|who sched IH]; intros s pcA pcB Hrace HA HB.
  - exists s, pcA, pcB. cbn. split_and!; [done..|lia|lia].
  - destruct who; cbn [interleave turns].
    + pose proof (step_store_effect reqA pcA s) as Heff.
      destruct (accept_step reqA bA owner _ _ bA bB s pcA acceptA ownerA
                  Hrace (or_introl (conj eq_refl eq_refl)) HA)
        as [HA' Hleft].
      destruct (step reqA pcA s) as [s1 pcA1]. cbn [fst snd] in *.
      destruct (IH s1 pcA1 pcB) as (s' & pcA' & pcB' & -> & ? & ? & HlA & HlB).
      * by eapply store_effect_race_store.
      * done.
      * eapply store_effect_accept_progress; [done| |done]. congruence.
      * exists s', pcA', pcB'. rewrite bool_decide_eq_true_2 by done.
        rewrite bool_decide_eq_false_2 by done.
        split_and!; [done..|lia|lia].
    + pose proof (step_store_effect reqB pcB s) as Heff.
      destruct (accept_step reqB bB owner _ _ bA bB s pcB acceptB ownerB
                  Hrace (or_intror (conj eq_refl (conj eq_refl same_project)))
                  HB)
        as [HB' Hleft].
      destruct (step reqB pcB s) as [s1 pcB1]. cbn [fst snd] in *.
      destruct (IH s1 pcA pcB1) as (s' & pcA' & pcB' & -> & ? & ? & HlA & HlB).
      * by eapply store_effect_race_store.
      * by eapply store_effect_accept_progress.
      * done.
      * exists s', pcA', pcB'. rewrite bool_decide_eq_false_2 by done.
        rewrite bool_decide_eq_true_2 by done.
        split_and!; [done..|lia|lia].
Qed.

(** C4, amended. When the owner's accept requests on two different bids of
    one project are in flight together, then under every schedule of their
    store operations that lets both finish, both answer 200 (none answers
    409) and both bids are accepted in the final store: the handler does not
    serialize the accept per project. *)
Theorem concurrent_accepts_both_succeed s p sched :
  bids s !! params_id reqA = Some bA →
  bids s !! params_id reqB = Some bB →
  projects s !! Bid.projectId bA = Some p →
  Project.createdBy p = owner →
  (5 ≤ turns true sched)%nat →
  (5 ≤ turns false sched)%nat →
  ∃ s' rA rB,
    interleave reqA reqB sched (s, PcStart, PcStart)
    = (s', PcDone rA, PcDone rB)
    ∧ statusCode rA = 200%Z
    ∧ statusCode rB = 200%Z
    ∧ is_accepted s' (params_id reqA)
    ∧ is_accepted s' (params_id reqB).
Proof.
  intros HbA HbB Hp Ho HtA HtB.
  destruct (interleave_progress sched s PcStart PcStart)
    as (s' & pcA' & pcB' & Hrun & HA & HB & HlA & HlB); [|done|done|].
  { split_and!; eexists; by split. }
  cbn [steps_left] in HlA, HlB.
  destruct pcA' as [| | | | |rA]; cbn [steps_left] in HlA; try lia.
  destruct pcB' as [| | | | |rB]; cbn [steps_left] in HlB; try lia.
  exists s', rA, rB. destruct HA, HB. by split_and!.
Qed.

End TwoAccepts.

Lemma concurrent_accepts_both_succeed_witness :
  ∃ s' rA rB,
    interleave (accept 10 100) (accept 10 101) alternating
      (store_bids, PcStart, PcStart)
    = (s', PcDone rA, PcDone rB)
    ∧ statusCode rA = 200%Z
    ∧ statusCode rB = 200%Z
    ∧ is_accepted s' 100%N
    ∧ is_accepted s' 101%N.
Proof.
  apply (concurrent_accepts_both_succeed (accept 10 100) (accept 10 101)
           (placed_bid (bid_of 20 4500)) (placed_bid (bid_of 21 4000)) 10%N
           eq_refl eq_refl eq_refl eq_refl)
    with (p := shop); try (by vm_compute); vm_compute; lia.
Defined.

(** C4, as stated, fails: run one after the other, or step by step in turn,
    the owner's accepts of bids 100 and 101 both answer 200, neither answers
    409, and the final store holds two accepted bids of project 1. *)
Lemma concurrent_accepts_leave_two_awards :
  interleave (accept 10 100) (accept 10 101) serial
    (store_bids, PcStart, PcStart)
  = (store_two_awards,
     PcDone (decideBid (accept 10 100) store_bids).2,
     PcDone (decideBid (accept 10 101) store_awarded).2)
  ∧ interleave (accept 10 100) (accept 10 101) alternating
      (store_bids, PcStart, PcStart)
    = (store_two_awards,
       PcDone (decideBid (accept 10 100) store_bids).2,
       PcDone (decideBid (accept 10 101) store_awarded).2)
  ∧ statusCode (decideBid (accept 10 100) store_bids).2 = 200%Z
  ∧ statusCode (decideBid (accept 10 101) store_awarded).2 = 200%Z
  ∧ is_accepted store_two_awards 100%N
  ∧ is_accepted store_two_awards 101%N
  ∧ ¬ at_most_one_accepted store_two_awards.
Proof.
  do 6 (split; [by vm_compute|]).
  intros Hone.
  assert (100%N = 101%N) as Heq; [|discriminate Heq].
  eapply Hone; by vm_compute.
Qed.

(** * The project routes and the whole application *)

Ltac unfold_create :=
  unfold createProject, try_reply, mbind, M_bind, mret, M_ret,
    Project_insert, set_projects; simpl.

Lemma isLength_passed (lo n hi : nat) (msg : string) :
  (if (lo <=? n)%nat && (n <=? hi)%nat then [] else [msg]) = [] →
  (lo ≤ n ≤ hi)%nat.
Proof.
  destruct (Nat.leb_spec lo n), (Nat.leb_spec n hi); simpl; done.
Qed.

Lemma isFloat_min0_passed (x : Z) (msg : string) :
  (if (0 <=? x)%Z then [] else [msg]) = [] → (0 ≤ x)%Z.
Proof. by destruct (Z.leb_spec 0 x). Qed.

Lemma validateProject_fields req :
  validateProject req = [] →
  (3 ≤ String.length (trim (body_title req)) ≤ 100)%nat
  ∧ (10 ≤ String.length (trim (body_description req)) ≤ 1000)%nat
  ∧ (∃ l, body_techStack req = TechArray l ∧ l ≠ [])
  ∧ (0 ≤ body_estimatedBudget req)%Z.
Proof.
  unfold validateProject. cbv zeta. intros Hv.
  apply app_eq_nil in Hv as [Ht Hv]. apply app_eq_nil in Hv as [Hd Hv].
  apply app_eq_nil in Hv as [Hs Hb].
  split; [exact (isLength_passed _ _ _ _ Ht)|].
  split; [exact (isLength_passed _ _ _ _ Hd)|].
  split; [|exact (isFloat_min0_passed _ _ Hb)].
  destruct (body_techStack req) as [l|v]; [|done]. exists l.
  split; [done|]. by destruct l.
Qed.

Lemma validateBid_fields req :
  validateBid req = [] →
  (0 ≤ body_bidAmount req)%Z
  ∧ (10 ≤ String.length (trim (body_message req)) ≤ 500)%nat.
Proof.
  unfold validateBid. cbv zeta. intros Hv.
  apply app_eq_nil in Hv as [Ha Hm]. split.
  - exact (isFloat_min0_passed _ _ Ha).
  - exact (isLength_passed _ _ _ _ Hm).
Qed.

Lemma forallb_not_blank (l : list string) :
  forallb (λ t, negb (bool_decide (t = EmptyString))) (trim <$> l) = true
  ↔ Forall (λ t, trim t ≠ EmptyString) l.
Proof.
  induction l as [|t l IH]; simpl.
  - split; [by constructor|done].
  - split.
    + intros [Ht Hl]%andb_true_iff. constructor; [|by apply IH].
      apply negb_true_iff in Ht. by apply bool_decide_eq_false in Ht.
    + intros Hall. inversion Hall as [|? ? Ht Hl]; subst.
      apply andb_true_iff. split; [|by apply IH].
      apply negb_true_iff. by apply bool_decide_eq_false.
Qed.

(** The schema validators accept what a validated request builds exactly
    when no entry of [techStack] is blank. *)
Lemma Project_validate_created req :
  validateProject req = [] →
  Project_validate (created_project req) = true ↔ no_blank_tech req.
Proof.
  intros Hv.
  destruct (validateProject_fields req Hv) as (Ht & Hd & _ & Hb).
  unfold Project_validate, created_project, Project_new, no_blank_tech.
  cbn [Project.title Project.description Project.techStack
       Project.estimatedBudget Project.status].
  rewrite !trim_idemp.
  assert (negb (bool_decide (trim (body_title req) = EmptyString)) = true)
    as ->.
  { apply negb_true_iff, bool_decide_eq_false. intros Heq.
    rewrite Heq in Ht. simpl in Ht. lia. }
  assert (negb (bool_decide (trim (body_description req) = EmptyString))
          = true) as ->.
  { apply negb_true_iff, bool_decide_eq_false. intros Heq.
    rewrite Heq in Hd. simpl in Hd. lia. }
  rewrite (proj2 (Nat.leb_le _ _)) by lia.
  rewrite (proj2 (Nat.leb_le _ _)) by lia.
  rewrite (proj2 (Z.leb_le _ _)) by lia.
  rewrite (bool_decide_eq_true_2 ("open" ∈ Project.status_enum))
    by apply list_elem_of_here.
  cbn [andb]. rewrite !andb_true_r. apply forallb_not_blank.
Qed.

Lemma createProject_invalid oid req s :
  validateProject req ≠ [] →
  createProject oid req s = (s, reply_fail 400 "Validation failed").
Proof. intros H. unfold_create. by rewrite bool_decide_eq_false_2. Qed.

Lemma createProject_invalid_date oid req s :
  validateProject req = [] →
  body_deadline req = Some InvalidDate →
  createProject oid req s = (s, reply_fail 500 "Failed to create project").
Proof.
  intros Hv Hdate. unfold_create. rewrite bool_decide_eq_true_2 by done.
  simpl. by rewrite bool_decide_eq_true_2.
Qed.

Lemma createProject_blank oid req s :
  validateProject req = [] →
  ¬ no_blank_tech req →
  createProject oid req s = (s, reply_fail 500 "Failed to create project").
Proof.
  intros Hv Hblank.
  destruct (decide (body_deadline req = Some InvalidDate)) as [Hdate|Hdate];
    [by apply createProject_invalid_date|].
  unfold_create. rewrite bool_decide_eq_true_2 by done.
  simpl. rewrite (bool_decide_eq_false_2 _ Hdate). fold (created_project req).
  destruct (Project_validate (created_project req)) eqn:Hval; [|done].
  by apply Project_validate_created in Hval.
Qed.

Lemma createProject_id_taken oid req s :
  validateProject req = [] →
  no_blank_tech req →
  is_Some (projects s !! oid) →
  createProject oid req s = (s, reply_fail 500 "Failed to create project").
Proof.
  intros Hv Hblank Htaken.
  destruct (decide (body_deadline req = Some InvalidDate)) as [Hdate|Hdate];
    [by apply createProject_invalid_date|].
  unfold_create.
  rewrite bool_decide_eq_true_2 by done. simpl.
  rewrite (bool_decide_eq_false_2 _ Hdate). fold (created_project req).
  rewrite (proj2 (Project_validate_created req Hv) Hblank). simpl.
  by rewrite bool_decide_eq_true_2.
Qed.

Lemma createProject_created oid req s :
  validateProject req = [] →
  no_blank_tech req →
  body_deadline req ≠ Some InvalidDate →
  projects s !! oid = None →
  createProject oid req s
  = (mkStore (<[oid := created_project req]> (projects s)) (bids s),
     reply_ok 201 "Project created successfully" (oid, created_project req)).
Proof.
  intros Hv Hblank Hdate Hfresh. unfold_create.
  rewrite bool_decide_eq_true_2 by done. simpl.
  rewrite (bool_decide_eq_false_2 _ Hdate). fold (created_project req).
  rewrite (proj2 (Project_validate_created req Hv) Hblank). simpl.
  rewrite Hfresh. by rewrite bool_decide_eq_false_2 by (by intros []).
Qed.

Lemma createProject_cases oid req s :
  ((createProject oid req s).1 = s
   ∧ reply_code (createProject oid req s).2 ≠ 201%Z)
  ∨ (validateProject req = [] ∧ no_blank_tech req
     ∧ projects s !! oid = None
     ∧ createProject oid req s
       = (mkStore (<[oid := created_project req]> (projects s)) (bids s),
          reply_ok 201 "Project created successfully"
            (oid, created_project req))).
Proof.
  destruct (decide (validateProject req = [])) as [Hv|Hv];
    [|left; by rewrite createProject_invalid].
  destruct (decide (no_blank_tech req)) as [Hblank|Hblank];
    [|left; by rewrite createProject_blank].
  destruct (decide (body_deadline req = Some InvalidDate)) as [Hdate|Hdate];
    [left; by rewrite createProject_invalid_date|].
  destruct (projects s !! oid) as [p|] eqn:Hoid.
  - left. by rewrite createProject_id_taken.
  - right. by rewrite createProject_created.
Qed.

(** *** Where the documents of the next store come from *)

Lemma placeBid_cases_full oid req s :
  ((placeBid oid req s).1 = s ∧ statusCode (placeBid oid req s).2 ≠ 201%Z)
  ∨ (validateBid req = []
     ∧ (∃ p, projects s !! body_projectId req = Some p
             ∧ Project.status p = "open")
     ∧ bids s !! oid = None
     ∧ (∀ k b, bids s !! k = Some b →
               ¬ (Bid.projectId b = body_projectId req
                  ∧ Bid.developerId b = place_user req))
     ∧ placeBid oid req s
       = (mkStore (projects s) (<[oid := placed_bid req]> (bids s)),
          json_ok 201 "Bid placed successfully" oid (placed_bid req))).
Proof.
  destruct (decide (validateBid req = [])) as [Hv|Hv];
    [|left; by rewrite placeBid_invalid].
  destruct (projects s !! body_projectId req) as [p|] eqn:Hp;
    [|left; by rewrite placeBid_not_found].
  destruct (decide (Project.status p = "open")) as [Hs|Hs];
    [|left; by erewrite placeBid_not_open].
  destruct (decide (filter (λ kv, Bid.projectId kv.2 = body_projectId req
                                  ∧ Bid.developerId kv.2 = place_user req)
                           (bids s) = ∅)) as [Hnone|Hsome].
  - pose proof (proj1 (filter_pair_empty _ _ _) Hnone) as Hno.
    destruct (bids s !! oid) as [b|] eqn:Hoid.
    + left. by erewrite placeBid_id_taken.
    + right. split_and!; [done|by exists p|done|done|].
      by erewrite placeBid_created.
  - left. apply map_choose in Hsome as (k & b & Hkb).
    apply map_lookup_filter_Some in Hkb as (Hb & Hpid & Hdev).
    by rewrite (placeBid_conflict oid req s p k b).
Qed.

Lemma same_bid_but_status_refl b : same_bid_but_status b b.
Proof. by repeat split. Qed.

Lemma same_bid_but_status_set st b :
  same_bid_but_status b (Bid.set_status st b).
Proof. by repeat split. Qed.

Lemma same_bid_but_status_sibling pid id k b :
  same_bid_but_status b (reject_pending_sibling pid id k b).
Proof. unfold reject_pending_sibling. case_bool_decide; by repeat split. Qed.

Lemma same_project_but_award_refl p : same_project_but_award p p.
Proof. by repeat split. Qed.

Lemma same_project_but_award_update st dev p :
  same_project_but_award p (Project.update st dev p).
Proof. by repeat split. Qed.

(** A bid of the store after an accept is a bid of the store before it,
    accepted if it is the target, rejected if it was a pending sibling, and
    the same otherwise. *)
Lemma accepted_store_origin id b s k b' :
  bids s !! id = Some b →
  bids (accepted_store id b s) !! k = Some b' →
  ∃ b0, bids s !! k = Some b0 ∧ same_bid_but_status b0 b'
        ∧ ((k = id ∧ Bid.status b' = "accepted")
           ∨ (k ≠ id ∧ Bid.projectId b0 = Bid.projectId b
              ∧ Bid.status b0 = "pending" ∧ Bid.status b' = "rejected")
           ∨ (k ≠ id ∧ b' = b0
              ∧ (Bid.projectId b0 = Bid.projectId b →
                 Bid.status b0 ≠ "pending"))).
Proof.
  intros Hb Hb'.
  destruct (accepted_store_lookup _ _ _ _ _ Hb Hb')
    as [[-> ->]|(Hk & c & Hc & ->)].
  - exists b. split; [done|]. split; [apply same_bid_but_status_set|].
    by left.
  - exists c. split; [done|]. split; [apply same_bid_but_status_sibling|].
    right. unfold reject_pending_sibling.
    case_bool_decide as Hcond.
    + left. by destruct Hcond as (? & _ & ?).
    + right. split_and!; [done..|]. intros Hpid Hpend. by apply Hcond.
Qed.

Lemma rejected_store_origin id b s k b' :
  bids s !! id = Some b →
  bids (rejected_store id s) !! k = Some b' →
  ∃ b0, bids s !! k = Some b0 ∧ same_bid_but_status b0 b'
        ∧ ((k = id ∧ Bid.status b' = "rejected") ∨ (k ≠ id ∧ b' = b0)).
Proof.
  intros Hb Hb'.
  destruct (rejected_store_lookup _ _ _ _ _ Hb Hb') as [[-> ->]|[Hk Hc]].
  - exists b. split; [done|]. split; [apply same_bid_but_status_set|].
    by left.
  - exists b'. split; [done|]. split; [apply same_bid_but_status_refl|].
    by right.
Qed.

Lemma accepted_store_project_lookup id b s q p' :
  projects (accepted_store id b s) !! q = Some p' →
  (q = Bid.projectId b
   ∧ ∃ p, projects s !! q = Some p
          ∧ p' = Project.update "in progress" (Bid.developerId b) p)
  ∨ (q ≠ Bid.projectId b ∧ projects s !! q = Some p').
Proof.
  unfold accepted_store. cbn [projects].
  destruct (decide (q = Bid.projectId b)) as [->|Hq].
  - rewrite lookup_alter_eq.
    destruct (projects s !! Bid.projectId b) as [p|]; [|done].
    intros [= <-]. left. eauto.
  - rewrite lookup_alter_ne by done. by right.
Qed.

(** *** The documents a request keeps *)

Lemma keeps_documents_refl s : keeps_documents s s.
Proof.
  split.
  - intros k p Hp. exists p. eauto using same_project_but_award_refl.
  - intros k b Hb. exists b. eauto using same_bid_but_status_refl.
Qed.

Lemma keeps_documents_trans s1 s2 s3 :
  keeps_documents s1 s2 → keeps_documents s2 s3 → keeps_documents s1 s3.
Proof.
  intros [Hp12 Hb12] [Hp23 Hb23]. split.
  - intros k p Hp.
    destruct (Hp12 k p Hp) as (p2 & Hp2 & Hsame2 & Hopen2).
    destruct (Hp23 k p2 Hp2) as (p3 & Hp3 & Hsame3 & Hopen3).
    exists p3. split; [done|]. split; [|by auto].
    unfold same_project_but_award in *. intuition congruence.
  - intros k b Hb.
    destruct (Hb12 k b Hb) as (b2 & Hb2 & Hsame2 & Hpend2).
    destruct (Hb23 k b2 Hb2) as (b3 & Hb3 & Hsame3 & Hpend3).
    exists b3. split; [done|]. split; [|by auto].
    unfold same_bid_but_status in *. intuition congruence.
Qed.

Lemma keeps_documents_accepted id b s :
  bids s !! id = Some b → keeps_documents s (accepted_store id b s).
Proof.
  intros Hb. split.
  - intros k p Hp. unfold accepted_store. cbn [projects].
    destruct (decide (k = Bid.projectId b)) as [->|Hk].
    + rewrite lookup_alter_eq, Hp. eexists. split; [done|].
      split; [apply same_project_but_award_update|done].
    + rewrite lookup_alter_ne by done.
      exists p. eauto using same_project_but_award_refl.
  - intros k c Hc. destruct (decide (k = id)) as [->|Hk].
    + rewrite accepted_store_self by done. rewrite Hb in Hc.
      injection Hc as <-. eexists. split; [done|].
      split; [apply same_bid_but_status_set|done].
    + rewrite accepted_store_other, Hc by done. eexists. split; [done|].
      split; [apply same_bid_but_status_sibling|].
      intros Hpend. by rewrite reject_pending_sibling_keeps.
Qed.

Lemma keeps_documents_rejected id b s :
  bids s !! id = Some b → keeps_documents s (rejected_store id s).
Proof.
  intros Hb. split.
  - intros k p Hp. exists p. eauto using same_project_but_award_refl.
  - intros k c Hc. destruct (decide (k = id)) as [->|Hk].
    + rewrite (rejected_store_self _ b) by done. rewrite Hb in Hc.
      injection Hc as <-. eexists. split; [done|].
      split; [apply same_bid_but_status_set|done].
    + rewrite rejected_store_other by done.
      exists c. eauto using same_bid_but_status_refl.
Qed.

Lemma keeps_documents_insert_bid oid nb s :
  bids s !! oid = None →
  keeps_documents s (mkStore (projects s) (<[oid := nb]> (bids s))).
Proof.
  intros Hfresh. split.
  - intros k p Hp. exists p. eauto using same_project_but_award_refl.
  - intros k c Hc. exists c. cbn [bids].
    rewrite lookup_insert_ne by congruence.
    eauto using same_bid_but_status_refl.
Qed.

Lemma keeps_documents_insert_project oid np s :
  projects s !! oid = None →
  keeps_documents s (mkStore (<[oid := np]> (projects s)) (bids s)).
Proof.
  intros Hfresh. split.
  - intros k p Hp. exists p. cbn [projects].
    rewrite lookup_insert_ne by congruence.
    eauto using same_project_but_award_refl.
  - intros k c Hc. exists c. eauto using same_bid_but_status_refl.
Qed.

Lemma keeps_documents_serve r s : keeps_documents s (serve r s).1.
Proof.
  destruct r as [oid req|oid req|req]; cbn [serve].
  - destruct (createProject_cases oid req s)
      as [[Hs _]|(_ & _ & Hfresh & Heq)].
    + destruct (createProject oid req s) as [s' re]. cbn in *. subst s'.
      apply keeps_documents_refl.
    + rewrite Heq. cbn. by apply keeps_documents_insert_project.
  - destruct (placeBid_cases_full oid req s)
      as [[Hs _]|(_ & _ & Hfresh & _ & Heq)].
    + destruct (placeBid oid req s) as [s' re]. cbn in *. subst s'.
      apply keeps_documents_refl.
    + rewrite Heq. cbn. by apply keeps_documents_insert_bid.
  - pose proof (decideBid_cases req s) as Hcase.
    destruct (decideBid req s) as [s' re]. cbn in *.
    destruct Hcase; eauto using keeps_documents_refl,
      keeps_documents_accepted, keeps_documents_rejected.
Qed.

Lemma keeps_documents_serve_all rs s : keeps_documents s (serve_all rs s).
Proof.
  revert s. induction rs as [|r rs IH]; intros s.
  - apply keeps_documents_refl.
  - cbn. eapply keeps_documents_trans; [apply keeps_documents_serve|apply IH].
Qed.

(** *** The invariant of the application, request by request *)

Lemma app_inv_empty : app_inv empty_store.
Proof.
  unfold app_inv, bids_have_projects, unique_pair, project_assignment,
    bid_status_fits, stored_documents_valid.
  split_and!; intros; done.
Qed.

Lemma app_inv_created oid req s :
  app_inv s →
  validateProject req = [] →
  no_blank_tech req →
  projects s !! oid = None →
  app_inv (mkStore (<[oid := created_project req]> (projects s)) (bids s)).
Proof.
  intros (Hhave & Huniq & Hassign & Hfits & Hvb & Hvp) Hv Hblank Hfresh.
  assert (∀ k b, bids s !! k = Some b → Bid.projectId b ≠ oid) as Hother.
  { intros k b Hb Heq. destruct (Hhave k b Hb) as [p Hp]. congruence. }
  split_and!; [| | | |split].
  - intros k b Hb. cbn [bids projects] in *.
    rewrite lookup_insert_ne by (symmetry; by eapply Hother).
    by eapply Hhave.
  - exact Huniq.
  - intros pid p Hp. cbn [bids projects] in *.
    apply lookup_insert_Some in Hp as [[<- <-]|[Hne Hp]]; [by left|].
    exact (Hassign pid p Hp).
  - intros k b p Hb Hp. cbn [bids projects] in *.
    rewrite lookup_insert_ne in Hp by (symmetry; by eapply Hother).
    exact (Hfits k b p Hb Hp).
  - exact Hvb.
  - intros k p Hp. cbn [projects] in Hp.
    apply lookup_insert_Some in Hp as [[<- <-]|[Hne Hp]];
      [|exact (Hvp k p Hp)].
    destruct (validateProject_fields req Hv)
      as (Ht & Hd & (l & Hl & Hnil) & Hb).
    unfold created_project, Project_new.
    cbn [Project.title Project.description Project.techStack
         Project.estimatedBudget].
    rewrite !trim_idemp. split_and!; try done; try lia.
    + rewrite Hl. cbn. by destruct l.
    + apply Forall_fmap. exact Hblank.
Qed.

Lemma app_inv_placed oid req s :
  app_inv s →
  validateBid req = [] →
  (∃ p, projects s !! body_projectId req = Some p
        ∧ Project.status p = "open") →
  bids s !! oid = None →
  (∀ k b, bids s !! k = Some b →
          ¬ (Bid.projectId b = body_projectId req
             ∧ Bid.developerId b = place_user req)) →
  app_inv (mkStore (projects s) (<[oid := placed_bid req]> (bids s))).
Proof.
  intros (Hhave & Huniq & Hassign & Hfits & Hvb & Hvp) Hv (p & Hp & Hopen)
    Hfresh Hnone.
  split_and!; [| | | |split].
  - intros k b Hb. cbn [bids projects] in *.
    apply lookup_insert_Some in Hb as [[<- <-]|[Hne Hb]]; [by eexists|].
    by eapply Hhave.
  - intros k1 k2 b1 b2 Hb1 Hb2 Hpid Hdev. cbn [bids] in *.
    apply lookup_insert_Some in Hb1 as [[<- <-]|[Hne1 Hb1]];
    apply lookup_insert_Some in Hb2 as [[<- <-]|[Hne2 Hb2]].
    + done.
    + by destruct (Hnone k2 b2 Hb2).
    + by destruct (Hnone k1 b1 Hb1).
    + exact (Huniq k1 k2 b1 b2 Hb1 Hb2 Hpid Hdev).
  - intros pid q Hq. cbn [bids projects] in *.
    destruct (Hassign pid q Hq) as [Hl|(Hst & k & b & Hb & Hrest)];
      [by left|].
    right. split; [done|]. exists k, b. split; [|done].
    rewrite lookup_insert_ne by congruence. done.
  - intros k b q Hb Hq. cbn [bids projects] in *.
    apply lookup_insert_Some in Hb as [[<- <-]|[Hne Hb]];
      [|exact (Hfits k b q Hb Hq)].
    left. split; [done|]. cbn in Hq. congruence.
  - intros k b Hb. cbn [bids] in Hb.
    apply lookup_insert_Some in Hb as [[<- <-]|[Hne Hb]];
      [|exact (Hvb k b Hb)].
    destruct (validateBid_fields req Hv) as [Ha Hm].
    unfold placed_bid, Bid_new. cbn [Bid.bidAmount Bid.message].
    by rewrite !trim_idemp.
  - exact Hvp.
Qed.

Lemma app_inv_accepted id b p s :
  app_inv s →
  bids s !! id = Some b →
  projects s !! Bid.projectId b = Some p →
  app_inv (accepted_store id b s).
Proof.
  intros (Hhave & Huniq & Hassign & Hfits & Hvb & Hvp) Hb Hp.
  split_and!; [| | | |split].
  - intros k b' Hb'.
    destruct (accepted_store_origin _ _ _ _ _ Hb Hb')
      as (b0 & Hb0 & (Hpid & _) & _).
    rewrite Hpid. destruct (Hhave k b0 Hb0) as [q Hq].
    destruct (decide (Bid.projectId b0 = Bid.projectId b)) as [->|Hne].
    + rewrite (accepted_store_project _ _ _ p) by done. by eexists.
    + rewrite accepted_store_project_other by done. by eexists.
  - intros k1 k2 b1 b2 Hb1 Hb2 Hpid Hdev.
    destruct (accepted_store_origin _ _ _ _ _ Hb Hb1)
      as (c1 & Hc1 & (Hp1 & Hd1 & _) & _).
    destruct (accepted_store_origin _ _ _ _ _ Hb Hb2)
      as (c2 & Hc2 & (Hp2 & Hd2 & _) & _).
    apply (Huniq k1 k2 c1 c2 Hc1 Hc2); congruence.
  - intros pid q Hq.
    destruct (accepted_store_project_lookup _ _ _ _ _ Hq)
      as [(-> & p0 & Hp0 & ->)|[Hne Hq0]].
    + right. split; [done|]. exists id, (Bid.set_status "accepted" b).
      split; [by apply accepted_store_self|].
      split_and!; [done|done|apply list_elem_of_here].
    + destruct (Hassign pid q Hq0) as [Hl|(Hst & k & c & Hc & Hcp & Hrest)];
        [by left|].
      right. split; [done|]. exists k, c. split; [|done].
      assert (k ≠ id) as Hk by congruence.
      rewrite accepted_store_other, Hc by done. cbn. f_equal.
      unfold reject_pending_sibling. rewrite bool_decide_eq_false_2; [done|].
      intros (? & _). congruence.
  - intros k b' q Hb' Hq.
    destruct (accepted_store_origin _ _ _ _ _ Hb Hb')
      as (b0 & Hb0 & (Hpid & _) & Hcase).
    rewrite Hpid in Hq.
    destruct Hcase as [[-> Hst]|[(Hk & Hsib & _ & Hst)|(Hk & -> & Hnp)]].
    + right. right. split; [done|].
      rewrite Hb in Hb0. injection Hb0 as <-.
      rewrite (accepted_store_project _ _ _ p) in Hq by done.
      by injection Hq as <-.
    + by right; left.
    + destruct (accepted_store_project_lookup _ _ _ _ _ Hq)
        as [(Hsame & p0 & Hp0 & ->)|[Hne Hq0]].
      * destruct (Hfits k b0 p0 Hb0 Hp0) as [[Hpend _]|[Hrej|[Hacc _]]].
        -- by destruct (Hnp Hsame).
        -- by right; left.
        -- by right; right.
      * exact (Hfits k b0 q Hb0 Hq0).
  - intros k b' Hb'.
    destruct (accepted_store_origin _ _ _ _ _ Hb Hb')
      as (b0 & Hb0 & (_ & _ & Ha & Hm & _) & _).
    rewrite Ha, Hm. exact (Hvb k b0 Hb0).
  - intros k q Hq.
    destruct (accepted_store_project_lookup _ _ _ _ _ Hq)
      as [(-> & p0 & Hp0 & ->)|[Hne Hq0]].
    + exact (Hvp _ p0 Hp0).
    + exact (Hvp k q Hq0).
Qed.

Lemma app_inv_rejected id b s :
  app_inv s →
  bids s !! id = Some b →
  app_inv (rejected_store id s).
Proof.
  intros (Hhave & Huniq & Hassign & Hfits & Hvb & Hvp) Hb.
  split_and!; [| | | |split].
  - intros k b' Hb'.
    destruct (rejected_store_origin _ _ _ _ _ Hb Hb')
      as (b0 & Hb0 & (Hpid & _) & _).
    rewrite Hpid. exact (Hhave k b0 Hb0).
  - intros k1 k2 b1 b2 Hb1 Hb2 Hpid Hdev.
    destruct (rejected_store_origin _ _ _ _ _ Hb Hb1)
      as (c1 & Hc1 & (Hp1 & Hd1 & _) & _).
    destruct (rejected_store_origin _ _ _ _ _ Hb Hb2)
      as (c2 & Hc2 & (Hp2 & Hd2 & _) & _).
    apply (Huniq k1 k2 c1 c2 Hc1 Hc2); congruence.
  - intros pid q Hq.
    destruct (Hassign pid q Hq)
      as [Hl|(Hst & k & c & Hc & Hcp & Hdev & Hdec)]; [by left|].
    right. split; [done|]. destruct (decide (k = id)) as [->|Hk].
    + exists id, (Bid.set_status "rejected" c).
      split; [rewrite (rejected_store_self _ b) by done; congruence|].
      split_and!; [done|done|].
      apply list_elem_of_further, list_elem_of_here.
    + exists k, c. split; [by rewrite rejected_store_other|done].
  - intros k b' q Hb' Hq.
    destruct (rejected_store_origin _ _ _ _ _ Hb Hb')
      as (b0 & Hb0 & (Hpid & _) & [[-> Hst]|[Hk ->]]).
    + by right; left.
    + exact (Hfits k b0 q Hb0 Hq).
  - intros k b' Hb'.
    destruct (rejected_store_origin _ _ _ _ _ Hb Hb')
      as (b0 & Hb0 & (_ & _ & Ha & Hm & _) & _).
    rewrite Ha, Hm. exact (Hvb k b0 Hb0).
  - exact Hvp.
Qed.

Lemma app_inv_serve r s : app_inv s → app_inv (serve r s).1.
Proof.
  intros Hinv. destruct r as [oid req|oid req|req]; cbn [serve].
  - destruct (createProject_cases oid req s)
      as [[Hs _]|(Hv & Hblank & Hfresh & Heq)].
    + destruct (createProject oid req s) as [s' re]. cbn in *. by subst s'.
    + rewrite Heq. cbn. by apply app_inv_created.
  - destruct (placeBid_cases_full oid req s)
      as [[Hs _]|(Hv & Hp & Hfresh & Hnone & Heq)].
    + destruct (placeBid oid req s) as [s' re]. cbn in *. by subst s'.
    + rewrite Heq. cbn. by apply app_inv_placed.
  - pose proof (decideBid_cases req s) as Hcase.
    destruct (decideBid req s) as [s' re]. cbn in *.
    destruct Hcase; eauto using app_inv_accepted, app_inv_rejected.
Qed.

Lemma app_inv_reachable s : app_reachable s → app_inv s.
Proof.
  induction 1 as [|s r _ IH]; [apply app_inv_empty|by apply app_inv_serve].
Qed.

Lemma app_reachable_serve_all rs s :
  app_reachable s → app_reachable (serve_all rs s).
Proof.
  revert s. induction rs as [|r rs IH]; intros s Hs; [done|].
  cbn. apply IH. by apply app_reachable_serve.
Qed.

Lemma app_store_reachable : app_reachable app_store.
Proof. apply app_reachable_serve_all, app_reachable_empty. Qed.

Lemma app_store_is_store_awarded : app_store = store_awarded.
Proof. by vm_compute. Qed.

(** ** Creating a project *)

(** X1. A plain request (ASCII texts, a budget up to 2^53) that passes
    [validateProject] and has no blank technology, served with a new [_id]:
    when its deadline is absent or parses to a date, exactly one project is
    created, with the trimmed title and description and that deadline, open,
    unassigned and owned by the requester; the bids and all other projects
    are untouched, and the answer is 201. When its deadline does not parse,
    which no validator checks, [save] fails: the answer is 500 and nothing
    is stored. *)
Theorem createProject_creates_open_project s oid req :
  validateProject req = [] →
  plain_create req →
  no_blank_tech req →
  projects s !! oid = None →
  (body_deadline req ≠ Some InvalidDate →
   let s' := (createProject oid req s).1 in
   reply_code (createProject oid req s).2 = 201%Z
   ∧ reply_data (createProject oid req s).2 = Some (oid, created_project req)
   ∧ projects s' !! oid = Some (created_project req)
   ∧ (∀ k, k ≠ oid → projects s' !! k = projects s !! k)
   ∧ size (projects s') = S (size (projects s))
   ∧ bids s' = bids s
   ∧ Project.title (created_project req) = trim (body_title req)
   ∧ Project.description (created_project req) = trim (body_description req)
   ∧ Project.deadline (created_project req) = deadline_of (body_deadline req)
   ∧ Project.status (created_project req) = "open"
   ∧ Project.assignedTo (created_project req) = None
   ∧ Project.createdBy (created_project req) = create_user req)
  ∧ (body_deadline req = Some InvalidDate →
     createProject oid req s
     = (s, reply_fail 500 "Failed to create project")).
Proof.
  intros Hv _ Hblank Hfresh. split.
  - intros Hdate s'. subst s'.
    rewrite createProject_created by done. cbn [fst snd projects bids].
    split_and!; try done.
    + by rewrite lookup_insert_eq.
    + intros k Hk. by rewrite lookup_insert_ne.
    + by apply map_size_insert_None.
    + unfold created_project, Project_new. cbn. by rewrite trim_idemp.
    + unfold created_project, Project_new. cbn. by rewrite trim_idemp.
  - intros Hdate. by apply createProject_invalid_date.
Qed.

Lemma createProject_creates_open_project_witness :
  (reply_code (createProject 1 create_shop empty_store).2 = 201%Z
   ∧ projects (createProject 1 create_shop empty_store).1 !! 1%N = Some shop
   ∧ bids (createProject 1 create_shop empty_store).1 = ∅)
  ∧ createProject 1 create_no_date empty_store
    = (empty_store, reply_fail 500 "Failed to create project").
Proof.
  split.
  - destruct (createProject_creates_open_project empty_store 1 create_shop)
      as [Hgood _].
    + by vm_compute.
    + by vm_compute.
    + repeat constructor; by vm_compute.
    + by vm_compute.
    + destruct Hgood as (H201 & _ & Hp & _ & _ & Hb & _); [discriminate|].
      split_and!; [exact H201|exact Hp|exact Hb].
  - destruct (createProject_creates_open_project empty_store 1 create_no_date)
      as [_ Hbad].
    + by vm_compute.
    + by vm_compute.
    + repeat constructor; by vm_compute.
    + by vm_compute.
    + by apply Hbad.
Defined.

(** X2. A request that passes [validateProject] but has a blank entry in its
    [techStack] array is refused by the schema's [required] validator when
    the project is saved: the answer is 500, not 400, and nothing is
    stored. *)
Theorem createProject_blank_technology s oid req :
  validateProject req = [] →
  ¬ no_blank_tech req →
  createProject oid req s = (s, reply_fail 500 "Failed to create project").
Proof. intros Hv Hblank. by apply createProject_blank. Qed.

Lemma createProject_blank_technology_witness :
  createProject 1 create_blank empty_store
  = (empty_store, reply_fail 500 "Failed to create project").
Proof.
  apply createProject_blank_technology; [by vm_compute|].
  intros Hall. unfold no_blank_tech in Hall. cbn in Hall.
  inversion Hall as [|? ? _ Htl]; subst.
  inversion Htl as [|? ? Hblank _]; subst.
  by apply Hblank.
Defined.

(** ** What every request does and does not do *)

(** X3. A request that is not answered with 200 or 201 leaves the store as
    it was: no handler writes before the point where it can still fail. *)
Theorem failed_request_changes_nothing r s :
  (serve r s).2 ≠ 200%Z → (serve r s).2 ≠ 201%Z → (serve r s).1 = s.
Proof.
  destruct r as [oid req|oid req|req]; cbn [serve]; intros H200 H201.
  - destruct (createProject_cases oid req s) as [[Hs _]|(_ & _ & _ & Heq)].
    + by destruct (createProject oid req s).
    + by rewrite Heq in H201.
  - destruct (placeBid_cases_full oid req s)
      as [[Hs _]|(_ & _ & _ & _ & Heq)].
    + by destruct (placeBid oid req s).
    + by rewrite Heq in H201.
  - pose proof (decideBid_cases req s) as Hcase.
    destruct (decideBid req s) as [s' re]. cbn in *.
    by destruct Hcase.
Qed.

Lemma failed_request_changes_nothing_witness :
  (serve (ReqDecideBid (accept 11 101)) app_store).1 = app_store
  ∧ (serve (ReqPlaceBid 103 (bid_of 23 4500)) app_store).1 = app_store.
Proof.
  split; apply failed_request_changes_nothing; by vm_compute.
Defined.

(** X4. Whatever requests were served, every document is still in the store
    and only its award fields may differ: a project keeps its title,
    description, technologies, budget, owner and deadline, a bid keeps its
    project, developer, amount, message and delivery date. A project that is
    not open is never open again, and a decided bid is never pending
    again. *)
Theorem requests_keep_documents rs s : keeps_documents s (serve_all rs s).
Proof. apply keeps_documents_serve_all. Qed.

(** X5. Once a project is not open, [placeBid] on it answers 400 after any
    further requests: no request reopens a project. *)
Theorem closed_project_stays_closed rs s p oid req :
  projects s !! body_projectId req = Some p →
  Project.status p ≠ "open" →
  validateBid req = [] →
  placeBid oid req (serve_all rs s)
  = (serve_all rs s, json_fail 400 "Project is not open for bidding").
Proof.
  intros Hp Hclosed Hv.
  destruct (keeps_documents_serve_all rs s) as [Hkeep _].
  destruct (Hkeep _ p Hp) as (p' & Hp' & _ & Hstill).
  eapply placeBid_not_open; eauto.
Qed.

Lemma closed_project_stays_closed_witness :
  placeBid 103 (bid_of 23 4500)
    (serve_all [ReqDecideBid (reject 10 100);
                ReqCreateProject 2 create_shop] app_store)
  = (serve_all [ReqDecideBid (reject 10 100);
                ReqCreateProject 2 create_shop] app_store,
     json_fail 400 "Project is not open for bidding").
Proof.
  apply closed_project_stays_closed
    with (p := Project.update "in progress" 20 shop); by vm_compute.
Defined.

(** X6. Accepting a bid is confined to the bid's project: every other
    project and every bid of another project, pending or not, is the same
    after the call, and no document is added or removed. *)
Theorem accept_confined_to_project s req b p :
  body_status req = "accepted" →
  bids s !! params_id req = Some b →
  projects s !! Bid.projectId b = Some p →
  Project.createdBy p = status_user req →
  let s' := (decideBid req s).1 in
  (∀ q, q ≠ Bid.projectId b → projects s' !! q = projects s !! q)
  ∧ (∀ k c, bids s !! k = Some c → Bid.projectId c ≠ Bid.projectId b →
            bids s' !! k = Some c)
  ∧ dom (projects s') = dom (projects s)
  ∧ dom (bids s') = dom (bids s).
Proof.
  intros Hst Hb Hp Ho s'. subst s'.
  erewrite decideBid_accepted by done. cbn [fst].
  split_and!.
  - intros q Hq. by apply accepted_store_project_other.
  - intros k c Hc Hne.
    assert (k ≠ params_id req) as Hk by congruence.
    rewrite accepted_store_other, Hc by done. cbn. f_equal.
    unfold reject_pending_sibling. rewrite bool_decide_eq_false_2; [done|].
    by intros (? & _).
  - unfold accepted_store. cbn [projects]. apply dom_alter_L.
  - apply set_eq. intros k. rewrite !elem_of_dom.
    destruct (decide (k = params_id req)) as [->|Hk].
    + rewrite accepted_store_self, Hb by done. split; by eexists.
    + rewrite accepted_store_other by done. by rewrite fmap_is_Some.
Qed.

Lemma accept_confined_to_project_witness :
  projects (decideBid (accept 10 100)
              (serve_all [ReqCreateProject 2 create_shop;
                          ReqPlaceBid 200 (mkPlaceReq 21 2 300
                            "I can deliver this project" None)]
                 store_bids)).1 !! 2%N
  = Some shop.
Proof.
  destruct (accept_confined_to_project
              (serve_all [ReqCreateProject 2 create_shop;
                          ReqPlaceBid 200 (mkPlaceReq 21 2 300
                            "I can deliver this project" None)]
                 store_bids)
              (accept 10 100) (placed_bid (bid_of 20 4500)) shop)
    as (Hproj & _); [by vm_compute..|].
  rewrite Hproj by discriminate. by vm_compute.
Defined.

(** ** What holds in every store of the application *)

(** X7. In every store that requests build from the empty database, a
    developer has at most one bid on a project. *)
Theorem one_bid_per_developer_per_project s :
  app_reachable s → unique_pair s.
Proof. intros Hr. by destruct (app_inv_reachable s Hr) as (_ & ? & _). Qed.

Lemma one_bid_per_developer_per_project_witness : unique_pair app_store.
Proof.
  apply one_bid_per_developer_per_project.
  unfold app_store, serve_all, history. cbn [foldl].
  do 5 apply app_reachable_serve. apply app_reachable_empty.
Defined.

(** X8. In every store of the application a project is either open and
    unassigned, or in progress and assigned to a developer who has a bid on
    it that is accepted or rejected; no project is ever 'completed'. *)
Theorem project_open_or_assigned s :
  app_reachable s → project_assignment s.
Proof.
  intros Hr. by destruct (app_inv_reachable s Hr) as (_ & _ & ? & _).
Qed.

Lemma project_open_or_assigned_witness : project_assignment app_store.
Proof.
  apply project_open_or_assigned.
  unfold app_store, serve_all, history. cbn [foldl].
  do 5 apply app_reachable_serve. apply app_reachable_empty.
Defined.

(** A [placeBid] that is in flight while an accept is served is outside
    [app_reachable]: it has seen the project open, and its bid is stored
    pending on a project that is in progress by then. *)
Lemma bid_in_flight_during_accept :
  late_bid.2 = PlDone (json_ok 201 "Bid placed successfully" 103
                         (placed_bid (bid_of 23 4500)))
  ∧ Bid.status <$> bids late_bid.1 !! 103%N = Some "pending"
  ∧ Project.status <$> projects late_bid.1 !! 1%N = Some "in progress"
  ∧ ¬ bid_status_fits late_bid.1.
Proof.
  do 3 (split; [by vm_compute|]).
  intros Hfits.
  destruct (Hfits 103%N (placed_bid (bid_of 23 4500))
              (Project.update "in progress" 20 shop))
    as [[_ Hopen]|[Hrej|[Hacc _]]]; by vm_compute.
Qed.

(** X9. As long as requests are served one after the other (each handler
    runs to its answer before the next request starts), a bid is pending
    only on an open project and accepted only on a project in progress, and
    its status is one of pending, rejected, accepted. Requests in flight
    together are not covered, and break it: see
    [bid_in_flight_during_accept]. *)
Theorem bid_status_fits_project s :
  app_reachable s → bid_status_fits s.
Proof.
  intros Hr. by destruct (app_inv_reachable s Hr) as (_ & _ & _ & ? & _).
Qed.

Lemma bid_status_fits_project_witness : bid_status_fits app_store.
Proof.
  apply bid_status_fits_project.
  unfold app_store, serve_all, history. cbn [foldl].
  do 5 apply app_reachable_serve. apply app_reachable_empty.
Defined.

(** X10. In every store of the application the documents satisfy what the
    route validators check: a bid has a non-negative amount and a trimmed
    message of 10 to 500 characters; a project has a non-negative budget, a
    title of 3 to 100 and a description of 10 to 1000 characters, and at
    least one technology, none of them empty. *)
Theorem stored_documents_are_valid s :
  app_reachable s → stored_documents_valid s.
Proof.
  intros Hr. by destruct (app_inv_reachable s Hr) as (_ & _ & _ & _ & ?).
Qed.

Lemma stored_documents_are_valid_witness : stored_documents_valid app_store.
Proof.
  apply stored_documents_are_valid.
  unfold app_store, serve_all, history. cbn [foldl].
  do 5 apply app_reachable_serve. apply app_reachable_empty.
Defined.

(** With an [_id] that casts, and requests served one after the other, each
    bid's project exists and [decideBid] does not reach its catch block. *)
Lemma decideBid_codes s req :
  app_reachable s →
  statusCode (decideBid req s).2 ∈ [200%Z; 400%Z; 403%Z; 404%Z].
Proof.
  intros Hr. destruct (app_inv_reachable s Hr) as (Hhave & _).
  destruct (decideBid_cases req s) as [ | |b Hb Hp| | | ]; cbn.
  - apply list_elem_of_further, list_elem_of_here.
  - do 3 apply list_elem_of_further. apply list_elem_of_here.
  - destruct (Hhave _ b Hb) as [p Hp']. congruence.
  - do 2 apply list_elem_of_further. apply list_elem_of_here.
  - apply list_elem_of_here.
  - apply list_elem_of_here.
Qed.

Lemma decideBid_http_invalid cast req s :
  http_status req ∉ ["accepted"; "rejected"] →
  decideBid_http cast req s
  = (s, json_fail 400
          ("Status must be either " ++ dq ++ "accepted" ++ dq
           ++ " or " ++ dq ++ "rejected" ++ dq)).
Proof.
  intros Hst. unfold decideBid_http. by rewrite bool_decide_eq_false_2.
Qed.

Lemma decideBid_http_cast_error cast req s :
  http_status req ∈ ["accepted"; "rejected"] →
  cast (http_id req) = None →
  decideBid_http cast req s
  = (s, json_fail 500 "Failed to update bid status").
Proof.
  intros Hst Hcast. unfold decideBid_http.
  rewrite bool_decide_eq_true_2 by done. cbn [negb]. by rewrite Hcast.
Qed.

Lemma decideBid_http_cast cast req s id :
  http_status req ∈ ["accepted"; "rejected"] →
  cast (http_id req) = Some id →
  decideBid_http cast req s
  = decideBid (mkStatusReq (http_user req) id (http_status req)) s.
Proof.
  intros Hst Hcast. unfold decideBid_http.
  rewrite bool_decide_eq_true_2 by done. cbn [negb]. by rewrite Hcast.
Qed.

(** X11. As long as requests are served one after the other, each bid's
    project exists, and [PUT /bids/:id/status] ends in its catch block in
    one case only: a valid [status] sent with an [:id] that does not cast
    to an ObjectId. It answers 500 then and writes nothing; with an [:id]
    that casts it answers 200, 403 or 404, and 400 for another [status]
    whatever the [:id]. *)
Theorem decideBid_500_only_for_bad_id cast s req :
  app_reachable s →
  bids_have_projects s
  ∧ (statusCode (decideBid_http cast req s).2 = 500%Z
     ↔ http_status req ∈ ["accepted"; "rejected"]
       ∧ cast (http_id req) = None)
  ∧ (http_status req ∉ ["accepted"; "rejected"] →
     statusCode (decideBid_http cast req s).2 = 400%Z)
  ∧ (http_status req ∈ ["accepted"; "rejected"] →
     is_Some (cast (http_id req)) →
     statusCode (decideBid_http cast req s).2 ∈ [200%Z; 403%Z; 404%Z])
  ∧ (cast (http_id req) = None → (decideBid_http cast req s).1 = s).
Proof.
  intros Hr. split; [by destruct (app_inv_reachable s Hr) as (? & _)|].
  destruct (decide (http_status req ∈ ["accepted"; "rejected"])) as [Hst|Hst].
  - destruct (cast (http_id req)) as [id|] eqn:Hcast.
    + rewrite (decideBid_http_cast _ _ _ id) by done.
      pose proof (decideBid_codes s
                    (mkStatusReq (http_user req) id (http_status req)) Hr)
        as Hcodes.
      assert (statusCode
                (decideBid
                   (mkStatusReq (http_user req) id (http_status req)) s).2
              ≠ 400%Z) as H400.
      { destruct (decideBid_cases
                    (mkStatusReq (http_user req) id (http_status req)) s);
          cbn; done. }
      apply elem_of_cons in Hcodes as [Hc|Hcodes];
        [|apply elem_of_cons in Hcodes as [Hc|Hcodes]; [done|]].
      * rewrite Hc. split_and!; [split; [done|by intros [_ ?]]|done| |done].
        intros _ _. apply list_elem_of_here.
      * split_and!; [split; [|by intros [_ ?]]|done| |done].
        -- intros H500. rewrite H500 in Hcodes.
           apply elem_of_cons in Hcodes as [?|Hcodes]; [done|].
           by apply list_elem_of_singleton in Hcodes.
        -- intros _ _. by apply list_elem_of_further.
    + rewrite decideBid_http_cast_error by done. cbn.
      split_and!; [done|done| |done]. by intros _ [? ?].
  - rewrite decideBid_http_invalid by done. cbn.
    split_and!; [split; [done|by intros [? _]]|done|done|done].
Qed.

Lemma decideBid_500_only_for_bad_id_witness :
  statusCode
    (decideBid_http cast_hex24
       (mkStatusHttp 10 "000000000000000000000066" "rejected") app_store).2
  = 200%Z
  ∧ statusCode
      (decideBid_http cast_hex24 (mkStatusHttp 10 "102" "rejected")
         app_store).2
    = 500%Z.
Proof.
  pose proof (decideBid_500_only_for_bad_id cast_hex24 app_store
                (mkStatusHttp 10 "102" "rejected")) as Hbad.
  destruct Hbad as (_ & H500 & _).
  { unfold app_store, serve_all, history. cbn [foldl].
    do 5 apply app_reachable_serve. apply app_reachable_empty. }
  split; [by vm_compute|].
  apply H500. split; [|by vm_compute].
  apply list_elem_of_further, list_elem_of_here.
Defined.



(** X13. A project that was just created takes a first bid: with requests
    served one after the other, after a plain [createProject] answered 201,
    every validated plain [placeBid] on the new project (an ASCII message,
    an amount up to 2^53, an [estimatedDelivery] that is absent or parses
    to a date) with a new bid [_id] answers 201. *)
Theorem created_project_takes_bid s pid creq oid breq :
  app_reachable s →
  plain_create creq →
  reply_code (createProject pid creq s).2 = 201%Z →
  plain_place breq →
  validateBid breq = [] →
  body_projectId breq = pid →
  bids s !! oid = None →
  statusCode (placeBid oid breq (createProject pid creq s).1).2 = 201%Z.
Proof.
  intros Hr _ H201 _ Hv Hpid Hfresh.
  destruct (app_inv_reachable s Hr) as (Hhave & _).
  destruct (createProject_cases pid creq s)
    as [[_ Hne]|(_ & _ & Hnew & Heq)]; [done|].
  rewrite Heq. cbn [fst].
  erewrite placeBid_created; [done|done| | | |done].
  - cbn [projects]. rewrite Hpid. apply lookup_insert_eq.
  - done.
  - cbn [bids]. intros k b Hb [Hbp _].
    destruct (Hhave k b Hb) as [p Hp]. congruence.
Qed.

Lemma created_project_takes_bid_witness :
  statusCode
    (placeBid 200 (mkPlaceReq 21 2 300 "I can deliver this project" None)
       (createProject 2 create_shop app_store).1).2 = 201%Z.
Proof.
  apply created_project_takes_bid; try by vm_compute.
  unfold app_store, serve_all, history. cbn [foldl].
  do 5 apply app_reachable_serve. apply app_reachable_empty.
Defined.

(** ** Two [placeBid] requests in flight *)

Ltac unfold_place_step :=
  unfold place_step, place_step_code, mbind, M_bind, mret, M_ret,
    Project_findById, Bid_findOne, Bid_insert, set_bids; simpl.

(** Run on its own for its three steps, a request is the handler. *)
Lemma place_steps_placeBid oid req s :
  place_steps 3 oid req PlStart s
  = ((placeBid oid req s).1, PlDone (placeBid oid req s).2).
Proof.
  unfold place_steps. unfold_place_step. unfold_handler.
  case_bool_decide as Hv; simpl; [|done].
  destruct (projects s !! body_projectId req) as [p|]; simpl; [|done].
  case_bool_decide as Hopen; simpl; [|done].
  destruct (head _) as [kv|]; simpl; [done|].
  destruct (Bid_validate _); simpl; [|done].
  case_bool_decide; simpl; [done|].
  case_bool_decide; simpl; done.
Qed.

Lemma findOne_Some (m : gmap ObjectId Bid.t) pid dev k b :
  m !! k = Some b → Bid.projectId b = pid → Bid.developerId b = dev →
  is_Some (head (map_to_list
    (filter (λ kv, Bid.projectId kv.2 = pid ∧ Bid.developerId kv.2 = dev)
            m))).
Proof.
  intros Hb Hpid Hdev. destruct (head _) as [kv|] eqn:Hh; [by eexists|].
  pose proof (proj1 (findOne_None _ _ _) Hh) as Hnone.
  by destruct (Hnone k b Hb).
Qed.

Lemma place_step_start oid req s p :
  validateBid req = [] →
  projects s !! body_projectId req = Some p →
  Project.status p = "open" →
  place_step oid req PlStart s = (s, PlFindOne).
Proof.
  intros Hv Hp Hopen. unfold_place_step.
  rewrite bool_decide_eq_true_2 by done. simpl. rewrite Hp.
  by rewrite bool_decide_eq_true_2.
Qed.

Lemma place_step_findOne_none oid req s :
  (∀ k b, bids s !! k = Some b →
          ¬ (Bid.projectId b = body_projectId req
             ∧ Bid.developerId b = place_user req)) →
  place_step oid req PlFindOne s = (s, PlSave (placed_bid req)).
Proof.
  intros Hnone. unfold_place_step.
  by rewrite (proj2 (findOne_None _ _ _) Hnone).
Qed.

Lemma place_step_findOne_some oid req s k b :
  bids s !! k = Some b →
  Bid.projectId b = body_projectId req →
  Bid.developerId b = place_user req →
  place_step oid req PlFindOne s
  = (s, PlDone (json_fail 409
                  "You have already placed a bid on this project")).
Proof.
  intros Hb Hpid Hdev. unfold_place_step.
  by destruct (findOne_Some _ _ _ _ _ Hb Hpid Hdev) as [kv ->].
Qed.

Lemma place_step_save oid req s :
  validateBid req = [] →
  bids s !! oid = None →
  (∀ k b, bids s !! k = Some b →
          ¬ (Bid.projectId b = body_projectId req
             ∧ Bid.developerId b = place_user req)) →
  place_step oid req (PlSave (placed_bid req)) s
  = (mkStore (projects s) (<[oid := placed_bid req]> (bids s)),
     PlDone (json_ok 201 "Bid placed successfully" oid (placed_bid req))).
Proof.
  intros Hv Hfresh Hnone. unfold_place_step.
  unfold placed_bid. rewrite validateBid_Bid_validate by done. simpl.
  rewrite Hfresh. rewrite bool_decide_eq_false_2 by (by intros []).
  rewrite bool_decide_eq_true_2; [done|]. by apply filter_pair_empty.
Qed.

(** The unique index on [{ projectId, developerId }] refuses the insert. *)
Lemma place_step_save_duplicate oid req s k b :
  validateBid req = [] →
  bids s !! oid = None →
  bids s !! k = Some b →
  Bid.projectId b = body_projectId req →
  Bid.developerId b = place_user req →
  place_step oid req (PlSave (placed_bid req)) s
  = (s, PlDone (json_fail 500 "Failed to place bid")).
Proof.
  intros Hv Hfresh Hb Hpid Hdev. unfold_place_step.
  unfold placed_bid. rewrite validateBid_Bid_validate by done. simpl.
  rewrite Hfresh. rewrite bool_decide_eq_false_2 by (by intros []).
  rewrite bool_decide_eq_false_2; [done|].
  intros Hempty. by destruct (proj1 (filter_pair_empty _ _ _) Hempty k b Hb).
Qed.

Lemma place_race_sym s0 oidA reqA oidB reqB s pcA pcB :
  place_race s0 oidA reqA oidB reqB (s, pcA, pcB) →
  place_race s0 oidB reqB oidA reqA (s, pcB, pcA).
Proof.
  intros [Hp [(Hb & HA & HB)|[(Hb & HA & HB)|(Hb & HB & HA)]]];
    (split; [done|]); eauto 10.
Qed.

Lemma in_flight_left req pc :
  in_flight req pc → (1 ≤ place_left pc)%nat.
Proof. intros [->|[->| ->]]; cbn; lia. Qed.

(** A step of one of the two racing requests. *)
Lemma place_race_step s0 oid req oid' req' p s pc pc' :
  validateBid req = [] →
  body_projectId req' = body_projectId req →
  place_user req' = place_user req →
  oid ≠ oid' →
  projects s0 !! body_projectId req = Some p →
  Project.status p = "open" →
  bids s0 !! oid = None →
  bids s0 !! oid' = None →
  (∀ k b, bids s0 !! k = Some b →
          ¬ (Bid.projectId b = body_projectId req
             ∧ Bid.developerId b = place_user req)) →
  place_race s0 oid req oid' req' (s, pc, pc') →
  place_race s0 oid req oid' req'
    ((place_step oid req pc s).1, (place_step oid req pc s).2, pc')
  ∧ (place_left (place_step oid req pc s).2 ≤ pred (place_left pc))%nat.
Proof.
  intros Hv Hpid Hdev Hne Hp Hopen Hfresh Hfresh' Hnone [Hps Hcase].
  assert (projects s !! body_projectId req = Some p) as Hp' by congruence.
  destruct Hcase as [(Hb & HA & HB)|[(Hb & HA & HB)|(Hb & HB & HA)]].
  - (* neither bid is stored *)
    assert (∀ k b, bids s !! k = Some b →
                   ¬ (Bid.projectId b = body_projectId req
                      ∧ Bid.developerId b = place_user req)) as Hnone'.
    { by rewrite Hb. }
    destruct HA as [->|[->| ->]].
    + rewrite (place_step_start oid req s p) by done. cbn.
      split; [|lia]. split; [done|]. left. unfold in_flight. eauto.
    + rewrite place_step_findOne_none by done. cbn.
      split; [|lia]. split; [done|]. left. unfold in_flight. eauto.
    + rewrite place_step_save by (done || congruence). cbn.
      split; [|lia]. split; [done|]. right. left.
      rewrite Hb. unfold placed, not_placed. eauto.
  - (* this request has stored its bid *)
    unfold placed in HA. subst pc. cbn. split; [|lia].
    split; [done|]. right. left. done.
  - (* the other request has stored its bid *)
    assert (bids s !! oid' = Some (placed_bid req')) as Hother.
    { rewrite Hb. apply lookup_insert_eq. }
    assert (bids s !! oid = None) as Hfree.
    { rewrite Hb. by rewrite lookup_insert_ne. }
    destruct HA as [[->|[->| ->]]|(r & -> & Hr)].
    + rewrite (place_step_start oid req s p) by done. cbn.
      split; [|lia]. split; [done|]. right. right.
      unfold not_placed, in_flight. eauto 10.
    + rewrite (place_step_findOne_some oid req s oid' (placed_bid req'))
        by done. cbn.
      split; [|lia]. split; [done|]. right. right.
      split_and!; [done..|]. right. eexists. split; [done|].
      apply list_elem_of_here.
    + rewrite (place_step_save_duplicate oid req s oid' (placed_bid req'))
        by done. cbn.
      split; [|lia]. split; [done|]. right. right.
      split_and!; [done..|]. right. eexists. split; [done|].
      apply list_elem_of_further, list_elem_of_here.
    + cbn. split; [|lia]. split; [done|]. right. right.
      split_and!; [done..|]. right. eauto.
Qed.

Section TwoPlaces.

(** Two valid requests of one developer on one open project that has no bid
    of this developer yet; [new Bid] gives them different [_id]s. *)
Variables (s0 : Store) (oidA oidB : ObjectId) (reqA reqB : PlaceReq).
Variable p : Project.t.
Hypothesis validA : validateBid reqA = [].
Hypothesis validB : validateBid reqB = [].
Hypothesis same_project_req : body_projectId reqB = body_projectId reqA.
Hypothesis same_developer : place_user reqB = place_user reqA.
Hypothesis two_ids : oidA ≠ oidB.
Hypothesis project_found : projects s0 !! body_projectId reqA = Some p.
Hypothesis project_open : Project.status p = "open".
Hypothesis freshA : bids s0 !! oidA = None.
Hypothesis freshB : bids s0 !! oidB = None.
Hypothesis no_bid_yet :
  ∀ k b, bids s0 !! k = Some b →
         ¬ (Bid.projectId b = body_projectId reqA
            ∧ Bid.developerId b = place_user reqA).

Lemma place_interleave_race sched : ∀ s pcA pcB,
  place_race s0 oidA reqA oidB reqB (s, pcA, pcB) →
  ∃ s' pcA' pcB',
    place_interleave oidA reqA oidB reqB sched (s, pcA, pcB)
    = (s', pcA', pcB')
    ∧ place_race s0 oidA reqA oidB reqB (s', pcA', pcB')
    ∧ (place_left pcA' ≤ place_left pcA - turns true sched)%nat
    ∧ (place_left pcB' ≤ place_left pcB - turns false sched)%nat.
Proof.
  induction sched as [|who sched IH]; intros s pcA pcB Hrace.
  - exists s, pcA, pcB. cbn [place_interleave turns].
    split; [done|]. split; [done|]. split; lia.
  - destruct who; cbn [place_interleave turns].
    + destruct (place_race_step s0 oidA reqA oidB reqB p s pcA pcB validA
                  same_project_req same_developer two_ids project_found
                  project_open freshA freshB no_bid_yet Hrace)
        as [Hrace' Hleft].
      destruct (place_step oidA reqA pcA s) as [s1 pcA1]. cbn [fst snd] in *.
      destruct (IH s1 pcA1 pcB Hrace')
        as (s' & pcA' & pcB' & -> & ? & HlA & HlB).
      exists s', pcA', pcB'. rewrite bool_decide_eq_true_2 by done.
      rewrite bool_decide_eq_false_2 by done.
      split; [done|]. split; [done|]. split; lia.
    + assert (projects s0 !! body_projectId reqB = Some p) as HpB
        by by rewrite same_project_req.
      assert (∀ k b, bids s0 !! k = Some b →
                     ¬ (Bid.projectId b = body_projectId reqB
                        ∧ Bid.developerId b = place_user reqB)) as HnoneB.
      { intros k b Hb. rewrite same_project_req, same_developer.
        exact (no_bid_yet k b Hb). }
      destruct (place_race_step s0 oidB reqB oidA reqA p s pcB pcA validB
                  (eq_sym same_project_req) (eq_sym same_developer)
                  (not_eq_sym two_ids) HpB project_open freshB freshA HnoneB
                  (place_race_sym _ _ _ _ _ _ _ _ Hrace))
        as [Hrace' Hleft].
      apply place_race_sym in Hrace'.
      destruct (place_step oidB reqB pcB s) as [s1 pcB1]. cbn [fst snd] in *.
      destruct (IH s1 pcA pcB1 Hrace')
        as (s' & pcA' & pcB' & -> & ? & HlA & HlB).
      exists s', pcA', pcB'. rewrite bool_decide_eq_false_2 by done.
      rewrite bool_decide_eq_true_2 by done.
      split; [done|]. split; [done|]. split; lia.
Qed.

(** X14. When two validated plain [placeBid] requests (ASCII messages,
    amounts up to 2^53, [estimatedDelivery] absent or parsing to a date) of
    one developer on one open project, on which the developer has no bid
    yet, are in flight together with different new [_id]s, then under every
    schedule of their store operations that lets both finish, exactly one of
    them answers 201 and stores its bid; the other answers 409 (its
    [findOne] saw the bid) or 500 (the unique index refused its insert), and
    the store holds one bid of the developer on the project, not two. *)
Theorem racing_bids_store_one sched :
  plain_place reqA → plain_place reqB →
  (3 ≤ turns true sched)%nat →
  (3 ≤ turns false sched)%nat →
  ∃ s' rA rB,
    place_interleave oidA reqA oidB reqB sched (s0, PlStart, PlStart)
    = (s', PlDone rA, PlDone rB)
    ∧ projects s' = projects s0
    ∧ ((statusCode rA = 201%Z ∧ statusCode rB ∈ [409%Z; 500%Z]
        ∧ bids s' = <[oidA := placed_bid reqA]> (bids s0))
       ∨ (statusCode rB = 201%Z ∧ statusCode rA ∈ [409%Z; 500%Z]
          ∧ bids s' = <[oidB := placed_bid reqB]> (bids s0))).
Proof.
  intros _ _ HtA HtB.
  destruct (place_interleave_race sched s0 PlStart PlStart)
    as (s' & pcA' & pcB' & Hrun & [Hp Hcase] & HlA & HlB).
  { split; [done|]. left. unfold in_flight. eauto. }
  cbn [place_left] in HlA, HlB.
  destruct pcA' as [| | |rA]; cbn [place_left] in HlA; try lia.
  destruct pcB' as [| | |rB]; cbn [place_left] in HlB; try lia.
  exists s', rA, rB. split; [done|]. split; [done|].
  destruct Hcase as [(_ & HA & _)|[(Hb & HA & HB)|(Hb & HB & HA)]].
  - apply in_flight_left in HA. cbn in HA. lia.
  - left. unfold placed in HA. injection HA as ->.
    destruct HB as [HB|(r & [= <-] & Hr)];
      [apply in_flight_left in HB; cbn in HB; lia|done].
  - right. unfold placed in HB. injection HB as ->.
    destruct HA as [HA|(r & [= <-] & Hr)];
      [apply in_flight_left in HA; cbn in HA; lia|done].
Qed.

End TwoPlaces.

Lemma racing_bids_store_one_witness :
  (∃ s' rA rB,
     place_interleave 101 (bid_of 21 4000) 103 double_click both_check_first
       (store0, PlStart, PlStart)
     = (s', PlDone rA, PlDone rB)
     ∧ projects s' = projects store0
     ∧ ((statusCode rA = 201%Z ∧ statusCode rB ∈ [409%Z; 500%Z]
         ∧ bids s' = <[101%N := placed_bid (bid_of 21 4000)]> (bids store0))
        ∨ (statusCode rB = 201%Z ∧ statusCode rA ∈ [409%Z; 500%Z]
           ∧ bids s' = <[103%N := placed_bid double_click]> (bids store0))))
  ∧ (place_interleave 101 (bid_of 21 4000) 103 double_click both_check_first
       (store0, PlStart, PlStart)).2
    = PlDone (json_fail 500 "Failed to place bid").
Proof.
  split; [|by vm_compute].
  apply (racing_bids_store_one store0 101 103 (bid_of 21 4000) double_click
           shop); try (by vm_compute); vm_compute; lia.
Defined.

(** * The listing routes *)

(** *** Pages of a list *)

Lemma ceil_div_covers (n limit : nat) :
  (0 < limit)%nat → (n ≤ ceil_div n limit * limit)%nat.
Proof.
  intros Hl. unfold ceil_div.
  pose proof (Nat.div_mod (n + (limit - 1)) limit) as Hdm.
  pose proof (Nat.mod_upper_bound (n + (limit - 1)) limit) as Hm.
  nia.
Qed.

Lemma ceil_div_tight (n limit : nat) :
  (0 < limit)%nat → (0 < n)%nat → ((ceil_div n limit - 1) * limit < n)%nat.
Proof.
  intros Hl Hn. unfold ceil_div.
  pose proof (Nat.div_mod (n + (limit - 1)) limit) as Hdm.
  pose proof (Nat.mod_upper_bound (n + (limit - 1)) limit) as Hm.
  nia.
Qed.

Lemma ceil_div_zero (n limit : nat) :
  (0 < limit)%nat → ceil_div n limit = 0%nat ↔ n = 0%nat.
Proof.
  intros Hl. split.
  - intros Hz. pose proof (ceil_div_covers n limit Hl). rewrite Hz in *. lia.
  - intros ->. unfold ceil_div. apply Nat.div_small. lia.
Qed.

(** A page is past the end exactly from [ceil_div] on. *)
Lemma page_before_last (n limit page : nat) :
  (0 < limit)%nat →
  (page * limit < n)%nat ↔ (page < ceil_div n limit)%nat.
Proof.
  intros Hl. split.
  - intros Hlt. pose proof (ceil_div_covers n limit Hl). nia.
  - intros Hlt.
    assert (0 < n)%nat as Hn.
    { destruct n; [|lia]. rewrite (proj2 (ceil_div_zero 0 limit Hl)) in Hlt;
        [lia|done]. }
    pose proof (ceil_div_tight n limit Hl Hn). nia.
Qed.

Lemma skip_limit_chunks {A} (limit k : nat) : ∀ l : list A,
  (List.length l ≤ k * limit)%nat →
  List.concat ((λ i, skip_limit (i * limit) limit l) <$> seq 0 k) = l.
Proof.
  induction k as [|k IH]; intros l Hlen.
  - destruct l; [done|]. cbn in Hlen. lia.
  - cbn [seq fmap list_fmap List.concat]. unfold skip_limit at 1.
    rewrite Nat.mul_0_l. cbn [drop].
    transitivity (take limit l ++ drop limit l)%list; [|apply take_drop].
    f_equal.
    etrans; [|apply (IH (drop limit l)); rewrite length_drop; lia].
    f_equal. rewrite <- seq_shift.
    change (map S (seq 0 k)) with (S <$> seq 0 k).
    rewrite <- list_fmap_compose.
    apply list_fmap_ext. intros _ i _. cbn. unfold skip_limit.
    rewrite drop_drop. do 2 f_equal.
Qed.

(** The pages [1 .. ceil_div (length l) limit] of a list, one after the
    other, are the list. *)
Lemma pages_concat {A} (limit : positive) (l : list A) :
  List.concat ((λ n : positive,
             skip_limit ((Pos.to_nat n - 1) * Pos.to_nat limit)
               (Pos.to_nat limit) l)
          <$> pages_upto (ceil_div (List.length l) (Pos.to_nat limit)))
  = l.
Proof.
  unfold pages_upto. rewrite <- list_fmap_compose.
  rewrite <- (skip_limit_chunks (Pos.to_nat limit)
                (ceil_div (List.length l) (Pos.to_nat limit)) l) at 2
    by (apply ceil_div_covers; lia).
  f_equal. apply list_fmap_ext. intros _ i _. cbn.
  rewrite SuccNat2Pos.id_succ. do 2 f_equal. lia.
Qed.

Lemma skip_limit_length {A} (skip limit : nat) (l : list A) :
  List.length (skip_limit skip limit l)
  = Nat.min limit (List.length l - skip).
Proof. unfold skip_limit. by rewrite length_take, length_drop. Qed.

Lemma skip_limit_subseteq {A} (skip limit : nat) (l : list A) :
  skip_limit skip limit l ⊆ l.
Proof.
  unfold skip_limit. etrans; [apply subseteq_take|apply subseteq_drop].
Qed.

Section ListingFacts.

Variable createdAt : ObjectId → Z.

#[local] Existing Instance my_filter_dec.
#[local] Existing Instance open_filter_dec.

#[local] Instance newer_first_total {A} : Total (@newer_first createdAt A).
Proof. intros x y. unfold newer_first. lia. Qed.

#[local] Instance newer_first_trans {A} :
  Transitive (@newer_first createdAt A).
Proof. intros x y z. unfold newer_first. lia. Qed.

Lemma sort_newest_perm {A} (l : list (ObjectId * A)) :
  sort_newest createdAt l ≡ₚ l.
Proof. apply merge_sort_Permutation. Qed.

Lemma sort_newest_sorted {A} (l : list (ObjectId * A)) :
  StronglySorted (newer_first createdAt) (sort_newest createdAt l).
Proof. apply StronglySorted_merge_sort; apply _. Qed.

Lemma sort_newest_length {A} (l : list (ObjectId * A)) :
  List.length (sort_newest createdAt l) = List.length l.
Proof. by rewrite sort_newest_perm. Qed.

Lemma skip_limit_sorted {A} (skip limit : nat) (l : list (ObjectId * A)) :
  StronglySorted (newer_first createdAt) l →
  StronglySorted (newer_first createdAt) (skip_limit skip limit l).
Proof.
  intros Hs. unfold skip_limit.
  rewrite <- (take_drop skip l) in Hs.
  apply StronglySorted_app_1_r in Hs.
  rewrite <- (take_drop limit (drop skip l)) in Hs.
  by apply StronglySorted_app_1_l in Hs.
Qed.

(** *** [GET /bids/my] *)

Lemma my_bids_sorted_elem_of req s k b :
  (k, b) ∈ my_bids_sorted createdAt req s
  ↔ bids s !! k = Some b ∧ my_filter req (k, b).
Proof.
  unfold my_bids_sorted. rewrite sort_newest_perm.
  rewrite elem_of_map_to_list. apply map_lookup_filter_Some.
Qed.

Lemma my_bids_sorted_NoDup req s : NoDup (my_bids_sorted createdAt req s).
Proof.
  unfold my_bids_sorted. rewrite sort_newest_perm. apply NoDup_map_to_list.
Qed.

Lemma my_bids_sorted_length req s :
  List.length (my_bids_sorted createdAt req s)
  = size (filter (my_filter req) (bids s)).
Proof.
  unfold my_bids_sorted. by rewrite sort_newest_length, length_map_to_list.
Qed.

Lemma my_bids_pages req s :
  List.concat ((λ n, items_of (myBids createdAt (my_page_n req n) s))
               <$> pages_upto
                     (ceil_div (size (filter (my_filter req) (bids s)))
                        (Pos.to_nat (default 10%positive (my_limit req)))))
  = my_bids_sorted createdAt req s.
Proof.
  rewrite <- my_bids_sorted_length.
  exact (pages_concat (default 10%positive (my_limit req))
           (my_bids_sorted createdAt req s)).
Qed.

(** X15. Walking the pages 1 to [totalPages] of [GET /bids/my] gives every
    bid of the requester that has the requested status exactly once, newest
    first, and no other bid. *)
Theorem my_bids_pages_cover req s pages :
  totalPages <$> pagination_of (myBids createdAt req s) = Some pages →
  let all :=
    List.concat ((λ n, items_of (myBids createdAt (my_page_n req n) s))
                 <$> pages_upto pages) in
  NoDup all
  ∧ StronglySorted (newer_first createdAt) all
  ∧ ∀ k b, (k, b) ∈ all
           ↔ bids s !! k = Some b
             ∧ Bid.developerId b = my_user req
             ∧ ∀ st, given (my_status req) = Some st → Bid.status b = st.
Proof.
  intros [= <-] all. subst all. rewrite my_bids_pages.
  split; [apply my_bids_sorted_NoDup|].
  split; [apply sort_newest_sorted|].
  intros k b. rewrite my_bids_sorted_elem_of. unfold my_filter. cbn.
  destruct (given (my_status req)) as [st|].
  - split.
    + intros (Hb & Hdev & Hst). split_and!; [done..|]. by intros ? [= <-].
    + intros (Hb & Hdev & Hst). split_and!; [done..|]. by apply Hst.
  - split.
    + intros (Hb & Hdev & _). by split_and!.
    + intros (Hb & Hdev & _). by split_and!.
Qed.

(** X16. The [pagination] of a [GET /bids/my] response: [totalBids] counts
    the requester's bids with the requested status; the page holds
    [min limit (totalBids - skip)] bids; [hasNext] is true exactly on the
    pages before [totalPages], [hasPrev] on the pages after the first; and
    [totalPages] is 0 exactly when there is no such bid. *)
Theorem my_bids_pagination req s :
  let page := default 1%positive (my_page req) in
  let limit := Pos.to_nat (default 10%positive (my_limit req)) in
  let skip := ((Pos.to_nat page - 1) * limit)%nat in
  ∃ pg, reply_data (myBids createdAt req s) = Some pg
    ∧ currentPage (pagination pg) = page
    ∧ total (pagination pg) = size (filter (my_filter req) (bids s))
    ∧ List.length (page_items pg)
      = Nat.min limit (total (pagination pg) - skip)
    ∧ (hasNext (pagination pg) = true
       ↔ (Pos.to_nat page < totalPages (pagination pg))%nat)
    ∧ (hasPrev (pagination pg) = true ↔ page ≠ 1%positive)
    ∧ (totalPages (pagination pg) = 0%nat ↔ total (pagination pg) = 0%nat).
Proof.
  intros page limit skip. eexists. split; [reflexivity|].
  cbn [pagination page_items currentPage total hasNext hasPrev totalPages].
  fold page. fold limit. fold skip.
  assert (0 < limit)%nat as Hlimit by (subst limit; lia).
  rewrite skip_limit_length, my_bids_sorted_length.
  set (n := size (filter (my_filter req) (bids s))).
  split_and!; [done..| | |by apply ceil_div_zero].
  - rewrite bool_decide_eq_true.
    rewrite <- (page_before_last n limit (Pos.to_nat page)) by done.
    subst skip. nia.
  - rewrite bool_decide_eq_true. lia.
Qed.

(** *** [GET /projects/open] *)

Lemma open_projects_sorted_elem_of req s k p :
  (k, p) ∈ open_projects_sorted createdAt req s
  ↔ projects s !! k = Some p ∧ open_filter req (k, p).
Proof.
  unfold open_projects_sorted. rewrite sort_newest_perm.
  rewrite elem_of_map_to_list. apply map_lookup_filter_Some.
Qed.

Lemma open_projects_sorted_length req s :
  List.length (open_projects_sorted createdAt req s)
  = size (filter (open_filter req) (projects s)).
Proof.
  unfold open_projects_sorted.
  by rewrite sort_newest_length, length_map_to_list.
Qed.

Lemma open_projects_pages req s :
  List.concat ((λ n, items_of (openProjects createdAt (open_page_n req n) s))
               <$> pages_upto
                     (ceil_div (size (filter (open_filter req) (projects s)))
                        (Pos.to_nat (default 10%positive (open_limit req)))))
  = open_projects_sorted createdAt req s.
Proof.
  rewrite <- open_projects_sorted_length.
  exact (pages_concat (default 10%positive (open_limit req))
           (open_projects_sorted createdAt req s)).
Qed.

Lemma open_items_listed req s k p :
  (k, p) ∈ items_of (openProjects createdAt req s) →
  projects s !! k = Some p ∧ open_filter req (k, p).
Proof.
  cbn. intros Hin. apply skip_limit_subseteq in Hin.
  by apply open_projects_sorted_elem_of in Hin.
Qed.

(** X17. Walking the pages 1 to [totalPages] of [GET /projects/open] gives
    exactly once, newest first, every project that is open, has one of the
    wanted technologies when some are given, and has a budget within the
    given bounds; and no other project. *)
Theorem open_projects_pages_cover req s pages :
  totalPages <$> pagination_of (openProjects createdAt req s) = Some pages →
  let all :=
    List.concat
      ((λ n, items_of (openProjects createdAt (open_page_n req n) s))
       <$> pages_upto pages) in
  NoDup all
  ∧ StronglySorted (newer_first createdAt) all
  ∧ ∀ k p, (k, p) ∈ all
           ↔ projects s !! k = Some p
             ∧ Project.status p = "open"
             ∧ (∀ l, tech_wanted (open_techStack req) = Some l →
                     ∃ t, t ∈ Project.techStack p ∧ t ∈ l)
             ∧ (∀ lo, open_minBudget req = Some lo →
                      (lo ≤ Project.estimatedBudget p)%Z)
             ∧ (∀ hi, open_maxBudget req = Some hi →
                      (Project.estimatedBudget p ≤ hi)%Z).
Proof.
  intros [= <-] all. subst all. rewrite open_projects_pages.
  split.
  { unfold open_projects_sorted. rewrite sort_newest_perm.
    apply NoDup_map_to_list. }
  split; [apply sort_newest_sorted|].
  intros k p. rewrite open_projects_sorted_elem_of. unfold open_filter. cbn.
  split.
  - intros (Hp & Hopen & Htech & Hlo & Hhi). split_and!; [done..| | |].
    + intros l Hl. rewrite Hl in Htech. by apply Exists_exists in Htech.
    + intros lo Hm. by rewrite Hm in Hlo.
    + intros hi Hm. by rewrite Hm in Hhi.
  - intros (Hp & Hopen & Htech & Hlo & Hhi). split_and!; [done..| | |].
    + destruct (tech_wanted _) as [l|]; [|done].
      apply Exists_exists. by apply Htech.
    + destruct (open_minBudget req) as [lo|]; [|done]. by apply Hlo.
    + destruct (open_maxBudget req) as [hi|]; [|done]. by apply Hhi.
Qed.

(** X18. A project that [GET /projects/open] lists can be bid on: a
    validated plain [placeBid] (an ASCII message, an amount up to 2^53, an
    [estimatedDelivery] that is absent or parses to a date) of a developer
    who has no bid on it yet, with a new bid [_id], served on the store that
    was listed, answers 201. *)
Theorem listed_project_takes_bid req s k p oid breq :
  (k, p) ∈ items_of (openProjects createdAt req s) →
  plain_place breq →
  validateBid breq = [] →
  body_projectId breq = k →
  bids s !! oid = None →
  (∀ k' b, bids s !! k' = Some b →
           ¬ (Bid.projectId b = k ∧ Bid.developerId b = place_user breq)) →
  statusCode (placeBid oid breq s).2 = 201%Z.
Proof.
  intros Hin _ Hv <- Hfresh Hnone.
  destruct (open_items_listed _ _ _ _ Hin) as (Hp & Hopen & _).
  by erewrite placeBid_created.
Qed.

(** X19. Once the owner has accepted a bid on a project, no page of
    [GET /projects/open] lists the project, whatever the query, and after
    any further requests. *)
Theorem awarded_project_not_listed dreq s rs oreq p :
  body_status dreq = "accepted" →
  statusCode (decideBid dreq s).2 = 200%Z →
  ∀ b, bids s !! params_id dreq = Some b →
  (Bid.projectId b, p)
  ∉ items_of (openProjects createdAt oreq
                (serve_all rs (decideBid dreq s).1)).
Proof.
  intros Hst H200 b Hb Hin.
  destruct (open_items_listed _ _ _ _ Hin) as (Hp & Hopen & _).
  cbn in Hopen.
  destruct (decideBid_cases dreq s)
    as [ | | | |b' q _ Hb' Hq Ho|b' q Hrej]; try done; [|congruence].
  rewrite Hb in Hb'. injection Hb' as <-. cbn [fst] in *.
  destruct (keeps_documents_serve_all rs
              (accepted_store (params_id dreq) b s)) as [Hkeep _].
  destruct (Hkeep _ _ (accepted_store_project _ _ _ _ Hq))
    as (p' & Hp' & _ & Hclosed).
  rewrite Hp in Hp'. injection Hp' as <-. by apply Hclosed.
Qed.

(** *** A placed bid in the listings *)

Lemma elem_of_pages {A} (f : positive → list A) (n : nat) x :
  x ∈ List.concat (f <$> pages_upto n) →
  ∃ page, page ∈ pages_upto n ∧ x ∈ f page.
Proof.
  intros Hin. apply list_elem_of_In, in_concat in Hin as (l & Hl & Hx).
  apply list_elem_of_In, list_elem_of_fmap in Hl as (page & -> & Hpage).
  exists page. split; [done|]. by apply list_elem_of_In.
Qed.

(** X20. A bid that [placeBid] has stored is in the listings: the developer
    finds it, pending, on one of the pages of [GET /bids/my], and the
    project's owner finds it in [GET /projects/:id/bids], whose [totalBids]
    has grown by one. *)
Theorem placed_bid_is_listed s oid req limit owner role :
  statusCode (placeBid oid req s).2 = 201%Z →
  let s' := (placeBid oid req s).1 in
  (∃ page,
     (oid, placed_bid req)
     ∈ items_of (myBids createdAt
                   (mkMyBidsReq (place_user req) (Some "pending")
                      (Some page) limit) s'))
  ∧ ((Project.createdBy <$> projects s !! body_projectId req = Some owner
      ∨ role ≠ "user") →
     ∃ before after,
       reply_data (projectBids createdAt
                     (mkProjectBidsReq owner role (body_projectId req)) s)
       = Some before
       ∧ reply_data (projectBids createdAt
                       (mkProjectBidsReq owner role (body_projectId req)) s')
         = Some after
       ∧ (oid, placed_bid req) ∈ pb_bids after
       ∧ totalBids after = S (totalBids before)).
Proof.
  intros H201 s'. subst s'.
  destruct (placeBid_cases_full oid req s)
    as [[_ Hne]|(Hv & (p & Hp & Hopen) & Hfresh & Hnone & Heq)]; [done|].
  rewrite Heq. cbn [fst]. split.
  - set (q := mkMyBidsReq (place_user req) (Some "pending") None limit).
    assert ((oid, placed_bid req)
            ∈ my_bids_sorted createdAt q
                (mkStore (projects s) (<[oid:=placed_bid req]> (bids s))))
      as Hin.
    { apply my_bids_sorted_elem_of. cbn [bids].
      split; [apply lookup_insert_eq|]. by split. }
    rewrite <- my_bids_pages in Hin.
    apply elem_of_pages in Hin as (page & _ & Hin). by exists page.
  - intros Hmay. unfold projectBids. cbn [pb_id pb_role pb_user projects bids].
    rewrite Hp.
    assert (bool_decide (role = "user")
            && negb (bool_decide (Project.createdBy p = owner)) = false)
      as ->.
    { destruct Hmay as [Howner|Hrole].
      - rewrite Hp in Howner. injection Howner as Howner.
        rewrite (bool_decide_eq_true_2 (Project.createdBy p = owner))
          by done.
        apply andb_false_r.
      - by rewrite bool_decide_eq_false_2. }
    do 2 eexists. split; [reflexivity|]. split; [reflexivity|].
    cbn [pb_bids totalBids].
    rewrite map_filter_insert_True by done.
    split.
    + rewrite sort_newest_perm. apply elem_of_map_to_list, lookup_insert_eq.
    + rewrite !sort_newest_length, !length_map_to_list.
      apply map_size_insert_None, map_lookup_filter_None. by left.
Qed.

(** *** [GET /projects/:id/bids] *)

(** With an [:id] that casts, the route answers 404, 403 or 200. *)
Lemma projectBids_cases req s :
  match projects s !! pb_id req with
  | None => reply_code (projectBids createdAt req s) = 404%Z
  | Some p =>
      if bool_decide (pb_role req = "user"
                      ∧ Project.createdBy p ≠ pb_user req)
      then reply_code (projectBids createdAt req s) = 403%Z
           ∧ reply_data (projectBids createdAt req s) = None
      else ∃ d, projectBids createdAt req s
                = mkReply 200 true "Project bids retrieved successfully"
                    (Some d)
                ∧ NoDup (pb_bids d)
                ∧ StronglySorted (newer_first createdAt) (pb_bids d)
                ∧ (∀ k b, (k, b) ∈ pb_bids d
                          ↔ bids s !! k = Some b
                            ∧ Bid.projectId b = pb_id req)
                ∧ totalBids d = List.length (pb_bids d)
                ∧ pb_project_title d = Project.title p
                ∧ pb_project_status d = Project.status p
  end.
Proof.
  unfold projectBids. destruct (projects s !! pb_id req) as [p|]; [|done].
  case_bool_decide as Hdenied.
  - destruct Hdenied as [Hrole Howner].
    rewrite bool_decide_eq_true_2 by done.
    by rewrite bool_decide_eq_false_2 by done.
  - assert (bool_decide (pb_role req = "user")
            && negb (bool_decide (Project.createdBy p = pb_user req))
            = false) as ->.
    { apply andb_false_iff.
      destruct (decide (pb_role req = "user")) as [Hrole|Hrole];
        [|left; by apply bool_decide_eq_false_2].
      right. apply negb_false_iff, bool_decide_eq_true_2.
      destruct (decide (Project.createdBy p = pb_user req)); [done|].
      by destruct Hdenied. }
    eexists. split; [reflexivity|]. cbn [pb_bids totalBids pb_project_title
      pb_project_status].
    split_and!; try done.
    + rewrite sort_newest_perm. apply NoDup_map_to_list.
    + apply sort_newest_sorted.
    + intros k b. rewrite sort_newest_perm, elem_of_map_to_list.
      apply map_lookup_filter_Some.
Qed.

(** X21. [GET /projects/:id/bids] answers 500 for an [:id] that does not
    cast to an ObjectId (the catch block), 404 for one that casts to no
    project of the store, and 403 for a requester with role 'user' who does
    not own the project; every other requester, the owner or one with
    another role, gets 200 with exactly the bids that reference the project,
    each once, newest first, and [totalBids] is their number. *)
Theorem project_bids_access cast req s :
  let reply := projectBids_http cast createdAt req s in
  match cast (pbh_id req) with
  | None => reply = reply_fail 500 "Failed to fetch bids"
  | Some id =>
      match projects s !! id with
      | None => reply_code reply = 404%Z
      | Some p =>
          if bool_decide (pbh_role req = "user"
                          ∧ Project.createdBy p ≠ pbh_user req)
          then reply_code reply = 403%Z ∧ reply_data reply = None
          else ∃ d, reply
                    = mkReply 200 true "Project bids retrieved successfully"
                        (Some d)
                    ∧ NoDup (pb_bids d)
                    ∧ StronglySorted (newer_first createdAt) (pb_bids d)
                    ∧ (∀ k b, (k, b) ∈ pb_bids d
                              ↔ bids s !! k = Some b
                                ∧ Bid.projectId b = id)
                    ∧ totalBids d = List.length (pb_bids d)
                    ∧ pb_project_title d = Project.title p
                    ∧ pb_project_status d = Project.status p
      end
  end.
Proof.
  intros reply. subst reply. unfold projectBids_http.
  destruct (cast (pbh_id req)) as [id|]; [|done].
  exact (projectBids_cases
           (mkProjectBidsReq (pbh_user req) (pbh_role req) id) s).
Qed.

(** *** A created project in the listings *)

(** X22. A project that [createProject] has stored is in the listings: its
    owner's [GET /projects/export] holds it, with [totalProjects] grown by
    one, and it is on one of the pages of the unfiltered
    [GET /projects/open]. *)
Theorem created_project_is_listed s oid req limit :
  reply_code (createProject oid req s).2 = 201%Z →
  let s' := (createProject oid req s).1 in
  (oid, created_project req)
  ∈ export_projects (exportProjects (create_user req) s')
  ∧ totalProjects (exportProjects (create_user req) s')
    = S (totalProjects (exportProjects (create_user req) s))
  ∧ (∀ k p, (k, p) ∈ export_projects (exportProjects (create_user req) s')
            → Project.createdBy p = create_user req)
  ∧ ∃ page,
      (oid, created_project req)
      ∈ items_of (openProjects createdAt
                    (mkOpenReq (Some page) limit None None None) s').
Proof.
  intros H201 s'. subst s'.
  destruct (createProject_cases oid req s)
    as [[_ Hne]|(Hv & Hblank & Hfresh & Heq)]; [done|].
  rewrite Heq. cbn [fst]. unfold exportProjects.
  cbn [export_projects totalProjects projects].
  rewrite map_filter_insert_True by done.
  split_and!.
  - apply elem_of_map_to_list, lookup_insert_eq.
  - rewrite !length_map_to_list.
    apply map_size_insert_None, map_lookup_filter_None. by left.
  - intros k p Hin. apply elem_of_map_to_list in Hin.
    apply lookup_insert_Some in Hin as [[_ <-]|[_ Hin]]; [done|].
    by apply map_lookup_filter_Some in Hin as [_ ?].
  - set (q := mkOpenReq None limit None None None).
    assert ((oid, created_project req)
            ∈ open_projects_sorted createdAt q
                (mkStore (<[oid:=created_project req]> (projects s))
                   (bids s))) as Hin.
    { apply open_projects_sorted_elem_of. cbn [projects].
      split; [apply lookup_insert_eq|]. by split_and!. }
    rewrite <- open_projects_pages in Hin.
    apply elem_of_pages in Hin as (page & _ & Hin). by exists page.
Qed.

End ListingFacts.

Lemma my_bids_pages_cover_witness :
  let all :=
    List.concat ((λ n, items_of
                   (myBids stamp
                      (my_page_n (mkMyBidsReq 20 None None (Some 1%positive))
                         n)
                      app_store))
                 <$> pages_upto 1) in
  NoDup all ∧ (100%N, Bid.set_status "accepted" (placed_bid (bid_of 20 4500)))
              ∈ all.
Proof.
  destruct (my_bids_pages_cover stamp
              (mkMyBidsReq 20 None None (Some 1%positive)) app_store 1)
    as (Hnd & _ & Hin); [by vm_compute|].
  split; [exact Hnd|]. apply Hin. by vm_compute.
Defined.

Lemma listed_project_takes_bid_witness :
  statusCode
    (placeBid 200 (mkPlaceReq 21 2 300 "I can deliver this project" None)
       (createProject 2 create_shop app_store).1).2 = 201%Z.
Proof.
  apply (listed_project_takes_bid stamp (mkOpenReq None None None None None)
           _ 2%N shop); try by vm_compute.
  - vm_compute. apply list_elem_of_here.
  - apply filter_pair_empty. by vm_compute.
Defined.

Lemma awarded_project_not_listed_witness :
  (1%N, Project.update "in progress" 20 shop)
  ∉ items_of (openProjects stamp (mkOpenReq None None None None None)
                (serve_all [ReqDecideBid (reject 10 100)]
                   (decideBid (accept 10 100) store_bids).1)).
Proof.
  apply (awarded_project_not_listed stamp (accept 10 100) store_bids
           [ReqDecideBid (reject 10 100)]
           (mkOpenReq None None None None None)
           (Project.update "in progress" 20 shop) eq_refl eq_refl
           (placed_bid (bid_of 20 4500)) eq_refl).
Defined.

Lemma placed_bid_is_listed_witness :
  ∃ page,
    (103%N, placed_bid (bid_of 23 4500))
    ∈ items_of (myBids stamp
                  (mkMyBidsReq 23 (Some "pending") (Some page) None)
                  (placeBid 103 (bid_of 23 4500) store_bids).1).
Proof.
  destruct (placed_bid_is_listed stamp store_bids 103 (bid_of 23 4500) None
              10%N "user") as [Hmine _]; [by vm_compute|].
  exact Hmine.
Defined.

Lemma open_projects_pages_cover_witness :
  let all :=
    List.concat
      ((λ n, items_of
               (openProjects stamp
                  (open_page_n
                     (mkOpenReq None (Some 1%positive)
                        (Some (TechValue "React")) (Some 1000%Z) None) n)
                  (createProject 2 create_shop app_store).1))
       <$> pages_upto 1) in
  NoDup all ∧ (2%N, shop) ∈ all.
Proof.
  destruct (open_projects_pages_cover stamp
              (mkOpenReq None (Some 1%positive) (Some (TechValue "React"))
                 (Some 1000%Z) None)
              (createProject 2 create_shop app_store).1 1)
    as (Hnd & _ & Hin); [by vm_compute|].
  split; [exact Hnd|]. apply Hin. split_and!; try by vm_compute.
  - intros l [= <-]. exists "React". split; apply list_elem_of_here.
  - intros lo [= <-]. by vm_compute.
Defined.

Lemma created_project_is_listed_witness :
  (2%N, shop)
  ∈ export_projects
      (exportProjects 10 (createProject 2 create_shop app_store).1)
  ∧ totalProjects
      (exportProjects 10 (createProject 2 create_shop app_store).1)
    = 2%nat.
Proof.
  destruct (created_project_is_listed stamp app_store 2 create_shop None)
    as (Hin & Htotal & _); [by vm_compute|].
  split; [exact Hin|]. etrans; [exact Htotal|]. by vm_compute.
Defined.
